(** * react-imvc-template: dev bundler adapter, HTTP bootstrap, base Controller

    A shallow embedding of [src/build/setup-dev-env.js] (the three scripts it
    holds: [setupServer], the [Controller] base class and the [bin/www]
    bootstrap) together with the properties the specification states about
    them.

    Conventions of the embedding.
    - A JavaScript string is a [string] (a sequence of 8-bit code units).
    - A JavaScript number is a double that is an integer (written as that
      integer, rounded to nearest where it is read from a numeral), an
      infinity or [NaN]; fractions do not occur in the program.
    - A promise is modelled by its settlement; [await] is sequencing.
    - Modules the sources import but that are not at hand ([./util], the
      network behind [fetch], user supplied hooks) are interfaces (classes)
      the development is parameterised over. *)

From Stdlib Require Import ZArith Lia Ascii String List Bool.
From stdpp Require Import base decidable option list gmap strings pretty.
From Equations Require Import Equations.

Set Warnings "-register-all".
Local Open Scope string_scope.
Local Open Scope Z_scope.

(* ===================================================================== *)
(** ** JavaScript strings                                                 *)
(* ===================================================================== *)

Module JsString.

(** [s.slice(n)] for [0 <= n]. *)
Fixpoint slice (n : nat) (s : string) : string :=
  match n, s with
  | O, _ => s
  | S _, EmptyString => EmptyString
  | S n', String _ s' => slice n' s'
  end.

(** Scan of [String.prototype.indexOf]: the first position at or after [i]
    where [pat] occurs, [-1] when there is none. *)
Fixpoint indexOf_from (pat s : string) (i : Z) : Z :=
  if String.prefix pat s then i
  else match s with
       | EmptyString => -1
       | String _ s' => indexOf_from pat s' (i + 1)
       end.

(** [s.indexOf(pat)] *)
Definition indexOf (s pat : string) : Z := indexOf_from pat s 0.

(** [s.replace(pat, rep)] with a string pattern: only the first occurrence
    is replaced ([rep] is taken literally, it holds no [$] pattern in the
    program). *)
Fixpoint replace (s pat rep : string) : string :=
  if String.prefix pat s then rep +:+ slice (String.length pat) s
  else match s with
       | EmptyString => EmptyString
       | String c s' => String c (replace s' pat rep)
       end.

Definition CR : ascii := ascii_of_nat 13.

Definition is_cr (c : ascii) : bool := bool_decide (c = CR).

(** The greedy match of [\r+] at the head of [s]: what is left of [s] once
    the longest run of carriage returns is consumed. *)
Fixpoint skip_cr_run (s : string) : string :=
  match s with
  | String c s' => if is_cr c then skip_cr_run s' else s
  | EmptyString => EmptyString
  end.

(** [s.replace(/\r+/g, "")]: at each position the regular expression either
    matches a maximal run of carriage returns, which is replaced by the empty
    string and the scan resumes after the run, or it does not match and the
    character is copied. *)
Equations? replace_cr_runs (s : string) : string by wf (String.length s) lt :=
  replace_cr_runs EmptyString := EmptyString;
  replace_cr_runs (String c s') with is_cr c := {
    | true := replace_cr_runs (skip_cr_run s')
    | false := String c (replace_cr_runs s') }.
Proof.
  all: simpl; try lia.
  assert (forall t, (String.length (skip_cr_run t) <= String.length t)%nat) as Hle.
  { induction t as [|d t IH]; simpl; [lia|]. destruct (is_cr d); simpl; lia. }
  specialize (Hle s'). lia.
Qed.

(** Reference meaning of "all carriage returns removed". *)
Fixpoint without_cr (s : string) : string :=
  match s with
  | EmptyString => EmptyString
  | String c s' => if is_cr c then without_cr s' else String c (without_cr s')
  end.

(** [s] contains [pat] somewhere. *)
Fixpoint occurs (pat s : string) : bool :=
  String.prefix pat s ||
  match s with
  | EmptyString => false
  | String _ s' => occurs pat s'
  end.

(** Characters [parseInt] skips at the front (StrWhiteSpaceChar, restricted
    to 8-bit code units: TAB LF VT FF CR SP NBSP). *)
Definition is_whitespace (c : ascii) : bool :=
  let n := nat_of_ascii c in
  ((9 <=? n) && (n <=? 13) || (n =? 32) || (n =? 160))%nat.

Fixpoint trimStart (s : string) : string :=
  match s with
  | String c s' => if is_whitespace c then trimStart s' else s
  | EmptyString => EmptyString
  end.

(** Value of a decimal digit, [None] for any other character. *)
Definition digit_value (c : ascii) : option Z :=
  let n := nat_of_ascii c in
  if ((48 <=? n) && (n <=? 57))%nat then Some (Z.of_nat n - 48) else None.

(** Longest prefix of decimal digits, read most significant digit first;
    [acc] is the value of the digits read so far ([None]: none yet). *)
Fixpoint read_digits (acc : option Z) (s : string) : option Z :=
  match s with
  | EmptyString => acc
  | String c s' =>
      match digit_value c with
      | Some d => read_digits (Some (10 * default 0 acc + d)) s'
      | None => acc
      end
  end.

(** The integer [parseInt(s, 10)] reads, before it is turned into a number:
    leading white space is dropped, one sign is read, then the longest run
    of decimal digits; [None] when there is no digit. Radix 10 is given, so
    no [0x] prefix is recognised. *)
Definition leading_integer (s : string) : option Z :=
  match trimStart s with
  | String "-" r => Z.opp <$> read_digits None r
  | String "+" r => read_digits None r
  | r => read_digits None r
  end.

End JsString.

(* ===================================================================== *)
(** ** JavaScript numbers                                                 *)
(* ===================================================================== *)

Module JsNumber.
Import JsString.

(** The numbers the program meets: doubles that are integers, the
    infinities and [NaN]. [Int n] is the double nearest to [n]; every
    integer below [2^53] in magnitude is one, and negative zero is not told
    from zero (the program prints and compares, and neither sees the sign
    of zero). *)
Inductive number : Type :=
| Int (n : Z)
| Infinity (negative : bool)
| NaN.

Coercion Int : Z >-> number.

(** The double nearest to the integer [0 <= x], ties to even: the 53 leading
    bits are kept. The result can be [2^1024], which stands for overflow. *)
Definition round_to_double (x : Z) : Z :=
  let drop := Z.log2 x - 52 in
  if drop <=? 0 then x
  else
    let ulp := 2 ^ drop in
    let q := x / ulp in
    let r := x mod ulp in
    let q := if (ulp <? 2 * r) || ((2 * r =? ulp) && Z.odd q) then q + 1 else q in
    q * ulp.

(** The Number value for the integer [n]. *)
Definition to_number (n : Z) : number :=
  let x := round_to_double (Z.abs n) in
  if 2 ^ 1024 <=? x then Infinity (n <? 0) else Int (Z.sgn n * x).

(** [parseInt(s, 10)]. (Past the 20th significant digit the standard leaves
    the rounding to the implementation; the engines round to nearest.) *)
Definition parseInt (s : string) : number :=
  match leading_integer s with
  | None => NaN
  | Some n => to_number n
  end.

(** [x >= 0] *)
Definition is_nonnegative (x : number) : bool :=
  match x with
  | Int n => 0 <=? n
  | Infinity negative => negb negative
  | NaN => false
  end.

(** *** Number::toString *)

(** The decimal that is nearest to the double [x] among those whose digits
    past the [k]-th are zero and whose Number value is [x], if there is
    one; [len] is the number of digits of [x]. *)
Definition shortest_at (x len k : Z) : option Z :=
  if len <=? k then Some x
  else
    let p := 10 ^ (len - k) in
    let lo := x / p * p in
    let hi := lo + p in
    let denotes c :=
      match to_number c with Int y => y =? x | _ => false end in
    match denotes lo, denotes hi with
    | true, true =>
        Some (if x - lo <? hi - x then lo
              else if hi - x <? x - lo then hi
              else if Z.even (lo / p) then lo else hi)
    | true, false => Some lo
    | false, true => Some hi
    | false, false => None
    end.

(** The decimal with the fewest significant digits whose Number value is
    [x]. Seventeen digits are always enough. *)
Fixpoint shortest (fuel : nat) (x len k : Z) : Z :=
  match fuel with
  | O => x
  | S fuel' =>
      match shortest_at x len k with
      | Some c => c
      | None => shortest fuel' x len (k + 1)
      end
  end.

Fixpoint strip_zeros (reversed : list ascii) : list ascii :=
  match reversed with
  | "0"%char :: rest => strip_zeros rest
  | _ => reversed
  end.

(** [d.ddd e+n] for a decimal [c] of 22 digits or more. *)
Definition exponential (c : Z) : string :=
  let digits := list_ascii_of_string (pretty c) in
  let exponent := Z.of_nat (length digits) - 1 in
  match rev (strip_zeros (rev digits)) with
  | [] => "0"
  | [d] => String d ("e+" +:+ pretty exponent)
  | d :: rest =>
      String d ("." +:+ string_of_list_ascii rest +:+ "e+" +:+ pretty exponent)
  end.

(** The string of the double [0 <= x]: an integer below [2^53] is printed
    in full; above, the shortest decimal that denotes it is printed, in
    full below [10^21] and with an exponent from there on. *)
Definition print_double (x : Z) : string :=
  if x <? 2 ^ 53 then pretty x
  else
    let c := shortest 17 x (Z.of_nat (String.length (pretty x))) 1 in
    if c <? 10 ^ 21 then pretty c else exponential c.

(** [String(x)] *)
Definition Number_toString (x : number) : string :=
  match x with
  | NaN => "NaN"
  | Infinity negative => if negative then "-Infinity" else "Infinity"
  | Int n =>
      match to_number n with
      | Int m => if m <? 0 then "-" +:+ print_double (- m) else print_double m
      | Infinity negative => if negative then "-Infinity" else "Infinity"
      | NaN => "NaN"
      end
  end.

End JsNumber.

(* ===================================================================== *)
(** ** JavaScript values                                                  *)
(* ===================================================================== *)

Module Js.
Import JsString JsNumber.

(** Identity of an object that is only passed around (a controller
    instance, the context, the location). *)
Definition objref := nat.

(** A function value: an ordinary function the program or its user
    defined, named by its source; an arrow function, which closes over the
    [this] of the place it was written in; or the bound function exotic
    object [target.bind(this)]. *)
Inductive func : Type :=
| Fn (name : string)
| Arrow (name : string) (this : objref)
| Bound (target : func) (this : objref).

(** The values the program handles. [VObj] is a plain data object with its
    own enumerable properties in [Object.keys] order; [VRef] is an object
    known by identity only. *)
Inductive value : Type :=
| VUndefined
| VNull
| VBool (b : bool)
| VNum (x : number)
| VStr (s : string)
| VObj (props : list (string * value))
| VFun (f : func)
| VRef (r : objref).

(** The [this] the body of [f] runs with when [f] is called on [receiver]:
    a bound function calls its target on its bound [this], so that, of a
    function bound several times, the first binding is the one that counts. *)
Fixpoint this_of (f : func) (receiver : objref) : objref :=
  match f with
  | Fn _ => receiver
  | Arrow _ this => this
  | Bound target this => this_of target this
  end.

(** What a call does: it returns (a promise is fulfilled) or it throws (a
    promise is rejected). *)
Inductive completion (A : Type) : Type :=
| Normal (a : A)
| Throw (e : value).
Arguments Normal {A} a.
Arguments Throw {A} e.

Definition TypeError (msg : string) : value :=
  VObj [("name", VStr "TypeError"); ("message", VStr msg)].

(** [typeof v] *)
Definition typeof (v : value) : string :=
  match v with
  | VUndefined => "undefined"
  | VNull => "object"
  | VBool _ => "boolean"
  | VNum _ => "number"
  | VStr _ => "string"
  | VObj _ => "object"
  | VFun _ => "function"
  | VRef _ => "object"
  end.

(** ToBoolean *)
Definition truthy (v : value) : bool :=
  match v with
  | VUndefined | VNull => false
  | VBool b => b
  | VNum (Int n) => negb (n =? 0)
  | VNum (Infinity _) => true
  | VNum NaN => false
  | VStr s => negb (String.eqb s "")
  | VObj _ | VFun _ | VRef _ => true
  end.

(** [a || b] *)
Definition or_else (a b : value) : value := if truthy a then a else b.

(** ToString, as [parseInt] and template literals apply it. *)
Definition ToString (v : value) : string :=
  match v with
  | VUndefined => "undefined"
  | VNull => "null"
  | VBool true => "true"
  | VBool false => "false"
  | VNum x => Number_toString x
  | VStr s => s
  | VObj _ | VRef _ => "[object Object]"
  | VFun _ => "function () { [native code] }"
  end.

(** Property lists: read, write (an existing key keeps its place, a new one
    goes last), and the object spread [{...dst, ...src}]. *)
Fixpoint lookup_prop (k : string) (ps : list (string * value)) : option value :=
  match ps with
  | [] => None
  | (k', v) :: ps' => if String.eqb k k' then Some v else lookup_prop k ps'
  end.

Fixpoint set_prop (k : string) (v : value) (ps : list (string * value))
  : list (string * value) :=
  match ps with
  | [] => [(k, v)]
  | (k', v') :: ps' =>
      if String.eqb k k' then (k, v) :: ps' else (k', v') :: set_prop k v ps'
  end.

Definition assign (dst src : list (string * value)) : list (string * value) :=
  fold_left (fun acc kv => set_prop kv.1 kv.2 acc) src dst.

(** The characters of a string as its index properties. *)
Fixpoint index_props (i : nat) (s : string) : list (string * value) :=
  match s with
  | EmptyString => []
  | String c s' => (pretty i, VStr (String c EmptyString)) :: index_props (S i) s'
  end.

(** Own enumerable properties, as a spread or [Object.keys] sees them. *)
Definition own_props (v : value) : list (string * value) :=
  match v with
  | VObj ps => ps
  | VStr s => index_props 0 s
  | _ => []
  end.

(** [v[k]] on the values modelled here (no prototype members). *)
Definition get (v : value) (k : string) : value :=
  default VUndefined (lookup_prop k (own_props v)).

(** [Object.keys(v)]: a [TypeError] on [undefined] and [null]. *)
Definition Object_keys (v : value) : completion (list string) :=
  match v with
  | VUndefined | VNull => Throw (TypeError "Cannot convert undefined or null to object")
  | _ => Normal (map fst (own_props v))
  end.

End Js.

(* ===================================================================== *)
(** ** bin/www: the HTTP bootstrap                                        *)
(* ===================================================================== *)

Module Bootstrap.
Import JsString JsNumber Js.

(** [normalizePort(val)]: a number, the value itself, or [false]. *)
Definition normalizePort (val : value) : value :=
  match parseInt (ToString val) with
  | NaN => (* named pipe *) val
  | port => if is_nonnegative port then (* port number *) VNum port else VBool false
  end.

(** The replacement of [global.fetch]: [underlying] is node-fetch. *)
Definition global_fetch {Options Response : Type}
    (port : value) (underlying : string -> Options -> Response)
    (url : string) (options : Options) : Response :=
  let url :=
    if indexOf url "/" =? 0 then ("http://localhost:" +:+ ToString port) +:+ url
    else url in
  underlying url options.

(** A numeric string in the plain sense: a decimal numeral, that is an
    optional sign followed by decimal digits only, at least one. *)
Fixpoint all_digits (s : string) : bool :=
  match s with
  | EmptyString => true
  | String c s' => bool_decide (is_Some (digit_value c)) && all_digits s'
  end.

Definition is_numeral (s : string) : bool :=
  match s with
  | String "-" r | String "+" r => negb (String.eqb r "") && all_digits r
  | r => negb (String.eqb r "") && all_digits r
  end.

(** An absolute URL in the sense of RFC 3986: it starts with a scheme, a
    letter followed by letters, digits, [+], [-] or [.], then a colon. *)
Definition is_alpha (c : ascii) : bool :=
  let n := nat_of_ascii c in
  ((65 <=? n) && (n <=? 90) || (97 <=? n) && (n <=? 122))%nat.

Definition is_scheme_char (c : ascii) : bool :=
  is_alpha c || bool_decide (is_Some (digit_value c))
  || bool_decide (c = "+"%char) || bool_decide (c = "-"%char)
  || bool_decide (c = "."%char).

Fixpoint scheme_rest (s : string) : bool :=
  match s with
  | EmptyString => false
  | String c s' =>
      bool_decide (c = ":"%char) || (is_scheme_char c && scheme_rest s')
  end.

Definition has_scheme (s : string) : bool :=
  match s with
  | String c s' => is_alpha c && scheme_rest s'
  | EmptyString => false
  end.

End Bootstrap.

(* ===================================================================== *)
(** ** build/setup-dev-env.js: the dev bundler adapter                    *)
(* ===================================================================== *)

Module DevServer.
Import JsString JsNumber Js.

(** What the watch callback does that can be observed from outside. *)
Inductive effect : Type :=
| ConsoleError (v : value)
| ConsoleWarn (v : value)
| ConsoleLog (v : value)
| HandleHotModule (arg : value).

(** [stats.toJson()], as far as the callback reads it. *)
Record Stats := { errors : list value; warnings : list value }.

(** Running [factory(require, module, module.exports)] on the compiled
    source: it throws, or it completes and leaves [module.exports]. *)
Inductive evaluation : Type :=
| Throws (error : value)
| Exports (module_exports : value).

(** The function the [vm] call builds, applied to [require]: the [try]
    around the factory turns a throw into a logged error and [null]. *)
Definition load_module (ev : evaluation) : value * list effect :=
  match ev with
  | Throws error => (VNull, [ConsoleLog error])
  | Exports module_exports => (module_exports, [])
  end.

(** The callback of [serverCompiler.watch] when the output of the rebuild
    is read and compiled (see [on_build] for when it is not): the effects of
    one rebuild, and how the callback completes. [err] is the compiler's
    error argument ([null] when there is none). *)
Definition on_rebuild (err : value) (stats : Stats) (ev : evaluation)
  : completion unit * list effect :=
  if truthy err then (Throw err, [])
  else
    let logged :=
      (map ConsoleError (errors stats) ++ map ConsoleWarn (warnings stats))%list in
    let '(newModule, evaluated) := load_module ev in
    if truthy newModule then
      (Normal (),
       (logged ++ evaluated
        ++ [HandleHotModule (or_else (get newModule "default") newModule)])%list)
    else (Normal (), (logged ++ evaluated)%list).

(** What becomes of the output of a rebuild before its factory can run:
    [mfs.readFileSync] throws, [vm.runInThisContext] cannot compile the
    source, or the function it builds is there and runs the factory. *)
Inductive bundle : Type :=
| Unreadable (error : value)
| Uncompilable (error : value)
| Compiled (ev : evaluation).

(** The callback of [serverCompiler.watch], the reading and the compiling
    of the output included: their failures happen after the logging and
    outside the [try] of the bundle, and leave the callback as throws. *)
Definition on_build (err : value) (stats : Stats) (b : bundle)
  : completion unit * list effect :=
  match b with
  | Compiled ev => on_rebuild err stats ev
  | Unreadable error | Uncompilable error =>
      if truthy err then (Throw err, [])
      else
        (Throw error,
         (map ConsoleError (errors stats) ++ map ConsoleWarn (warnings stats))%list)
  end.

(** One rebuild, as the compiler reports it to the callback: its error
    argument, its statistics, and what becomes of its output. *)
Definition rebuild : Type := value * Stats * bundle.

(** [setupServer(options)] over the rebuilds the watching compiler goes
    through: the callback runs once per rebuild; an error it throws is not
    caught and ends the watch. *)
Fixpoint setupServer (rebuilds : list rebuild) : completion unit * list effect :=
  match rebuilds with
  | [] => (Normal (), [])
  | (err, stats, b) :: rest =>
      match on_build err stats b with
      | (Normal _, effects) =>
          let '(r, effects') := setupServer rest in (r, (effects ++ effects')%list)
      | (Throw e, effects) => (Throw e, effects)
      end
  end.

(** The arguments [handleHotModule] received, in order. *)
Definition hot_modules (es : list effect) : list value :=
  omap (fun e => match e with HandleHotModule a => Some a | _ => None end) es.

(** The module a rebuild hands over, if any. *)
Definition handed_over (b : rebuild) : list value :=
  match b with
  | (_, _, Compiled (Exports m)) =>
      if truthy m then [or_else (get m "default") m] else []
  | _ => []
  end.

(** The callback gets as far as running the factory: the compiler reports
    no error, and the output is read and compiled. *)
Definition runs_factory (b : rebuild) : Prop :=
  truthy b.1.1 = false /\ exists ev, b.2 = Compiled ev.

End DevServer.

(* ===================================================================== *)
(** ** The base Controller                                                *)
(* ===================================================================== *)

Module Controller.
Import JsString JsNumber Js.

(** *** Collaborators that are not part of the sources at hand *)

(** [./util]: [_.isAbsoluteUrl]. ([_.toText] is folded into [Network].) *)
Class Util := { isAbsoluteUrl : string -> bool }.

(** [./actions]: the actions every store shares. *)
Class SharedActions := { shareActions : list (string * value) }.

(** User code: what calling the function [f] with the given [this] and
    arguments settles to. A hook is taken to be an [async] function (a throw
    inside it is the rejection of the promise it returns), and the model
    keeps from it only how it settles: what a hook does to the instance or
    to the session while it runs is outside the model, and the properties
    that speak of the instance or of the session after a hook has run are
    about what [init()] itself does. *)
Class UserCode := { invoke : func -> objref -> list value -> completion value }.

(** One request as [fetch(finalUrl, finalOptions)] hands it to the platform. *)
Record Request := {
  req_url : string;
  req_method : string;
  req_credentials : string;
  req_headers : list (string * string)
}.

(** The platform's [fetch] followed by [_.toText]: the text the [n]-th
    request of the session comes back with, or the rejection. *)
Class Network := { respond : nat -> Request -> completion string }.

(** *** Data *)

(** The per-session context. Its mutable [preload] member lives in the
    [World], see below. *)
Record Context := {
  isClient : bool;
  isServer : bool;
  cookie : string;
  locationOrigin : string;
  basename : string;
  publicPath : string;
  restfulApi : string
}.

Definition context_object (ctx : Context) : value :=
  VObj [("isClient", VBool (isClient ctx)); ("isServer", VBool (isServer ctx));
        ("cookie", VStr (cookie ctx));
        ("locationOrigin", VStr (locationOrigin ctx));
        ("basename", VStr (basename ctx)); ("publicPath", VStr (publicPath ctx));
        ("restfulApi", VStr (restfulApi ctx))].

(** A controller instance: its identity, its context, its own enumerable
    properties ([Object.keys(this)] order) and the members it inherits from
    its class (methods live there and are not own properties). *)
Record Controller := {
  self : objref;
  context : Context;
  props : list (string * value);
  proto : list (string * value)
}.

(** What is observable besides values. *)
Inductive event : Type :=
| BindStoreToView (who : objref)
| CreateLogger (name : value)
| Subscribe (who : objref)
| ListenBefore (who : objref)
| ListenBeforeUnload (who : objref)
| SetRecorder (store : value)
| ScrollTo (x y : Z).

(** State shared by every controller of the session: the global hydration
    variable [__INITIAL_STATE__] ([VUndefined] when it is not defined), the
    [context.preload] cache, the requests sent so far, and the calls made to
    the outside. *)
Record World := {
  INITIAL_STATE : value;
  context_preload : gmap string value;
  requests : list Request;
  trace : list event
}.

Definition set_INITIAL_STATE (v : value) (w : World) : World :=
  {| INITIAL_STATE := v; context_preload := context_preload w;
     requests := requests w; trace := trace w |}.

Definition set_preload (m : gmap string value) (w : World) : World :=
  {| INITIAL_STATE := INITIAL_STATE w; context_preload := m;
     requests := requests w; trace := trace w |}.

Definition send (r : Request) (w : World) : World :=
  {| INITIAL_STATE := INITIAL_STATE w; context_preload := context_preload w;
     requests := (requests w ++ [r])%list; trace := trace w |}.

Definition emit (e : event) (w : World) : World :=
  {| INITIAL_STATE := INITIAL_STATE w; context_preload := context_preload w;
     requests := requests w; trace := (trace w ++ [e])%list |}.

(** *** The monad of controller methods: state and exceptions *)

Definition M (A : Type) : Type :=
  Controller -> World -> completion A * Controller * World.

Definition ret {A} (a : A) : M A := fun c w => (Normal a, c, w).

Definition throw {A} (e : value) : M A := fun c w => (Throw e, c, w).

Definition bind {A B} (m : M A) (k : A -> M B) : M B :=
  fun c w =>
    match m c w with
    | (Normal a, c', w') => k a c' w'
    | (Throw e, c', w') => (Throw e, c', w')
    end.

#[global] Instance M_ret : MRet M := @ret.
#[global] Instance M_bind : MBind M := fun A B k m => bind m k.

Definition lift {A} (r : completion A) : M A := fun c w => (r, c, w).

Definition this : M Controller := fun c w => (Normal c, c, w).

Definition world : M World := fun c w => (Normal w, c, w).

Definition modify_world (f : World -> World) : M unit :=
  fun c w => (Normal (), c, f w).

(** [this.k]: an own property, or else an inherited member. *)
Definition member (c : Controller) (k : string) : value :=
  match lookup_prop k (props c) with
  | Some v => v
  | None => default VUndefined (lookup_prop k (proto c))
  end.

(** [this.k = v] *)
Definition set_member (k : string) (v : value) : M unit :=
  fun c w =>
    (Normal (),
     {| self := self c; context := context c;
        props := set_prop k v (props c); proto := proto c |}, w).

(** [f(...args)] with the controller as [this], awaited. *)
Definition call {UC : UserCode} (f : value) (args : list value) : M value :=
  fun c w =>
    match f with
    | VFun g => (invoke g (self c) args, c, w)
    | _ => (Throw (TypeError "not a function"), c, w)
    end.

(** [v.k] where [v] may be [undefined] or [null]. *)
Definition read (v : value) (k : string) : completion value :=
  match v with
  | VUndefined | VNull => Throw (TypeError "Cannot read properties of undefined")
  | _ => Normal (get v k)
  end.

(** The callee of a call [f(...)]: a [TypeError] when it is no function. *)
Definition callable (name : string) (v : value) : completion func :=
  match v with
  | VFun f => Normal f
  | _ => Throw (TypeError (name +:+ " is not a function"))
  end.

(** The callee of a call [v.k(...)]. *)
Definition method (v : value) (k : string) : completion func :=
  match read v k with
  | Normal f => callable k f
  | Throw e => Throw e
  end.

(** *** relite, as far as the controller uses it *)

(** [createStore(actions, initialState)]: a store with its actions, its
    state, and the methods the controller calls. *)
Definition createStore (actions initialState : value) : value :=
  VObj [("actions", actions); ("state", initialState);
        ("getState", VFun (Fn "getState"));
        ("subscribe", VFun (Fn "subscribe"))].

(** [store.getState()] *)
Definition getState (store : value) : completion value :=
  match method store "getState" with
  | Normal _ => Normal (get store "state")
  | Throw e => Throw e
  end.

(** *** Methods *)

Section Methods.
Context {U : Util} {SA : SharedActions} {UC : UserCode} {NW : Network}.

Fixpoint forEach {A} (f : A -> M unit) (l : list A) : M unit :=
  match l with
  | [] => ret ()
  | x :: l' => f x;; forEach f l'
  end.

(** [value.bind(thisArg)] *)
Definition bind_to (v : value) (thisArg : objref) : value :=
  match v with
  | VFun f => VFun (Bound f thisArg)
  | _ => v
  end.

(** [handlers[key] = value.bind(this)] on the object [this.handlers]. *)
Definition set_handler (key : string) (v : value) : M unit :=
  c ← this;
  match member c "handlers" with
  | VObj hs => set_member "handlers" (VObj (set_prop key (bind_to v (self c)) hs))
  | _ => throw (TypeError "Cannot set properties of handlers")
  end.

(** The callback of the loop of [combineHandlers]. *)
Definition combine_handler (source : list (string * value)) (key : string)
  : M unit :=
  let value := default VUndefined (lookup_prop key source) in
  if (indexOf key "handle" =? 0) && String.eqb (typeof value) "function"
  then set_handler key value
  else ret ().

(** [combineHandlers(source)]; [source] is given by its own enumerable
    properties. *)
Definition combineHandlers (source : list (string * value)) : M unit :=
  forEach (combine_handler source) (map fst source).

(** [Object.keys(this)] with the values: the own enumerable properties of
    the instance, [context] among them. *)
Definition own_enumerable (c : Controller) : list (string * value) :=
  set_prop "context" (context_object (context c)) (props c).

Definition prependBasename (ctx : Context) (pathname : string) : string :=
  if isAbsoluteUrl pathname then pathname
  else (locationOrigin ctx +:+ basename ctx) +:+ pathname.

Definition prependPublicPath (ctx : Context) (pathname : string) : string :=
  if isAbsoluteUrl pathname then pathname
  else (locationOrigin ctx +:+ publicPath ctx) +:+ pathname.

Definition prependRestfulBasename (ctx : Context) (url : string) : string :=
  if isAbsoluteUrl url then
    if isClient ctx && (indexOf url "http:" =? 0)
    then replace url "http:" ""
    else url
  else if indexOf url "/mock/" =? 0
  then (locationOrigin ctx +:+ basename ctx) +:+ url
  else restfulApi ctx +:+ url.

(** [prependRestfulBasename] on a value that need not be a string. The
    method is written for strings; on anything else the model lets its
    [indexOf] calls fail. *)
Definition prependRestfulBasename_value (ctx : Context) (v : value)
  : completion value :=
  match v with
  | VStr url => Normal (VStr (prependRestfulBasename ctx url))
  | _ => Throw (TypeError "url.indexOf is not a function")
  end.

(** The request [this.fetch(url, {json: false})] sends: the URL is
    completed, the default method, credentials and headers are filled in,
    and on the server the cookie is attached. With [json: false] and no
    [timeout] the promise returned is the one of the platform's [fetch]. *)
Definition fetch_request (ctx : Context) (url : string) : Request :=
  {| req_url := prependRestfulBasename ctx url;
     req_method := "GET";
     req_credentials := "include";
     req_headers :=
       ([("Content-Type", "application/json");
         ("Access-Control-Allow-Origin", "*")]
        ++ (if isServer ctx then [("Cookie", cookie ctx)] else []))%list |}.

(** The members a plain object inherits from [Object.prototype], all of
    them truthy: functions, and the prototype itself under [__proto__]. *)
Definition Object_prototype : list string :=
  ["constructor"; "__defineGetter__"; "__defineSetter__"; "hasOwnProperty";
   "__lookupGetter__"; "__lookupSetter__"; "isPrototypeOf";
   "propertyIsEnumerable"; "toString"; "valueOf"; "__proto__";
   "toLocaleString"].

(** [context.preload[name]]: the cache is a plain object, so that a name it
    has no entry for can still be found, in its prototype. *)
Definition cache_get (cache : gmap string value) (name : string) : value :=
  match cache !! name with
  | Some v => v
  | None =>
      if bool_decide (name ∈ Object_prototype)
      then (if String.eqb name "__proto__" then VRef 0%nat else VFun (Fn name))
      else VUndefined
  end.

(** [keys.map(name => ...)], one name: nothing when the cache holds a truthy
    entry, else the completed URL to fetch (a declared URL that is not a
    string fails like in [prependRestfulBasename_value]). *)
Definition preload_url (ctx : Context) (spec : value) (w : World) (name : string)
  : completion (option string) :=
  if truthy (cache_get (context_preload w) name) then Normal None
  else
    match get spec name with
    | VStr url =>
        Normal (Some (if negb (isAbsoluteUrl url)
                      then prependPublicPath ctx url else url))
    | _ => Throw (TypeError "url.indexOf is not a function")
    end.

(** The synchronous part of [fetchPreload]: the requests are sent one name
    after the other; each entry records the name, the URL the callback closes
    over and the number of its request. A throw stops the loop, the requests
    already sent stay in flight. *)
Fixpoint issue (ctx : Context) (spec : value) (names : list string) (w : World)
  : list (string * string * nat) * option value * World :=
  match names with
  | [] => ([], None, w)
  | name :: rest =>
      match preload_url ctx spec w name with
      | Throw e => ([], Some e, w)
      | Normal None => issue ctx spec rest w
      | Normal (Some url) =>
          let n := length (requests w) in
          let '(entries, thrown, w') :=
            issue ctx spec rest (send (fetch_request ctx url) w) in
          ((name, url, n) :: entries, thrown, w')
      end
  end.

(** The [then] callback of one request: CSS loses its carriage returns, and
    the content is cached under the name. *)
Definition cache_response (ctx : Context) (entry : string * string * nat) (w : World)
  : option value * World :=
  let '(name, url, n) := entry in
  match respond n (fetch_request ctx url) with
  | Normal content =>
      let content :=
        if negb (indexOf url ".css" =? -1) then replace_cr_runs content
        else content in
      (None, set_preload (<[name := VStr content]> (context_preload w)) w)
  | Throw err => (Some err, w)
  end.

(** Every request settles, whatever happens to the others; the first
    rejection is the one [Promise.all] reports. *)
Fixpoint settle (ctx : Context) (entries : list (string * string * nat)) (w : World)
  : option value * World :=
  match entries with
  | [] => (None, w)
  | entry :: rest =>
      let '(rejected, w1) := cache_response ctx entry w in
      let '(rejected', w2) := settle ctx rest w1 in
      (match rejected with Some err => Some err | None => rejected' end, w2)
  end.

(** A JavaScript array of the given elements. *)
Definition array (l : list value) : value :=
  VObj (imap (fun i v => (pretty i, v)) l).

(** [fetchPreload(preload)]. The outer completion is the call itself (a
    synchronous throw), the inner one the promise it returns ([undefined]
    when there is nothing to do). *)
Definition fetchPreload (arg : value) : M (completion value) :=
  fun c w =>
    let spec := or_else arg (member c "preload") in
    match Object_keys spec with
    | Throw e => (Throw e, c, w)
    | Normal keys =>
        if negb (truthy spec) || (length keys =? 0)%nat
        then (Normal (Normal VUndefined), c, w)
        else
          let '(entries, thrown, w1) := issue (context c) spec keys w in
          let '(rejected, w2) := settle (context c) entries w1 in
          match thrown, rejected with
          | Some e, _ => (Throw e, c, w2)
          | None, Some e => (Normal (Throw e), c, w2)
          | None, None =>
              (Normal (Normal (array (map (fun _ => VUndefined) keys))), c, w2)
          end
    end.

(** [render()]: the element tree, as data. *)
Definition render : M value :=
  c ← this;
  w ← world;
  let store := member c "store" in
  let location := member c "location" in
  state ← lift (getState store);
  actions ← lift (read store "actions");
  key ← lift (read location "raw");
  let componentContext :=
    VObj [("location", location); ("history", member c "history");
          ("state", state); ("actions", actions);
          ("preload", VObj (map_to_list (context_preload w)));
          ("handleInputChange", member c "handleInputChange")] in
  ret (VObj [("type", VStr "BaseView"); ("context", componentContext);
             ("key", key);
             ("children",
              array [VObj [("type", member c "ViewWrapper"); ("state", state);
                           ("handlers", member c "handlers")]])]).

(** [hook.bind(this)] for a truthy [hook]: a function is bound; anything
    else has no [bind] of its own, unless it is an object that brings one,
    which is then called as user code. *)
Definition bind_hook (hook : value) : M value :=
  c ← this;
  match hook with
  | VFun f => ret (VFun (Bound f (self c)))
  | _ => bind ← lift (method hook "bind"); call (VFun bind) [VRef (self c)]
  end.

(** [history.k(hook.bind(this))]: the member is read, the argument is
    evaluated, and the member is called, which takes a function. *)
Definition listen (history : value) (k : string) (hook : value) : M unit :=
  listener ← lift (read history k);
  bind_hook hook;;
  lift (callable k listener);;
  ret ().

(** The client side of [bindStoreToView]: logger, store subscription, the
    two optional history listeners, recorder and scroll. *)
Definition bind_on_client : M unit :=
  c ← this;
  let store := member c "store" in
  let history := member c "history" in
  name ← (if truthy (member c "name") then ret (member c "name")
          else lift (read (member c "location") "pattern"));
  modify_world (emit (CreateLogger name));;
  set_member "logger" (VFun (Fn "logger"));;
  lift (method store "subscribe");;
  modify_world (emit (Subscribe (self c)));;
  leave ← (if truthy (member c "pageWillLeave") then
             listen history "listenBefore" (member c "pageWillLeave");;
             modify_world (emit (ListenBefore (self c)));;
             ret [VFun (Fn "unlisten")]
           else ret []);
  unload ← (if truthy (member c "windowWillUnload") then
              listen history "listenBeforeUnload" (member c "windowWillUnload");;
              modify_world (emit (ListenBeforeUnload (self c)));;
              ret [VFun (Fn "unlisten")]
            else ret []);
  set_member "unsubscribeList"
    (array (VFun (Fn "unsubscribe") :: leave ++ unload)%list);;
  modify_world (emit (SetRecorder store));;
  modify_world (emit (ScrollTo 0 0)).

(** [bindStoreToView()] *)
Definition bindStoreToView : M value :=
  c ← this;
  modify_world (emit (BindStoreToView (self c)));;
  (if isClient (context c) then bind_on_client else ret ());;
  set_member "ViewWrapper" (VFun (Fn "ViewWrapper"));;
  render.

(** [typeof __INITIAL_STATE__ !== "undefined"]: the snapshot is read and the
    global is cleared. *)
Definition take_snapshot : M value :=
  fun c w =>
    if negb (String.eqb (typeof (INITIAL_STATE w)) "undefined")
    then (Normal (INITIAL_STATE w), c, set_INITIAL_STATE VUndefined w)
    else (Normal VUndefined, c, w).

(** [{...initialState, ...globalInitialState, location, isClient, ...}] *)
Definition merge_initial_state (c : Controller) (globalInitialState : value)
  : value :=
  let ctx := context c in
  VObj (assign
          (assign (assign [] (own_props (member c "initialState")))
                  (own_props globalInitialState))
          [("location", member c "location");
           ("isClient", VBool (isClient ctx));
           ("isServer", VBool (isServer ctx));
           ("publicPath", VStr (publicPath ctx));
           ("restfulApi", VStr (restfulApi ctx))]).

(** The [reduce] that completes every URL of [finalInitialState.api]. *)
Fixpoint complete_urls (ctx : Context) (api : value) (keys : list string)
    (result : list (string * value)) : completion (list (string * value)) :=
  match keys with
  | [] => Normal result
  | key :: rest =>
      match prependRestfulBasename_value ctx (get api key) with
      | Normal url => complete_urls ctx api rest (set_prop key url result)
      | Throw e => Throw e
      end
  end.

Definition complete_api (ctx : Context) (finalInitialState : value)
  : completion value :=
  match read finalInitialState "api" with
  | Throw e => Throw e
  | Normal api =>
      if truthy api then
        match Object_keys api with
        | Throw e => Throw e
        | Normal keys =>
            match complete_urls ctx api keys [], finalInitialState with
            | Throw e, _ => Throw e
            | Normal result, VObj ps => Normal (VObj (set_prop "api" (VObj result) ps))
            | Normal _, _ => Throw (TypeError "Cannot create property api")
            end
        end
      else Normal finalInitialState
  end.

(** [Promise.all(promiseList)], awaited. *)
Fixpoint all_settled (promiseList : list (completion value)) : completion unit :=
  match promiseList with
  | [] => Normal ()
  | Normal _ :: rest => all_settled rest
  | Throw e :: _ => Throw e
  end.

(** The part of [init()] a hydrated page skips: the [shouldComponentCreate]
    check, then [componentWillCreate] and the preload, then the binding. *)
Definition create : M value :=
  c ← this;
  proceed ← (if truthy (member c "shouldComponentCreate") then
               result ← call (member c "shouldComponentCreate") [];
               ret (match result with VBool false => false | _ => true end)
             else ret true);
  if proceed : bool then
    willCreate ← (if truthy (member c "componentWillCreate") then
                    match member c "componentWillCreate" with
                    | VFun f => ret [invoke f (self c) []]
                    | _ => throw (TypeError "componentWillCreate is not a function")
                    end
                  else ret []);
    preloaded ← (if truthy (member c "preload") then
                   p ← fetchPreload VUndefined; ret [p]
                 else ret []);
    lift (all_settled (willCreate ++ preloaded)%list);;
    bindStoreToView
  else ret VNull.

(** What [init()] does between reading the snapshot and choosing its way
    on: the initial state, the store and the handlers. *)
Definition prepare (globalInitialState : value) : M unit :=
  c ← this;
  let actions := member c "actions" in
  let finalInitialState := merge_initial_state c globalInitialState in
  finalInitialState ←
    (if truthy (member c "getInitialState")
     then call (member c "getInitialState") [finalInitialState]
     else ret finalInitialState);
  finalInitialState ← lift (complete_api (context c) finalInitialState);
  let finalActions := VObj (assign (assign [] shareActions) (own_props actions)) in
  set_member "store" (createStore finalActions finalInitialState);;
  c ← this;
  combineHandlers (own_enumerable c).

(** [init()] *)
Definition init : M value :=
  globalInitialState ← take_snapshot;
  prepare globalInitialState;;
  if truthy globalInitialState then bindStoreToView else create.

End Methods.

(** [new Controller(location, context)] for a class that declares [fields]
    (instance properties) and [methods] (on the prototype). The base class
    contributes its own instance properties first, the constructor body
    follows, the fields of the subclass come last. *)
Definition base_fields (id : objref) : list (string * value) :=
  [("View", VFun (Fn "View"));
   ("prependRestfulBasename", VFun (Arrow "prependRestfulBasename" id));
   ("fetch", VFun (Arrow "fetch" id));
   ("fetchPreload", VFun (Arrow "fetchPreload" id));
   ("subscriber", VFun (Arrow "subscriber" id));
   ("handleInputChange", VFun (Arrow "handleInputChange" id))].

Definition base_methods : list (string * value) :=
  map (fun name => (name, VFun (Fn name)))
      ["combineHandlers"; "prependBasename"; "prependPublicPath"; "redirect";
       "init"; "bindStoreToView"; "destroy"; "render"].

Definition construct (id : objref) (location : value) (ctx : Context)
    (fields methods : list (string * value)) : Controller :=
  {| self := id;
     context := ctx;
     props :=
       assign (base_fields id
               ++ [("location", location); ("context", context_object ctx);
                   ("handlers", VObj [])])%list
              fields;
     proto := assign base_methods methods |}.

End Controller.

(* ===================================================================== *)
(** ** bin/www: the listeners of the HTTP server                          *)
(* ===================================================================== *)

Module Listen.
Import JsString JsNumber Js Bootstrap.

(** What the listeners print. *)
Inductive output : Type :=
| ErrorLine (line : string)   (* console.error *)
| LogLine (line : string)     (* console.log *)
| DebugLine (line : string).  (* debug('app:server') *)

(** How a listener ends: it returns, it throws, or [process.exit] ends the
    process with a status. *)
Inductive ending : Type :=
| Returned
| Thrown (e : value)
| Exited (status : Z).

(** [v === s] for a string literal [s]. *)
Definition is_string (v : value) (s : string) : bool :=
  match v with
  | VStr t => String.eqb t s
  | _ => false
  end.

(** [normalizePort(process.env.PORT || pkg.config.port || 3000)] *)
Definition resolve_port (env_PORT config_port : value) : value :=
  normalizePort (or_else env_PORT (or_else config_port (VNum 3000))).

(** [onError(error)], for the [port] the script resolved. *)
Definition onError (port : value) (error : value) : list output * ending :=
  match error with
  | VUndefined | VNull =>
      ([], Thrown (TypeError "Cannot read properties of undefined"))
  | _ =>
      if negb (is_string (get error "syscall") "listen") then ([], Thrown error)
      else
        let bind :=
          if String.eqb (typeof port) "string"
          then "Pipe " +:+ ToString port
          else "Port " +:+ ToString port in
        if is_string (get error "code") "EACCES" then
          ([ErrorLine (bind +:+ " requires elevated privileges")], Exited 1)
        else if is_string (get error "code") "EADDRINUSE" then
          ([ErrorLine (bind +:+ " is already in use")], Exited 1)
        else ([], Thrown error)
  end.

(** [onListening()], for the address [server.address()] gives. *)
Definition onListening (addr : value) : list output * ending :=
  match addr with
  | VUndefined | VNull =>
      ([], Thrown (TypeError "Cannot read properties of null"))
  | _ =>
      let bind :=
        if String.eqb (typeof addr) "string"
        then "pipe " +:+ ToString addr
        else "port " +:+ ToString (get addr "port") in
      ([DebugLine ("Listening on " +:+ bind); LogLine ("Listening on " +:+ bind)],
       Returned)
  end.

(** The listen errors [onError] turns into a message and an exit. *)
Definition is_listen_failure (error : value) : bool :=
  is_string (get error "syscall") "listen"
  && (is_string (get error "code") "EACCES"
      || is_string (get error "code") "EADDRINUSE").

End Listen.

(* ===================================================================== *)
(** ** The Controller: [fetch]                                            *)
(* ===================================================================== *)

Module Fetch.
Import JsString JsNumber Js Controller.

(** What the platform's [fetch] resolves to, as far as the controller reads
    it; [json] is what [response.json()] settles to. *)
Record Response := {
  ok : bool;
  status : Z;
  statusText : string;
  json : completion value
}.

(** The platform: how the [n]-th request of the session settles, given its
    URL and options; and, for a request raced against a timer of [ms]
    milliseconds, whether the timer fires first. *)
Class Platform := {
  platform_fetch : nat -> string -> value -> completion Response;
  timer_first : nat -> number -> bool
}.

(** What [fetch] resolves to: the response itself, or its parsed body. *)
Inductive fetched : Type :=
| Raw (response : Response)
| Parsed (body : value).

(** [new Error(message)] *)
Definition Error (message : string) : value :=
  VObj [("name", VStr "Error"); ("message", VStr message)].

Definition default_headers : list (string * value) :=
  [("Content-Type", VStr "application/json");
   ("Access-Control-Allow-Origin", VStr "*")].

(** [finalOptions], the [Cookie] of the server included. *)
Definition final_options (ctx : Context) (options : value) : completion value :=
  match read options "headers" with
  | Throw e => Throw e
  | Normal callers =>
      let headers := assign default_headers (own_props callers) in
      let headers :=
        if isServer ctx then set_prop "Cookie" (VStr (cookie ctx)) headers
        else headers in
      Normal (VObj (set_prop "headers" (VObj headers)
                      (assign [("method", VStr "GET");
                               ("credentials", VStr "include")]
                              (own_props options))))
  end.

(** The entry of the request log for a call of the platform's [fetch]. *)
Definition request_of (url : string) (finalOptions : value) : Request :=
  {| req_url := url;
     req_method := ToString (get finalOptions "method");
     req_credentials := ToString (get finalOptions "credentials");
     req_headers :=
       map (fun kv => (kv.1, ToString kv.2))
           (own_props (get finalOptions "headers")) |}.

Section Fetch.
Context {U : Util} {P : Platform}.

(** The [then] of [fetch] for [options.json !== false]. *)
Definition check_status (response : Response) : completion fetched :=
  if negb (ok response) || negb (status response =? 200)
  then Throw (Error (statusText response))
  else match json response with
       | Normal body => Normal (Parsed body)
       | Throw e => Throw e
       end.

(** The default of the parameter [options = {}]: it stands in for
    [undefined] only. *)
Definition default_options (options : value) : value :=
  match options with
  | VUndefined => VObj []
  | _ => options
  end.

(** [fetch(url, options)] for a URL that is a string (what
    [prependRestfulBasename] makes of anything else hangs on [./util], which
    is not at hand). The outer completion is the call itself, the inner one
    the promise it returns: [Promise.race] of the request and, when
    [options.timeout] is a number, of the timer. *)
Definition fetch (url : string) (options : value) : M (completion fetched) :=
  fun c w =>
    let options := default_options options in
    let finalUrl := prependRestfulBasename (context c) url in
    match final_options (context c) options with
    | Throw e => (Throw e, c, w)
    | Normal finalOptions =>
        let n := length (requests w) in
        let fetchData :=
          match platform_fetch n finalUrl finalOptions with
          | Throw e => Throw e
          | Normal response =>
              match get options "json" with
              | VBool false => Normal (Raw response)
              | _ => check_status response
              end
          end in
        let raced :=
          match get options "timeout" with
          | VNum ms =>
              if timer_first n ms
              then Throw (Error (("Timeout Error:" +:+ ToString (VNum ms)) +:+ "ms"))
              else fetchData
          | _ => fetchData
          end in
        (Normal raced, c, send (request_of finalUrl finalOptions) w)
    end.

End Fetch.

End Fetch.

(* ===================================================================== *)
(** ** The Controller: [destroy]                                          *)
(* ===================================================================== *)

Module Lifecycle.
Import JsString JsNumber Js Controller.

(** The functions [store.subscribe], [history.listenBefore] and
    [history.listenBeforeUnload] hand back: what a call of one of them,
    without arguments, does. *)
Class Subscriptions := { cancel : func -> completion value }.

(** The elements of an array, that is of an object whose keys are the
    indices [0], [1], ... in order; nothing else has a [forEach]. *)
Definition elements (v : value) : option (list value) :=
  match v with
  | VObj ps =>
      if bool_decide (map fst ps
                      = map (fun i : nat => pretty i) (seq 0%nat (length ps)))
      then Some (map snd ps)
      else None
  | _ => None
  end.

(** [list.forEach(unsubscribe => unsubscribe())]: the functions called, in
    order, and what stopped the loop, if anything did. *)
Fixpoint cancel_each {SUB : Subscriptions} (unsubscribeList : list value)
  : list func * option value :=
  match unsubscribeList with
  | [] => ([], None)
  | VFun f :: rest =>
      match cancel f with
      | Normal _ =>
          let '(calls, thrown) := cancel_each rest in (f :: calls, thrown)
      | Throw e => ([f], Some e)
      end
  | _ :: _ => ([], Some (TypeError "unsubscribe is not a function"))
  end.

(** [destroy()]: the functions it called, how it completes, and the
    instance it leaves. *)
Definition destroy {SUB : Subscriptions} (c : Controller)
  : list func * completion unit * Controller :=
  let unsubscribeList := member c "unsubscribeList" in
  if truthy unsubscribeList then
    match elements unsubscribeList with
    | None =>
        ([], Throw (TypeError "this.unsubscribeList.forEach is not a function"), c)
    | Some unsubscribes =>
        match cancel_each unsubscribes with
        | (calls, Some e) => (calls, Throw e, c)
        | (calls, None) =>
            (calls, Normal (),
             {| self := self c; context := context c;
                props := set_prop "unsubscribeList" VNull (props c);
                proto := proto c |})
        end
    end
  else ([], Normal (), c).

(** The calls of [bindStoreToView] that hand back a function to cancel
    them with. *)
Definition is_subscription (e : event) : bool :=
  match e with
  | Subscribe _ | ListenBefore _ | ListenBeforeUnload _ => true
  | _ => false
  end.

Definition subscriptions (t : list event) : list event :=
  List.filter is_subscription t.

End Lifecycle.

(* ===================================================================== *)
(** ** Vocabulary of the properties                                       *)
(* ===================================================================== *)

Module Spec.
Import JsString JsNumber Js Controller.

(** The string starts with a decimal digit. *)
Definition starts_with_digit (s : string) : bool :=
  match s with
  | String c _ => bool_decide (is_Some (digit_value c))
  | EmptyString => false
  end.

(** What is left of a string once its leading white space and one sign are
    dropped. *)
Definition after_sign (s : string) : string :=
  match trimStart s with
  | String "-" r | String "+" r => r
  | r => r
  end.

(** [context.preload[name]] is truthy. *)
Definition cached (cache : gmap string value) (name : string) : bool :=
  truthy (cache_get cache name).

(** The world after the requests [rs] were sent. *)
Definition sent (rs : list Request) (w : World) : World :=
  {| INITIAL_STATE := INITIAL_STATE w; context_preload := context_preload w;
     requests := (requests w ++ rs)%list; trace := trace w |}.

(** What [fetchPreload] caches for the text a URL came back with. *)
Definition processed (url text : string) : string :=
  if occurs ".css" url then without_cr text else text.

(** Numbering of the entries from the request number [n] on. *)
Definition numbered (n : nat) (l : list (string * string))
  : list (string * string * nat) :=
  imap (fun i e => (e, (n + i)%nat)) l.

Section WithUtil.
Context {U : Util}.

(** The URL [fetchPreload] fetches for the declared URL [u]. *)
Definition completed_url (ctx : Context) (u : string) : string :=
  if negb (isAbsoluteUrl u) then prependPublicPath ctx u else u.

(** The names a call has to fetch, each with its completed URL: the names of
    the specification, in order, that the cache holds no truthy entry for. *)
Definition pending (ctx : Context) (spec : value) (cache : gmap string value)
    (keys : list string) : list (string * string) :=
  omap (fun name =>
          if cached cache name then None
          else match get spec name with
               | VStr u => Some (name, completed_url ctx u)
               | _ => None
               end) keys.

End WithUtil.

(** [this.k = v] on the instance. *)
Definition with_prop (k : string) (v : value) (c : Controller) : Controller :=
  {| self := self c; context := context c;
     props := set_prop k v (props c); proto := proto c |}.

(** The method [m] keeps [I], however it completes. *)
Definition preserves {A} (I : Controller -> World -> Prop) (m : M A) : Prop :=
  forall c w, I c w -> I (m c w).1.2 (m c w).2.

(** [I] does not depend on the properties [keys] of the instance. *)
Definition ignores_props (keys : list string) (I : Controller -> World -> Prop)
  : Prop :=
  forall c w k v, k ∈ keys -> I c w -> I (with_prop k v c) w.

(** [I] depends on the session through [__INITIAL_STATE__] only. *)
Definition ignores_session (I : Controller -> World -> Prop) : Prop :=
  forall c w w', INITIAL_STATE w' = INITIAL_STATE w -> I c w -> I c w'.

(** The fields [init()] computes itself; they win over the snapshot. *)
Definition computed_fields : list string :=
  ["location"; "isClient"; "isServer"; "publicPath"; "restfulApi"].

(** The test of [combineHandlers] on one key of [source]. *)
Definition is_handler (source : list (string * value)) (key : string) : bool :=
  (indexOf key "handle" =? 0)
  && String.eqb (typeof (default VUndefined (lookup_prop key source))) "function".

(** One round of the loop of [combineHandlers], on the handlers object. *)
Definition add_handler (source : list (string * value)) (thisArg : objref)
    (hs : list (string * value)) (key : string) : list (string * value) :=
  if is_handler source key
  then set_prop key (bind_to (default VUndefined (lookup_prop key source)) thisArg) hs
  else hs.

(** Two instances that differ in their [handlers] at most. *)
Definition same_but_handlers (c c' : Controller) : Prop :=
  self c' = self c /\ context c' = context c /\ proto c' = proto c
  /\ forall k, k <> "handlers" -> lookup_prop k (props c') = lookup_prop k (props c).

End Spec.

(** Instances of the collaborators, to run the model on concrete sessions. *)
Module Sample.
Import JsString JsNumber Js Controller.

(** A [./util] for which a URL is absolute when it starts with [http] or
    with [//]. *)
Definition util : Util :=
  {| isAbsoluteUrl url := String.prefix "http" url || String.prefix "//" url |}.

Definition no_shared_actions : SharedActions := {| shareActions := [] |}.

Definition client : Context :=
  {| isClient := true; isServer := false; cookie := "";
     locationOrigin := "https://example.com"; basename := "/app";
     publicPath := "/static"; restfulApi := "https://api.example.com" |}.

Definition server : Context :=
  {| isClient := false; isServer := true; cookie := "sid=1";
     locationOrigin := "http://localhost:3000"; basename := "/app";
     publicPath := "/static"; restfulApi := "http://api.internal" |}.

(** User code that settles every call with [undefined], except that
    [shouldComponentCreate] answers [false]. *)
Definition refusing : UserCode :=
  {| invoke f _ _ :=
       match f with
       | Fn "shouldComponentCreate" => Normal (VBool false)
       | _ => Normal VUndefined
       end |}.

(** User code that settles every call with [undefined]. *)
Definition quiet : UserCode := {| invoke _ _ _ := Normal VUndefined |}.

(** A network that answers every request with an empty body. *)
Definition empty_bodies : Network := {| respond _ _ := Normal "" |}.

(** A network on which every request is rejected. *)
Definition unreachable : Network :=
  {| respond _ _ := Throw (VStr "ECONNREFUSED") |}.

(** A network that answers every request with a two-line text whose lines
    end in CR LF. *)
Definition crlf_text : string :=
  "a{}" +:+ String CR (String (ascii_of_nat 10)
    ("b{}" +:+ String CR (String (ascii_of_nat 10) ""))).

Definition crlf_bodies : Network := {| respond _ _ := Normal crlf_text |}.

(** A session in which nothing happened yet and no snapshot is embedded. *)
Definition fresh : World :=
  {| INITIAL_STATE := VUndefined; context_preload := ∅;
     requests := []; trace := [] |}.

Definition home : value :=
  VObj [("raw", VStr "/home"); ("pattern", VStr "/home")].

(** A page that preloads one style sheet and one text file. *)
Definition preloading (ctx : Context) : Controller :=
  construct 1%nat home ctx
    [("preload", VObj [("main", VStr "/css/main.css");
                       ("motd", VStr "/text/motd.txt")])]
    [].

(** A page whose class declares the handler [handleClick] as an instance
    property (a function expression). *)
Definition with_own_handler (ctx : Context) : Controller :=
  construct 1%nat home ctx
    [("initialState", VObj [("count", VNum 0)]);
     ("handleClick", VFun (Fn "handleClick"))]
    [].

(** A page whose class declares [handleClick] as a method. *)
Definition with_method_handler (ctx : Context) : Controller :=
  construct 1%nat home ctx
    [("initialState", VObj [("count", VNum 0)])]
    [("handleClick", VFun (Fn "handleClick"))].

(** A page whose class declares the method [shouldComponentCreate]. *)
Definition guarded (ctx : Context) : Controller :=
  construct 1%nat home ctx
    [("initialState", VObj [("count", VNum 0)])]
    [("shouldComponentCreate", VFun (Fn "shouldComponentCreate"))].

(** A session that starts on a server-rendered page. *)
Definition hydrating : World :=
  {| INITIAL_STATE := VObj [("count", VNum 5)]; context_preload := ∅;
     requests := []; trace := [] |}.

End Sample.

(** Platforms to run [fetch] on. *)
Module SamplePlatform.
Import JsString JsNumber Js Controller Fetch.

(** Every request is answered [201 Created] with an empty object as its
    body; no timer fires first. *)
Definition created : Platform :=
  {| platform_fetch _ _ _ :=
       Normal {| ok := true; status := 201; statusText := "Created";
                 json := Normal (VObj []) |};
     timer_first _ _ := false |}.

(** Every request is answered [200 OK], but too late for any timer. *)
Definition slow : Platform :=
  {| platform_fetch _ _ _ :=
       Normal {| ok := true; status := 200; statusText := "OK";
                 json := Normal (VObj [("items", VNum 3)]) |};
     timer_first _ _ := true |}.

(** A network that rejects the first request of the session and answers
    every other one with [hello]. *)
Definition flaky : Network :=
  {| respond n _ :=
       match n with
       | O => Throw (VStr "ECONNRESET")
       | _ => Normal "hello"
       end |}.

(** Subscriptions whose cancelling returns. *)
Definition returning : Lifecycle.Subscriptions :=
  {| Lifecycle.cancel _ := Normal VUndefined |}.

(** A page, with its store, that listens to the history. *)
Definition leaving (ctx : Context) : Controller :=
  construct 1%nat Sample.home ctx
    [("store", createStore (VObj []) (VObj [("count", VNum 0)]));
     ("history", VObj [("listenBefore", VFun (Fn "listenBefore"));
                       ("listenBeforeUnload", VFun (Fn "listenBeforeUnload"))])]
    [("pageWillLeave", VFun (Fn "pageWillLeave"))].

(** A call with options and headers of the caller's. *)
Definition posting : value :=
  VObj [("method", VStr "POST");
        ("headers", VObj [("Content-Type", VStr "text/plain");
                          ("Cookie", VStr "forged=1")]);
        ("timeout", VNum 3000)].

End SamplePlatform.

(* ===================================================================== *)
(** * Properties                                                          *)
(* ===================================================================== *)

(** ** Facts about the string primitives *)

Module JsStringFacts.
Import JsString.

Lemma append_cons c s t : String c s +:+ t = String c (s +:+ t).
Proof. reflexivity. Qed.

Lemma append_empty_l t : "" +:+ t = t.
Proof. reflexivity. Qed.

Lemma append_assoc a b c : (a +:+ b) +:+ c = a +:+ (b +:+ c).
Proof. induction a; rewrite ?append_empty_l, ?append_cons; congruence. Qed.

Lemma prefix_app pat r : String.prefix pat (pat +:+ r) = true.
Proof.
  induction pat as [|c pat IH]; rewrite ?append_empty_l, ?append_cons; simpl.
  - by destruct r.
  - destruct (ascii_dec c c); [done|congruence].
Qed.

Lemma prefix_inv pat s :
  String.prefix pat s = true -> s = pat +:+ slice (String.length pat) s.
Proof.
  revert s. induction pat as [|c pat IH]; intros [|d s]; simpl; try done.
  destruct (ascii_dec c d) as [->|]; [|done].
  intros Hp. rewrite append_cons. f_equal. by apply IH.
Qed.

Lemma slice_app pat r : slice (String.length pat) (pat +:+ r) = r.
Proof. induction pat; rewrite ?append_empty_l, ?append_cons; simpl; auto. Qed.

Lemma indexOf_from_range pat s i :
  0 <= i -> indexOf_from pat s i = -1 \/ i <= indexOf_from pat s i.
Proof.
  revert i. induction s as [|c s IH]; intros i Hi; cbn [indexOf_from].
  - destruct (String.prefix pat ""); lia.
  - destruct (String.prefix pat (String c s)); [lia|].
    destruct (IH (i + 1)); lia.
Qed.

(** [s.indexOf(pat) === 0] says that [s] starts with [pat]. *)
Lemma indexOf_zero s pat :
  (indexOf s pat =? 0) = String.prefix pat s.
Proof.
  unfold indexOf. destruct s as [|c s]; cbn [indexOf_from].
  - by destruct (String.prefix pat "").
  - destruct (String.prefix pat (String c s)); [done|].
    destruct (indexOf_from_range pat s (0 + 1)); lia.
Qed.

(** [s.indexOf(pat) !== -1] says that [pat] occurs in [s]. *)
Lemma indexOf_from_occurs pat s i :
  0 <= i -> negb (indexOf_from pat s i =? -1) = occurs pat s.
Proof.
  revert i. induction s as [|c s IH]; intros i Hi; cbn [indexOf_from occurs].
  - destruct (String.prefix pat ""); simpl; [|done].
    apply negb_true_iff, Z.eqb_neq. lia.
  - destruct (String.prefix pat (String c s)); simpl.
    + apply negb_true_iff, Z.eqb_neq. lia.
    + apply IH. lia.
Qed.

Lemma indexOf_occurs s pat : negb (indexOf s pat =? -1) = occurs pat s.
Proof. by apply indexOf_from_occurs. Qed.

(** Replacing a pattern the string starts with strips it from the front. *)
Lemma replace_leading pat rep r : replace (pat +:+ r) pat rep = rep +:+ r.
Proof.
  destruct pat as [|c pat]; rewrite ?append_empty_l, ?append_cons; simpl.
  - by destruct r.
  - destruct (ascii_dec c c); [|congruence].
    by rewrite prefix_app, slice_app.
Qed.

Lemma skip_cr_run_without_cr s : without_cr (skip_cr_run s) = without_cr s.
Proof.
  induction s as [|c s IH]; simpl; [done|].
  destruct (is_cr c) eqn:E; simpl; [done|by rewrite E].
Qed.

(** The regular expression replacement removes exactly the carriage
    returns. *)
Lemma replace_cr_runs_without_cr s : replace_cr_runs s = without_cr s.
Proof.
  funelim (replace_cr_runs s); simp replace_cr_runs; simpl.
  - done.
  - rewrite Heq. simpl. rewrite H. apply skip_cr_run_without_cr.
  - rewrite Heq. simpl. by rewrite H.
Qed.

Lemma without_cr_no_cr s c : c ∈ list_ascii_of_string (without_cr s) -> c <> CR.
Proof.
  induction s as [|d s IH]; simpl.
  - by intros ?%elem_of_nil.
  - destruct (is_cr d) eqn:E; simpl; [done|].
    intros [->|?]%elem_of_cons; [|by auto].
    unfold is_cr in E. by apply bool_decide_eq_false in E.
Qed.

End JsStringFacts.

(** ** bin/www *)

Module BootstrapFacts.
Import JsString JsNumber Js Bootstrap Spec JsStringFacts.

Lemma read_digits_no_digit acc s :
  starts_with_digit s = false -> read_digits acc s = acc.
Proof.
  destruct s as [|c s]; simpl; [done|].
  destruct (digit_value c); [|done].
  intros ?%bool_decide_eq_false. by destruct H; eauto.
Qed.

Lemma leading_integer_after_sign s :
  starts_with_digit (after_sign s) = false -> leading_integer s = None.
Proof.
  unfold after_sign, leading_integer.
  destruct (trimStart s) as [|c r]; [done|].
  intros Hd.
  assert (read_digits None
            (match c with "-"%char | "+"%char => r | _ => String c r end) = None)
    as Hr.
  { apply read_digits_no_digit.
    revert Hd. clear. destruct c as [[] [] [] [] [] [] [] []]; simpl; done. }
  revert Hr. clear. destruct c as [[] [] [] [] [] [] [] []]; simpl; try done.
  by intros ->.
Qed.

Lemma digit_value_pretty d :
  (d < 10)%N -> digit_value (pretty_N_char d) = Some (Z.of_N d).
Proof.
  intros Hd.
  assert (d = 0 ∨ d = 1 ∨ d = 2 ∨ d = 3 ∨ d = 4 ∨ d = 5 ∨ d = 6 ∨ d = 7
          ∨ d = 8 ∨ d = 9)%N as Hcases by lia.
  repeat (destruct Hcases as [->|Hcases]; [done|]). by subst.
Qed.

(** Reading the decimal expansion [pretty] prints: the digits of [x] shift
    what was read so far and add [x]; the expansion starts with a digit. *)
Lemma read_digits_pretty_go x :
  (0 < x)%N ->
  forall s, exists p,
    starts_with_digit (pretty_N_go x s) = true /\
    forall acc, read_digits acc (pretty_N_go x s)
                = read_digits (Some (default 0 acc * p + Z.of_N x)) s.
Proof.
  induction (N.lt_wf_0 x) as [x _ IH]; intros Hx s.
  rewrite pretty_N_go_step by done.
  assert (x `mod` 10 < 10)%N as Hd by (apply N.mod_lt; lia).
  pose proof (N.div_mod x 10 ltac:(lia)) as Hx10.
  destruct (decide (x `div` 10 = 0)%N) as [Hz|Hnz].
  - rewrite Hz, pretty_N_go_0. exists 10. split.
    + simpl. rewrite digit_value_pretty by done. by apply bool_decide_eq_true.
    + intros acc. simpl. rewrite digit_value_pretty by done.
      f_equal. f_equal. lia.
  - destruct (IH (x `div` 10)%N) with (s := String (pretty_N_char (x `mod` 10)) s)
      as (p & Hstart & Hread).
    { apply N.div_lt; lia. }
    { lia. }
    exists (10 * p). split; [done|].
    intros acc. rewrite Hread. simpl. rewrite digit_value_pretty by done.
    f_equal. f_equal. simpl. lia.
Qed.

Lemma starts_with_digit_trim s :
  starts_with_digit s = true -> trimStart s = s.
Proof.
  destruct s as [|c s]; [done|]. simpl.
  destruct c as [[] [] [] [] [] [] [] []]; simpl; done.
Qed.

Lemma leading_integer_digits s :
  starts_with_digit s = true -> leading_integer s = read_digits None s.
Proof.
  intros Hs. unfold leading_integer. rewrite starts_with_digit_trim by done.
  destruct s as [|c s]; [done|].
  revert Hs. destruct c as [[] [] [] [] [] [] [] []]; simpl; done.
Qed.

Lemma pretty_N_go_app n s : pretty_N_go n s = pretty_N_go n "" +:+ s.
Proof.
  revert s. induction (N.lt_wf_0 n) as [n _ IH]; intros s.
  destruct (decide (n = 0)%N) as [->|Hn]; [by rewrite !pretty_N_go_0|].
  assert (n `div` 10 < n)%N as Hlt by (apply N.div_lt; lia).
  rewrite (pretty_N_go_step n s), (pretty_N_go_step n "") by lia.
  rewrite (IH _ Hlt (String _ s)), (IH _ Hlt (String _ "")).
  by rewrite append_assoc.
Qed.

(** Reading back the decimal numeral of a natural number, whatever follows
    it, provided what follows does not start with a digit. *)
Lemma read_digits_pretty_N (n : N) rest :
  starts_with_digit rest = false ->
  starts_with_digit (pretty n +:+ rest) = true
  /\ read_digits None (pretty n +:+ rest) = Some (Z.of_N n).
Proof.
  intros Hrest. unfold pretty, pretty_N.
  destruct (decide (n = 0)%N) as [->|Hn].
  - rewrite append_cons, append_empty_l. split; [done|].
    simpl. by rewrite read_digits_no_digit.
  - rewrite <-pretty_N_go_app.
    destruct (read_digits_pretty_go n ltac:(lia) rest) as (p & Hstart & Hread).
    split; [done|]. rewrite Hread. simpl. by rewrite read_digits_no_digit.
Qed.

Lemma leading_integer_pretty_N (n : N) rest :
  starts_with_digit rest = false ->
  leading_integer (pretty n +:+ rest) = Some (Z.of_N n).
Proof.
  intros Hrest. destruct (read_digits_pretty_N n rest Hrest) as [Hstart Hread].
  by rewrite leading_integer_digits.
Qed.

Lemma append_empty_r s : s +:+ "" = s.
Proof. induction s; rewrite ?append_empty_l, ?append_cons; congruence. Qed.

Lemma leading_integer_minus r :
  leading_integer (String "-" r) = Z.opp <$> read_digits None r.
Proof. reflexivity. Qed.

(** The decimal numeral of any integer is read back, whatever follows it. *)
Lemma leading_integer_pretty_Z (n : Z) rest :
  starts_with_digit rest = false -> leading_integer (pretty n +:+ rest) = Some n.
Proof.
  intros Hrest. destruct n as [|q|q]; unfold pretty, pretty_Z.
  - apply (leading_integer_pretty_N 0 rest Hrest).
  - apply (leading_integer_pretty_N (Npos q) rest Hrest).
  - rewrite append_assoc, append_cons, append_empty_l.
    destruct (read_digits_pretty_N (Npos q) rest Hrest) as [_ Hread].
    change (pretty q) with (pretty (N.pos q)).
    by rewrite leading_integer_minus, Hread.
Qed.

Lemma parseInt_after_sign s :
  starts_with_digit (after_sign s) = false -> parseInt s = NaN.
Proof. intros Hs. unfold parseInt. by rewrite leading_integer_after_sign. Qed.

Lemma parseInt_pretty_Z (n : Z) rest :
  starts_with_digit rest = false -> parseInt (pretty n +:+ rest) = to_number n.
Proof. intros Hrest. unfold parseInt. by rewrite leading_integer_pretty_Z. Qed.

Lemma parseInt_pretty (n : Z) : parseInt (pretty n) = to_number n.
Proof.
  rewrite <-(append_empty_r (pretty n)). by apply parseInt_pretty_Z.
Qed.

(** *** Rounding to a double *)

(** An integer below [2^53] is a double. *)
Lemma round_to_double_safe x : 0 <= x < 2 ^ 53 -> round_to_double x = x.
Proof.
  intros Hx. unfold round_to_double.
  assert (Z.log2 x < 53) as Hlog.
  { destruct (decide (x = 0)) as [->|Hnz]; [done|].
    apply Z.log2_lt_pow2; lia. }
  by destruct (Z.leb_spec (Z.log2 x - 52) 0); [|lia].
Qed.

(** Rounding keeps a positive integer positive. *)
Lemma round_to_double_positive x : 0 < x -> 0 < round_to_double x.
Proof.
  intros Hx. unfold round_to_double.
  destruct (Z.leb_spec (Z.log2 x - 52) 0) as [|Hdrop]; [done|].
  set (ulp := 2 ^ (Z.log2 x - 52)).
  assert (0 < ulp) as Hulp by (apply Z.pow_pos_nonneg; lia).
  assert (ulp <= x) as Hle.
  { transitivity (2 ^ Z.log2 x); [|apply Z.log2_spec; lia].
    apply Z.pow_le_mono_r; lia. }
  assert (1 <= x / ulp) as Hq by (apply Z.div_le_lower_bound; lia).
  destruct (_ || _); nia.
Qed.

Lemma to_number_safe n : - 2 ^ 53 < n < 2 ^ 53 -> to_number n = Int n.
Proof.
  intros Hn. unfold to_number.
  rewrite round_to_double_safe by lia.
  assert (2 ^ 53 < 2 ^ 1024) as Hbig by (apply Z.pow_lt_mono_r; lia).
  destruct (Z.leb_spec (2 ^ 1024) (Z.abs n)); [lia|].
  f_equal. lia.
Qed.

Lemma to_number_sign n :
  to_number n <> NaN /\ is_nonnegative (to_number n) = (0 <=? n).
Proof.
  unfold to_number.
  destruct (Z.leb_spec (2 ^ 1024) (round_to_double (Z.abs n))) as [Hinf|Hfin].
  - split; [done|]. simpl.
    destruct (Z.ltb_spec n 0), (Z.leb_spec 0 n); done || lia.
  - split; [done|]. simpl.
    destruct (decide (n = 0)) as [->|Hnz]; [done|].
    pose proof (round_to_double_positive (Z.abs n) ltac:(lia)) as Hpos.
    destruct (Z.leb_spec 0 n), (Z.leb_spec 0 (Z.sgn n * round_to_double (Z.abs n)));
      done || nia.
Qed.

(** An integer below [2^53] in magnitude is printed in full. *)
Lemma Number_toString_safe n :
  - 2 ^ 53 < n < 2 ^ 53 -> Number_toString n = pretty n.
Proof.
  intros Hn. cbn [Number_toString]. rewrite to_number_safe by done.
  unfold print_double. destruct (Z.ltb_spec n 0) as [Hneg|Hpos].
  - destruct (Z.ltb_spec (- n) (2 ^ 53)); [|lia].
    destruct n as [|q|q]; done || lia.
  - by destruct (Z.ltb_spec n (2 ^ 53)); [|lia].
Qed.

(** What [normalizePort] makes of a value in which [parseInt] reads the
    integer [n]. *)
Lemma normalizePort_integer val n :
  parseInt (ToString val) = to_number n ->
  normalizePort val = if 0 <=? n then VNum (to_number n) else VBool false.
Proof.
  intros Hparse. unfold normalizePort. rewrite Hparse.
  destruct (to_number_sign n) as [Hnan <-].
  by destruct (to_number n).
Qed.

(** C8, as stated, fails: a string that is no numeral but begins with one is
    not handed back as a pipe name; [normalizePort] yields the number it
    begins with. *)
Lemma normalizePort_leading_numeral_counterexample :
  is_numeral "80abc" = false
  /\ normalizePort (VStr "80abc") = VNum 80
  /\ normalizePort (VStr "80abc") <> VStr "80abc".
Proof. by vm_compute. Qed.

(** C8 (amended): [normalizePort] hands back unchanged every string that,
    once leading white space and one sign are dropped, does not begin with a
    decimal digit; it maps every non-negative integer, given as its decimal
    numeral or as a string that begins with that numeral, to the number
    nearest to that integer, which is the integer itself below [2^53]; it
    maps every non-negative integer below [2^53] given as a number to
    itself; and it maps to [false] every negative integer given as its
    decimal numeral, and every negative integer above [-2^53] given as a
    number. *)
Theorem normalizePort_spec :
  (forall s, starts_with_digit (after_sign s) = false ->
             normalizePort (VStr s) = VStr s)
  /\ (forall (n : Z) rest, 0 <= n -> starts_with_digit rest = false ->
         normalizePort (VStr (pretty n +:+ rest)) = VNum (to_number n)
         /\ normalizePort (VStr (pretty n)) = VNum (to_number n)
         /\ (n < 2 ^ 53 ->
             to_number n = Int n /\ normalizePort (VNum n) = VNum n))
  /\ (forall n : Z, n < 0 ->
         normalizePort (VStr (pretty n)) = VBool false
         /\ (- 2 ^ 53 < n -> normalizePort (VNum n) = VBool false)).
Proof.
  assert (forall n : Z, - 2 ^ 53 < n < 2 ^ 53 ->
            parseInt (ToString (VNum n)) = to_number n) as Hnumber.
  { intros n Hn. cbn [ToString]. rewrite Number_toString_safe by done.
    apply parseInt_pretty. }
  split; [|split].
  - intros s Hs. unfold normalizePort. cbn [ToString].
    by rewrite parseInt_after_sign.
  - intros n rest Hn Hrest.
    rewrite (normalizePort_integer (VStr (pretty n +:+ rest)) n)
      by (by apply parseInt_pretty_Z).
    rewrite (normalizePort_integer (VStr (pretty n)) n) by apply parseInt_pretty.
    destruct (Z.leb_spec 0 n); [|lia]. split; [done|]. split; [done|].
    intros Hsafe. rewrite (normalizePort_integer (VNum n) n) by (apply Hnumber; lia).
    destruct (Z.leb_spec 0 n); [|lia].
    rewrite to_number_safe by lia. done.
  - intros n Hn.
    rewrite (normalizePort_integer (VStr (pretty n)) n) by apply parseInt_pretty.
    destruct (Z.leb_spec 0 n); [lia|]. split; [done|].
    intros Hsafe. rewrite (normalizePort_integer (VNum n) n) by (apply Hnumber; lia).
    by destruct (Z.leb_spec 0 n); [lia|].
Qed.

(** [normalizePort_spec] at work: a pipe name, the port [3000] as a string
    and as a number, a negative port. *)
Lemma normalizePort_spec_witness :
  normalizePort (VStr "\\.\pipe\app") = VStr "\\.\pipe\app"
  /\ normalizePort (VStr "3000") = VNum 3000
  /\ normalizePort (VNum 3000) = VNum 3000
  /\ normalizePort (VStr "-1") = VBool false.
Proof.
  destruct normalizePort_spec as (Hpipe & Hport & Hneg).
  split; [by apply Hpipe|].
  destruct (Hport 3000 "" ltac:(lia) eq_refl) as (_ & Hstr & Hnum).
  destruct (Hnum ltac:(lia)) as [Hsafe Hnumber].
  destruct (Hneg (-1) ltac:(lia)) as [Hnegstr _].
  split; [by rewrite <-Hsafe|]. by split.
Defined.

(** C9: the patched [fetch] hands every URL that begins with [/] to the
    underlying [fetch] as [http://localhost:<port>] followed by the URL, and
    every other URL, absolute URLs among them, unchanged; the options are
    passed on as they are. *)
Theorem global_fetch_spec {Options Response : Type} (port : value)
    (underlying : string -> Options -> Response) (options : Options) :
  (forall rest,
     global_fetch port underlying ("/" +:+ rest) options
     = underlying (("http://localhost:" +:+ ToString port) +:+ "/" +:+ rest) options)
  /\ (forall url, String.prefix "/" url = false ->
        global_fetch port underlying url options = underlying url options)
  /\ (forall url, has_scheme url = true ->
        global_fetch port underlying url options = underlying url options).
Proof.
  assert (forall url, String.prefix "/" url = false ->
            global_fetch port underlying url options = underlying url options)
    as Hother.
  { intros url Hurl. unfold global_fetch. by rewrite indexOf_zero, Hurl. }
  split; [|split; [done|]].
  - intros rest. unfold global_fetch. by rewrite indexOf_zero, prefix_app.
  - intros url Hs. apply Hother.
    destruct url as [|c url]; [done|]. simpl in Hs. apply andb_true_iff in Hs as [Hc _].
    revert Hc. clear. destruct c as [[] [] [] [] [] [] [] []]; done.
Qed.

(** [global_fetch_spec] at work with the port [3000]: a root-relative URL
    and an absolute one. *)
Lemma global_fetch_spec_witness :
  global_fetch (VNum 3000) (fun url (_ : unit) => url) "/api/list" ()
  = "http://localhost:3000/api/list"
  /\ has_scheme "https://example.com/api/list" = true
  /\ global_fetch (VNum 3000) (fun url (_ : unit) => url)
       "https://example.com/api/list" ()
     = "https://example.com/api/list".
Proof.
  destruct (global_fetch_spec (VNum 3000) (fun url (_ : unit) => url) ())
    as (Hroot & _ & Habs).
  split; [exact (Hroot "api/list")|].
  split; [done|]. by apply Habs.
Defined.

End BootstrapFacts.

(** ** build/setup-dev-env.js *)

Module DevServerFacts.
Import JsString JsNumber Js DevServer.

Lemma hot_modules_app es1 es2 :
  hot_modules (es1 ++ es2) = (hot_modules es1 ++ hot_modules es2)%list.
Proof. unfold hot_modules. apply omap_app. Qed.

Lemma hot_modules_logged (stats : Stats) :
  hot_modules (map ConsoleError (errors stats) ++ map ConsoleWarn (warnings stats))
  = [].
Proof.
  rewrite hot_modules_app. unfold hot_modules.
  assert (forall (f : value -> effect) l,
            (forall v a, f v <> HandleHotModule a) ->
            omap (fun e => match e with HandleHotModule a => Some a | _ => None end)
                 (map f l) = []) as Hnone.
  { intros f l Hf. induction l as [|v l IH]; simpl; [done|].
    destruct (f v) eqn:E; try done. by destruct (Hf v arg). }
  by rewrite !Hnone.
Qed.

(** The calls of [handleHotModule] one rebuild makes: none, or one with the
    truthy [default] member of a truthy [module.exports], else with
    [module.exports] itself. *)
Lemma hot_modules_on_rebuild err stats ev :
  hot_modules (on_rebuild err stats ev).2 =
  match ev with
  | Throws _ => []
  | Exports m =>
      if truthy err then []
      else if truthy m then [or_else (get m "default") m] else []
  end.
Proof.
  unfold on_rebuild. destruct (truthy err); [by destruct ev|].
  destruct ev as [e|m]; cbn [load_module truthy snd].
  - by rewrite hot_modules_app, hot_modules_logged.
  - destruct (truthy m); cbn [snd].
    + by rewrite hot_modules_app, hot_modules_logged.
    + by rewrite hot_modules_app, hot_modules_logged.
Qed.

(** How the callback completes. *)
Lemma on_build_completes err stats b :
  (on_build err stats b).1 = Normal () <-> runs_factory (err, stats, b).
Proof.
  unfold runs_factory. cbn [fst snd]. split.
  - destruct b as [e|e|ev]; simpl.
    + by destruct (truthy err).
    + by destruct (truthy err).
    + unfold on_rebuild. destruct (truthy err); [done|]. intros _. by eauto.
  - intros (Herr & ev & ->). simpl. unfold on_rebuild. rewrite Herr.
    destruct (load_module ev) as [newModule evaluated].
    by destruct (truthy newModule).
Qed.

(** X6: over a watch that the callback never ended by throwing,
    [handleHotModule] has received the modules of the rebuilds that
    evaluated, in order; a rebuild whose evaluation throws, or whose
    [module.exports] is falsy, contributes nothing, so that the module
    handed over before stays the last one. And the callback completes at
    every rebuild only if, each time, the compiler reports no error and the
    output is read and compiled: a file that cannot be read, or a source
    that does not compile, makes the callback throw after the logging,
    without a call of [handleHotModule]. *)
Lemma setupServer_hot_modules rebuilds :
  ((setupServer rebuilds).1 = Normal () ->
   hot_modules (setupServer rebuilds).2 = concat (map handed_over rebuilds)
   /\ Forall runs_factory rebuilds)
  /\ (forall err stats error b,
        b = Unreadable error \/ b = Uncompilable error ->
        (exists e, (on_build err stats b).1 = Throw e)
        /\ hot_modules (on_build err stats b).2 = []).
Proof.
  split.
  - induction rebuilds as [|[[err stats] b] rebuilds IH]; [done|].
    cbn [setupServer].
    pose proof (on_build_completes err stats b) as Hcompletes.
    destruct (on_build err stats b) as [[[]|e] effects] eqn:Hrun; [|done].
    destruct (setupServer rebuilds) as [r effects']. cbn [fst snd] in *.
    intros ->. destruct (IH eq_refl) as [IHm IHf].
    destruct (proj1 Hcompletes eq_refl) as (Herr & ev & Hb).
    cbn [fst snd] in Herr, Hb. subst b.
    split; [|constructor; [split; [done|by eexists]|done]].
    rewrite hot_modules_app, IHm. cbn [map concat]. f_equal.
    simpl in Hrun.
    pose proof (hot_modules_on_rebuild err stats ev) as Hone.
    rewrite Hrun, Herr in Hone. by destruct ev.
  - intros err stats error b [-> | ->]; simpl;
      (destruct (truthy err); simpl;
       [by eauto|split; [by eauto|apply hot_modules_logged]]).
Qed.

(** C7, as stated, fails on a default export that is present but falsy
    ([export default 0]): [handleHotModule] receives the module, not its
    default export. *)
Lemma handleHotModule_falsy_default_counterexample :
  let m := VObj [("default", VNum 0); ("port", VNum 3000)] in
  get m "default" = VNum 0
  /\ hot_modules (on_rebuild VNull {| errors := []; warnings := [] |} (Exports m)).2
     = [m]
  /\ m <> VNum 0.
Proof. by vm_compute. Qed.

(** C7 (amended): if evaluating the compiled bundle throws, the error is
    logged and [handleHotModule] is not called for that build;
    [handleHotModule] is called only when the evaluation completes without
    throwing, and then with the module's default export if that export is
    truthy, otherwise with the module itself. *)
Theorem setupServer_hot_module err stats ev :
  (forall error, ev = Throws error ->
     hot_modules (on_rebuild err stats ev).2 = []
     /\ (truthy err = false ->
         (on_rebuild err stats ev).1 = Normal ()
         /\ ConsoleLog error ∈ (on_rebuild err stats ev).2))
  /\ (forall arg, arg ∈ hot_modules (on_rebuild err stats ev).2 ->
        exists m, ev = Exports m
                  /\ hot_modules (on_rebuild err stats ev).2 = [arg]
                  /\ arg = if truthy (get m "default") then get m "default" else m).
Proof.
  split.
  - intros error ->. split; [by rewrite hot_modules_on_rebuild|].
    intros Herr. unfold on_rebuild. rewrite Herr. simpl. split; [done|].
    rewrite elem_of_app. right. by apply list_elem_of_singleton.
  - intros arg. rewrite hot_modules_on_rebuild.
    destruct ev as [e|m]; [by intros ?%elem_of_nil|].
    destruct (truthy err); [by intros ?%elem_of_nil|].
    destruct (truthy m); [|by intros ?%elem_of_nil].
    intros ->%list_elem_of_singleton. by exists m.
Qed.

(** [setupServer_hot_module] at work: a bundle that throws, and one that
    exports an application as its default export. *)
Lemma setupServer_hot_module_witness :
  let stats := {| errors := []; warnings := [VStr "unused variable"] |} in
  let app := VFun (Fn "app") in
  hot_modules (on_rebuild VNull stats (Throws (VStr "boom"))).2 = []
  /\ ConsoleLog (VStr "boom") ∈ (on_rebuild VNull stats (Throws (VStr "boom"))).2
  /\ hot_modules (on_rebuild VNull stats (Exports (VObj [("default", app)]))).2
     = [app].
Proof.
  intros stats app.
  destruct (setupServer_hot_module VNull stats (Throws (VStr "boom")))
    as [Hthrow _].
  destruct (Hthrow (VStr "boom") eq_refl) as [Hnone Hlog].
  destruct (Hlog eq_refl) as [_ Hlogged].
  destruct (setupServer_hot_module VNull stats (Exports (VObj [("default", app)])))
    as [_ Hcall].
  destruct (Hcall app) as (m & Hm & Hcalls & _).
  { vm_compute. apply list_elem_of_here. }
  by repeat split.
Defined.

End DevServerFacts.

(** ** The Controller: URL resolution *)

Module UrlFacts.
Import JsString JsNumber Js Controller JsStringFacts.

Section WithUtil.
Context {U : Util}.

(** C1: a URL that is not absolute and does not begin with [/mock/] is
    prefixed with [context.restfulApi]; one that is not absolute and begins
    with [/mock/] is prefixed with [context.locationOrigin] and
    [context.basename]; an absolute URL is returned unchanged, except that
    on the client a leading [http:] is stripped. *)
Theorem prependRestfulBasename_spec (ctx : Context) :
  (forall u, isAbsoluteUrl u = false -> String.prefix "/mock/" u = false ->
     prependRestfulBasename ctx u = restfulApi ctx +:+ u)
  /\ (forall u, isAbsoluteUrl u = false -> String.prefix "/mock/" u = true ->
        prependRestfulBasename ctx u
        = (locationOrigin ctx +:+ basename ctx) +:+ u)
  /\ (forall u, isAbsoluteUrl u = true ->
        (forall rest, isClient ctx = true -> u = "http:" +:+ rest ->
           prependRestfulBasename ctx u = rest)
        /\ (isClient ctx = false \/ String.prefix "http:" u = false ->
            prependRestfulBasename ctx u = u)).
Proof.
  unfold prependRestfulBasename. split; [|split; [|intros u Habs; split]].
  - intros u -> Hmock. by rewrite indexOf_zero, Hmock.
  - intros u -> Hmock. by rewrite indexOf_zero, Hmock.
  - intros rest Hclient ->. rewrite Habs, Hclient, indexOf_zero, prefix_app.
    simpl andb. cbv iota. by rewrite replace_leading.
  - rewrite Habs, indexOf_zero. intros [-> | ->]; [done|].
    by rewrite andb_false_r.
Qed.

End WithUtil.

(** [prependRestfulBasename_spec] at work on the client: an API path, a mock
    path, an [http:] URL and an [https:] URL. *)
Lemma prependRestfulBasename_spec_witness :
  let resolve := prependRestfulBasename (U := Sample.util) Sample.client in
  resolve "/user/1" = "https://api.example.com/user/1"
  /\ resolve "/mock/user/1" = "https://example.com/app/mock/user/1"
  /\ resolve "http://cdn.example.com/a.css" = "//cdn.example.com/a.css"
  /\ resolve "https://cdn.example.com/a.css" = "https://cdn.example.com/a.css".
Proof.
  intros resolve.
  destruct (prependRestfulBasename_spec (U := Sample.util) Sample.client)
    as (Hrest & Hmock & Habs).
  split; [by apply Hrest|].
  split; [by apply Hmock|].
  destruct (Habs "http://cdn.example.com/a.css" eq_refl) as [Hstrip _].
  destruct (Habs "https://cdn.example.com/a.css" eq_refl) as [_ Hkeep].
  split; [by apply Hstrip|].
  apply Hkeep. by right.
Defined.

End UrlFacts.

(** ** The Controller: preloading *)

Module PreloadFacts.
Import JsString JsNumber Js Controller Spec JsStringFacts.

Section WithCollaborators.
Context {U : Util} {NW : Network}.

Lemma sent_nil w : sent [] w = w.
Proof. destruct w. unfold sent. simpl. by rewrite app_nil_r. Qed.

Lemma sent_send r rs w : sent rs (send r w) = sent (r :: rs) w.
Proof. unfold sent, send. simpl. by rewrite <-app_assoc. Qed.

Lemma numbered_cons n e l : numbered n (e :: l) = (e, n) :: numbered (S n) l.
Proof.
  unfold numbered. simpl. rewrite Nat.add_0_r. f_equal.
  apply imap_ext. intros i x _. simpl. f_equal. lia.
Qed.

(** What [context.preload[name]] answers, by cases. *)
Lemma cached_entry cache name v :
  cache !! name = Some v -> truthy v = true -> cached cache name = true.
Proof. intros Hentry Hv. unfold cached, cache_get. by rewrite Hentry. Qed.

Lemma cached_inherited cache name :
  name ∈ Object_prototype -> cache !! name = None -> cached cache name = true.
Proof.
  intros Hin Hnone. unfold cached, cache_get. rewrite Hnone.
  rewrite bool_decide_eq_true_2 by done. by destruct (String.eqb name "__proto__").
Qed.

Lemma cached_absent cache name :
  cache !! name = None -> name ∉ Object_prototype -> cached cache name = false.
Proof.
  intros Hnone Hown. unfold cached, cache_get. rewrite Hnone.
  by rewrite bool_decide_eq_false_2.
Qed.

(** The synchronous part, when every URL that has to be fetched is a
    string: one request per pending name, in order, nothing thrown. *)
Lemma issue_pending ctx spec keys w :
  Forall (fun name => cached (context_preload w) name = false ->
                      exists u, get spec name = VStr u) keys ->
  let todo := pending ctx spec (context_preload w) keys in
  issue ctx spec keys w
  = (numbered (length (requests w)) todo, None,
     sent (map (fun e => fetch_request ctx e.2) todo) w).
Proof.
  revert w. induction keys as [|name keys IH]; intros w Hkeys; simpl.
  - by rewrite sent_nil.
  - apply Forall_cons in Hkeys as [Hname Hkeys].
    unfold preload_url. fold (cached (context_preload w) name).
    destruct (cached (context_preload w) name) eqn:Hc; simpl.
    + by apply IH.
    + destruct Hname as [u Hu]; [done|]. rewrite Hu. simpl.
      fold (completed_url ctx u).
      rewrite (IH (send (fetch_request ctx (completed_url ctx u)) w)) by done.
      simpl. rewrite numbered_cons, sent_send, length_app. simpl.
      by rewrite Nat.add_1_r.
Qed.

(** Nothing is sent for names the cache already holds. *)
Lemma issue_all_cached ctx spec keys w :
  Forall (fun name => cached (context_preload w) name = true) keys ->
  issue ctx spec keys w = ([], None, w).
Proof.
  induction 1 as [|name keys Hname _ IH]; simpl; [done|].
  unfold preload_url. fold (cached (context_preload w) name).
  by rewrite Hname.
Qed.

Lemma pending_names ctx spec cache keys :
  map fst (pending ctx spec cache keys) `sublist_of` keys.
Proof.
  induction keys as [|name keys IH]; simpl; [done|].
  destruct (cached cache name); [by apply sublist_cons|].
  destruct (get spec name); simpl; try by apply sublist_cons.
  by apply sublist_skip.
Qed.

Lemma pending_not_cached ctx spec cache keys name url :
  (name, url) ∈ pending ctx spec cache keys ->
  name ∈ keys /\ cached cache name = false
  /\ exists u, get spec name = VStr u /\ url = completed_url ctx u.
Proof.
  unfold pending. rewrite list_elem_of_omap. intros (k & Hk & Hsome).
  destruct (cached cache k) eqn:Hc; [done|].
  destruct (get spec k) eqn:Hg; try done.
  injection Hsome as <- <-. eauto.
Qed.

Lemma pending_elem ctx spec cache keys name u :
  name ∈ keys -> cached cache name = false -> get spec name = VStr u ->
  (name, completed_url ctx u) ∈ pending ctx spec cache keys.
Proof.
  intros Hin Hc Hu. unfold pending. rewrite list_elem_of_omap.
  exists name. by rewrite Hc, Hu.
Qed.

(** Settling touches the cache only. *)
Lemma settle_frame ctx entries w :
  (settle ctx entries w).2
  = set_preload (context_preload (settle ctx entries w).2) w.
Proof.
  revert w. induction entries as [|[[name url] n] entries IH]; intros w; simpl.
  - by destruct w.
  - destruct (respond n (fetch_request ctx url)) as [text|err]; simpl.
    + destruct (settle ctx entries _) as [r w2] eqn:E. simpl.
      pose proof (IH (set_preload
        (<[name:=VStr (if negb (indexOf url ".css" =? -1)
                        then replace_cr_runs text else text)]>
           (context_preload w)) w)) as IH'.
      rewrite E in IH'. simpl in IH'. by rewrite IH'.
    + destruct (settle ctx entries w) as [r w2] eqn:E. simpl.
      pose proof (IH w) as IH'. by rewrite E in IH'.
Qed.

(** A name none of the entries carries keeps its cache entry. *)
Lemma settle_lookup_other ctx entries w name :
  name ∉ map (fun e => e.1.1) entries ->
  context_preload (settle ctx entries w).2 !! name = context_preload w !! name.
Proof.
  revert w. induction entries as [|[[name' url] n] entries IH]; intros w; simpl.
  - done.
  - intros [Hne Hnotin]%not_elem_of_cons.
    destruct (respond n (fetch_request ctx url)) as [text|err]; simpl.
    + destruct (settle ctx entries _) as [r w2] eqn:E. simpl.
      pose proof (IH (set_preload
        (<[name':=VStr (if negb (indexOf url ".css" =? -1)
                         then replace_cr_runs text else text)]>
           (context_preload w)) w) Hnotin) as IH'.
      rewrite E in IH'. simpl in IH'. rewrite IH'.
      by apply lookup_insert_ne.
    + destruct (settle ctx entries w) as [r w2] eqn:E. simpl.
      pose proof (IH w Hnotin) as IH'. by rewrite E in IH'.
Qed.

(** The entry of a fulfilled request holds the processed text. *)
Lemma settle_lookup ctx entries w name url n text :
  NoDup (map (fun e => e.1.1) entries) ->
  (name, url, n) ∈ entries ->
  respond n (fetch_request ctx url) = Normal text ->
  context_preload (settle ctx entries w).2 !! name
  = Some (VStr (processed url text)).
Proof.
  revert w. induction entries as [|[[name' url'] n'] entries IH]; intros w; simpl.
  - by intros _ ?%elem_of_nil.
  - intros [Hfresh Hnodup]%NoDup_cons [Hhere|Hlater]%elem_of_cons Hresp.
    + injection Hhere as <- <- <-. rewrite Hresp. simpl.
      destruct (settle ctx entries _) as [r w2] eqn:E. simpl.
      pose proof (settle_lookup_other ctx entries
        (set_preload
           (<[name:=VStr (if negb (indexOf url ".css" =? -1)
                           then replace_cr_runs text else text)]>
              (context_preload w)) w) name Hfresh) as Hkeep.
      rewrite E in Hkeep. simpl in Hkeep. rewrite Hkeep, lookup_insert_eq.
      unfold processed. by rewrite indexOf_occurs, replace_cr_runs_without_cr.
    + destruct (respond n' (fetch_request ctx url')) as [text'|err]; simpl.
      * destruct (settle ctx entries _) as [r w2] eqn:E. simpl.
        pose proof (IH (set_preload
          (<[name':=VStr (if negb (indexOf url' ".css" =? -1)
                           then replace_cr_runs text' else text')]>
             (context_preload w)) w) Hnodup Hlater Hresp) as IH'.
        by rewrite E in IH'.
      * destruct (settle ctx entries w) as [r w2] eqn:E. simpl.
        pose proof (IH w Hnodup Hlater Hresp) as IH'. by rewrite E in IH'.
Qed.

(** What settling leaves under the name of an entry. *)
Lemma settle_lookup_entry ctx entries w name url n :
  NoDup (map (fun e => e.1.1) entries) ->
  (name, url, n) ∈ entries ->
  context_preload (settle ctx entries w).2 !! name
  = match respond n (fetch_request ctx url) with
    | Normal text => Some (VStr (processed url text))
    | Throw _ => context_preload w !! name
    end.
Proof.
  intros Hnodup Hin.
  destruct (respond n (fetch_request ctx url)) as [text|err] eqn:Hresp.
  { by eapply settle_lookup. }
  revert w. induction entries as [|[[name' url'] n'] entries IH]; intros w.
  - by apply elem_of_nil in Hin.
  - apply NoDup_cons in Hnodup as [Hfresh Hnodup].
    apply elem_of_cons in Hin as [Hhere|Hlater]; simpl.
    + injection Hhere as <- <- <-. rewrite Hresp. simpl.
      pose proof (settle_lookup_other ctx entries w name Hfresh) as Hkeep.
      by destruct (settle ctx entries w) as [r w2].
    + assert (name <> name') as Hne.
      { intros <-. apply Hfresh. simpl.
        apply list_elem_of_fmap. by exists (name, url, n). }
      destruct (respond n' (fetch_request ctx url')) as [text'|err']; simpl.
      * pose proof (IH Hnodup Hlater (set_preload
          (<[name':=VStr (if negb (indexOf url' ".css" =? -1)
                           then replace_cr_runs text' else text')]>
             (context_preload w)) w)) as IH'.
        destruct (settle ctx entries _) as [r w2]. simpl in *.
        rewrite IH'. by apply lookup_insert_ne.
      * pose proof (IH Hnodup Hlater w) as IH'.
        by destruct (settle ctx entries w) as [r w2].
Qed.

(** The requests are in flight together: the order in which they settle
    does not matter to the cache. *)
Lemma settle_any_order ctx entries entries' w :
  NoDup (map (fun e => e.1.1) entries) ->
  entries ≡ₚ entries' ->
  context_preload (settle ctx entries w).2
  = context_preload (settle ctx entries' w).2.
Proof.
  intros Hnodup Hperm. apply map_eq. intros name.
  assert (NoDup (map (fun e => e.1.1) entries')) as Hnodup'
    by (by rewrite <-Hperm).
  destruct (decide (name ∈ map (fun e : string * string * nat => e.1.1) entries))
    as [Hin|Hnotin].
  - apply list_elem_of_fmap in Hin as ([[name' url] n] & -> & Hin). simpl.
    rewrite (settle_lookup_entry ctx entries w name' url n) by done.
    rewrite (settle_lookup_entry ctx entries' w name' url n); [done..|].
    by rewrite <-Hperm.
  - rewrite !settle_lookup_other; [done| |done]. by rewrite <-Hperm.
Qed.

Lemma settle_requests ctx entries w :
  requests (settle ctx entries w).2 = requests w.
Proof. by rewrite settle_frame. Qed.

Lemma settle_nil_world ctx w : (settle ctx [] w).2 = w.
Proof. done. Qed.

(** In a falsy value there are no keys to enumerate. *)
Lemma Object_keys_falsy spec keys :
  Object_keys spec = Normal keys -> truthy spec = false -> keys = [].
Proof.
  destruct spec as [| |b|n|s|ps|f|r]; simpl; try done.
  - by intros [= <-].
  - by intros [= <-].
  - destruct s; [by intros [= <-]|done].
Qed.

(** The world a call of [fetchPreload] leaves: the requests are issued, then
    settled; the controller is not touched. *)
Lemma fetchPreload_world arg c w keys :
  Object_keys (or_else arg (member c "preload")) = Normal keys ->
  let issued := issue (context c) (or_else arg (member c "preload")) keys w in
  (fetchPreload arg c w).1.2 = c
  /\ (fetchPreload arg c w).2 = (settle (context c) issued.1.1 issued.2).2.
Proof.
  intros Hkeys. unfold fetchPreload. rewrite Hkeys. simpl.
  destruct (negb (truthy (or_else arg (member c "preload")))
            || (length keys =? 0)%nat) eqn:Hguard.
  - assert (keys = []) as ->.
    { apply orb_true_iff in Hguard as [Hf|Hlen].
      - apply negb_true_iff in Hf. by eapply Object_keys_falsy.
      - apply Nat.eqb_eq in Hlen. by destruct keys. }
    done.
  - destruct (issue _ _ keys w) as [[entries thrown] w1]. simpl.
    destruct (settle _ entries w1) as [rejected w2]. simpl.
    by destruct thrown, rejected.
Qed.

Lemma numbered_names n l : map (fun e => e.1.1) (numbered n l) = map fst l.
Proof.
  revert n. induction l as [|e l IH]; intros n; [done|].
  rewrite numbered_cons. simpl. by rewrite IH.
Qed.

Lemma numbered_elem n l i e :
  l !! i = Some e -> (e, (n + i)%nat) ∈ numbered n l.
Proof.
  intros Hi. apply list_elem_of_lookup. exists i.
  unfold numbered. by rewrite list_lookup_imap, Hi.
Qed.

(** A call sends exactly the requests of the pending names. *)
Lemma fetchPreload_requests arg c w keys :
  let spec := or_else arg (member c "preload") in
  Object_keys spec = Normal keys ->
  Forall (fun name => cached (context_preload w) name = false ->
                      exists u, get spec name = VStr u) keys ->
  requests (fetchPreload arg c w).2
  = (requests w
     ++ map (fun e => fetch_request (context c) e.2)
            (pending (context c) spec (context_preload w) keys))%list.
Proof.
  intros spec Hkeys Hstr.
  destruct (fetchPreload_world arg c w keys Hkeys) as [_ ->].
  fold spec. rewrite settle_requests. by rewrite issue_pending.
Qed.

(** A call that finds every name cached leaves the world as it is. *)
Lemma fetchPreload_all_cached arg c w keys :
  Object_keys (or_else arg (member c "preload")) = Normal keys ->
  Forall (fun name => cached (context_preload w) name = true) keys ->
  (fetchPreload arg c w).2 = w.
Proof.
  intros Hkeys Hall.
  destruct (fetchPreload_world arg c w keys Hkeys) as [_ ->].
  by rewrite issue_all_cached.
Qed.

(** What a call leaves in the cache under a name it had to fetch. *)
Lemma fetchPreload_lookup arg c w keys i name url text :
  let spec := or_else arg (member c "preload") in
  Object_keys spec = Normal keys -> NoDup keys ->
  Forall (fun name => cached (context_preload w) name = false ->
                      exists u, get spec name = VStr u) keys ->
  pending (context c) spec (context_preload w) keys !! i = Some (name, url) ->
  respond (length (requests w) + i) (fetch_request (context c) url) = Normal text ->
  context_preload (fetchPreload arg c w).2 !! name = Some (VStr (processed url text)).
Proof.
  intros spec Hkeys Hnodup Hstr Hi Hresp.
  destruct (fetchPreload_world arg c w keys Hkeys) as [_ ->].
  fold spec. rewrite issue_pending by done. simpl.
  eapply settle_lookup; [| |exact Hresp].
  - rewrite numbered_names.
    eapply sublist_NoDup; [done|apply pending_names].
  - by apply (numbered_elem _ _ i (name, url)).
Qed.

(** C6: the text a preload entry is fetched with is cached without its
    carriage returns when the completed URL of the entry contains [.css],
    and as it is otherwise. The entry is one the call has to fetch (no truthy
    entry is cached under its name), [n] is the number of its request. *)
Theorem fetchPreload_caches_text arg c w keys name u :
  let spec := or_else arg (member c "preload") in
  let url := completed_url (context c) u in
  Object_keys spec = Normal keys -> NoDup keys ->
  Forall (fun name => cached (context_preload w) name = false ->
                      exists u, get spec name = VStr u) keys ->
  name ∈ keys -> cached (context_preload w) name = false ->
  get spec name = VStr u ->
  exists n,
    requests (fetchPreload arg c w).2 !! n = Some (fetch_request (context c) url)
    /\ (length (requests w) <= n)%nat
    /\ forall text,
         respond n (fetch_request (context c) url) = Normal text ->
         (occurs ".css" url = true ->
            context_preload (fetchPreload arg c w).2 !! name
            = Some (VStr (without_cr text)))
         /\ (occurs ".css" url = false ->
              context_preload (fetchPreload arg c w).2 !! name
              = Some (VStr text)).
Proof.
  intros spec url Hkeys Hnodup Hstr Hin Hc Hu.
  pose proof (pending_elem (context c) spec _ keys name u Hin Hc Hu) as Hp.
  apply list_elem_of_lookup in Hp as [i Hi].
  exists (length (requests w) + i)%nat. split; [|split; [lia|]].
  - rewrite (fetchPreload_requests arg c w keys) by done. fold spec.
    rewrite lookup_app_r by lia.
    replace (length (requests w) + i - length (requests w))%nat with i by lia.
    by rewrite list_lookup_fmap, Hi.
  - intros text Hresp.
    pose proof (fetchPreload_lookup arg c w keys i name url text
                  Hkeys Hnodup Hstr Hi Hresp) as Hl.
    unfold processed in Hl. by split; intros Hcss; rewrite Hcss in Hl.
Qed.

(** C4 (amended): [fetchPreload] never fetches a name under which
    [context.preload] answers with a truthy value: a truthy entry, or a
    member every object inherits, such as [toString]. A call sends one
    request, and only one, for each name of the specification that
    [context.preload] has no entry for and that is not the name of an
    inherited member, and none for a name that answers truthy; and when every
    request of a call is fulfilled with a text that is not empty once
    processed, a second call in sequence with the same specification sends
    nothing and changes nothing. *)
Theorem fetchPreload_skips_cached arg c w keys :
  let spec := or_else arg (member c "preload") in
  let todo := pending (context c) spec (context_preload w) keys in
  let w1 := (fetchPreload arg c w).2 in
  Object_keys spec = Normal keys -> NoDup keys ->
  Forall (fun name => cached (context_preload w) name = false ->
                      exists u, get spec name = VStr u) keys ->
  requests w1 = (requests w ++ map (fun e => fetch_request (context c) e.2) todo)%list
  /\ NoDup (map fst todo)
  /\ (forall name, cached (context_preload w) name = true -> name ∉ map fst todo)
  /\ (forall name v, context_preload w !! name = Some v -> truthy v = true ->
                     name ∉ map fst todo)
  /\ (forall name, name ∈ Object_prototype -> context_preload w !! name = None ->
                   name ∉ map fst todo)
  /\ (forall name, name ∈ keys -> context_preload w !! name = None ->
                   name ∉ Object_prototype ->
                   name ∈ map fst todo)
  /\ ((forall i name url, todo !! i = Some (name, url) ->
         exists text,
           respond (length (requests w) + i) (fetch_request (context c) url)
           = Normal text
           /\ processed url text <> "") ->
      (fetchPreload arg c w1).2 = w1).
Proof.
  intros spec todo w1 Hkeys Hnodup Hstr.
  split; [by apply (fetchPreload_requests arg c w keys)|].
  split; [eapply sublist_NoDup; [done|apply pending_names]|].
  assert (forall name, cached (context_preload w) name = true ->
                       name ∉ map fst todo) as Hskip.
  { intros name Hc ([name' url] & -> & Hp)%list_elem_of_fmap. simpl in Hc.
    apply pending_not_cached in Hp as (_ & Hc' & _). congruence. }
  split; [done|]. split; [|split; [|split]].
  - intros name v Hentry Hv. apply Hskip. by apply cached_entry with v.
  - intros name Hinherited Hnone. apply Hskip. by apply cached_inherited.
  - intros name Hin Hnone Hown.
    assert (cached (context_preload w) name = false) as Hc
      by (by apply cached_absent).
    destruct (proj1 (Forall_forall _ _) Hstr name Hin Hc) as [u Hu].
    apply list_elem_of_fmap. exists (name, completed_url (context c) u).
    split; [done|]. by apply pending_elem.
  - intros Hfulfilled. apply (fetchPreload_all_cached arg c w1 keys Hkeys).
    apply Forall_forall. intros name Hin.
    destruct (cached (context_preload w) name) eqn:Hc.
    + unfold w1. destruct (fetchPreload_world arg c w keys Hkeys) as [_ ->].
      fold spec. rewrite issue_pending by done. simpl.
      unfold cached, cache_get. rewrite settle_lookup_other; [done|].
      rewrite numbered_names. fold todo.
      intros ([name' url] & -> & Hp)%list_elem_of_fmap. simpl in Hc.
      apply pending_not_cached in Hp as (_ & Hc' & _). congruence.
    + destruct (proj1 (Forall_forall _ _) Hstr name Hin Hc) as [u Hu].
      pose proof (pending_elem (context c) spec _ keys name u Hin Hc Hu) as Hp.
      apply list_elem_of_lookup in Hp as [i Hi].
      destruct (Hfulfilled i _ _ Hi) as (text & Hresp & Hnonempty).
      unfold w1, cached, cache_get.
      rewrite (fetchPreload_lookup arg c w keys i name _ text) by done.
      simpl. apply negb_true_iff.
      destruct (String.eqb_spec (processed (completed_url (context c) u) text) "");
        done.
Qed.

(** C10 (amended): when neither the argument nor [this.preload] is defined,
    [fetchPreload] throws the [TypeError] of [Object.keys(undefined)]: nothing
    is returned, sent or cached. The [!preload] test of the guard that
    follows can be reached and hold, for a falsy specification that
    [Object.keys] accepts (the empty string, [false], [0], [NaN]): the call
    then returns [undefined] and sends nothing. But the test never decides:
    whenever the keys could be enumerated, the guard holds exactly when
    there are no keys. *)
Theorem fetchPreload_undefined_throws c w :
  (member c "preload" = VUndefined ->
     fetchPreload VUndefined c w
     = (Throw (TypeError "Cannot convert undefined or null to object"), c, w))
  /\ (forall arg,
        let spec := or_else arg (member c "preload") in
        truthy spec = false -> spec <> VUndefined -> spec <> VNull ->
        fetchPreload arg c w = (Normal (Normal VUndefined), c, w))
  /\ (forall spec keys, Object_keys spec = Normal keys ->
        negb (truthy spec) || (length keys =? 0)%nat = (length keys =? 0)%nat).
Proof.
  split; [|split].
  - intros Hnone. unfold fetchPreload. by rewrite Hnone.
  - intros arg spec Hfalsy Hu Hn. unfold fetchPreload. fold spec.
    destruct (Object_keys spec) as [keys|e] eqn:Hkeys.
    + by rewrite Hfalsy.
    + by destruct spec.
  - intros spec keys Hkeys. destruct (truthy spec) eqn:Ht; [done|].
    by rewrite (Object_keys_falsy spec keys Hkeys Ht).
Qed.

End WithCollaborators.

(** [fetchPreload_caches_text] at work on the server, every body being a
    text with CR LF line ends: the style sheet is cached without its carriage
    returns, the text file as it came. *)
Lemma fetchPreload_caches_text_witness :
  let c := Sample.preloading Sample.server in
  let after :=
    (fetchPreload (U := Sample.util) (NW := Sample.crlf_bodies)
       VUndefined c Sample.fresh).2 in
  let LF := ascii_of_nat 10 in
  context_preload after !! "main"
  = Some (VStr ("a{}" +:+ String LF ("b{}" +:+ String LF "")))
  /\ context_preload after !! "motd" = Some (VStr Sample.crlf_text).
Proof.
  intros c after LF.
  assert (NoDup ["main"; "motd"]) as Hnodup
    by (apply (bool_decide_unpack _); by vm_compute).
  assert (Forall (fun name =>
            cached (context_preload Sample.fresh) name = false ->
            exists u, get (or_else VUndefined (member c "preload")) name = VStr u)
            ["main"; "motd"]) as Hstr
    by (repeat constructor; intros _; eexists; reflexivity).
  split.
  - destruct (fetchPreload_caches_text (U := Sample.util) (NW := Sample.crlf_bodies)
                VUndefined c Sample.fresh ["main"; "motd"] "main" "/css/main.css"
                eq_refl Hnodup Hstr) as (n & _ & _ & Htext);
      [apply list_elem_of_here|reflexivity|reflexivity|].
    destruct (Htext Sample.crlf_text eq_refl) as [Hcss _].
    exact (Hcss eq_refl).
  - destruct (fetchPreload_caches_text (U := Sample.util) (NW := Sample.crlf_bodies)
                VUndefined c Sample.fresh ["main"; "motd"] "motd" "/text/motd.txt"
                eq_refl Hnodup Hstr) as (n & _ & _ & Htext);
      [apply list_elem_of_further, list_elem_of_here|reflexivity|reflexivity|].
    destruct (Htext Sample.crlf_text eq_refl) as [_ Hplain].
    exact (Hplain eq_refl).
Defined.

(** C4, as stated, fails. When a body is empty, the name is in the cache
    after the first call, with the empty string, and the second call fetches
    it again; and when the requests are rejected, nothing is cached and the
    second call sends them again. *)
Lemma fetchPreload_empty_body_counterexample :
  let c := Sample.preloading Sample.server in
  let run := fetchPreload (U := Sample.util) (NW := Sample.empty_bodies) VUndefined c in
  let w1 := (run Sample.fresh).2 in
  let w2 := (run w1).2 in
  let run' := fetchPreload (U := Sample.util) (NW := Sample.unreachable) VUndefined c in
  let w1' := (run' Sample.fresh).2 in
  let w2' := (run' w1').2 in
  (context_preload w1 !! "main" = Some (VStr "")
   /\ length (requests w1) = 2%nat
   /\ length (requests w2) = 4%nat
   /\ requests w2 <> requests w1)
  /\ (length (requests w1') = 2%nat /\ length (requests w2') = 4%nat).
Proof. by vm_compute. Qed.

(** [fetchPreload_skips_cached] at work: two requests are sent by the first
    call, none by the second. *)
Lemma fetchPreload_skips_cached_witness :
  let c := Sample.preloading Sample.server in
  let run := fetchPreload (U := Sample.util) (NW := Sample.crlf_bodies) VUndefined c in
  let w1 := (run Sample.fresh).2 in
  length (requests w1) = 2%nat /\ (run w1).2 = w1.
Proof.
  intros c run w1.
  assert (NoDup ["main"; "motd"]) as Hnodup
    by (apply (bool_decide_unpack _); by vm_compute).
  assert (Forall (fun name =>
            cached (context_preload Sample.fresh) name = false ->
            exists u, get (or_else VUndefined (member c "preload")) name = VStr u)
            ["main"; "motd"]) as Hstr
    by (repeat constructor; intros _; eexists; reflexivity).
  destruct (fetchPreload_skips_cached (U := Sample.util) (NW := Sample.crlf_bodies)
              VUndefined c Sample.fresh ["main"; "motd"] eq_refl Hnodup Hstr)
    as (Hreq & _ & _ & Hsecond).
  split.
  - unfold w1, run. by rewrite Hreq.
  - apply Hsecond. intros i name url Hi. exists Sample.crlf_text.
    split; [reflexivity|].
    destruct i as [|[|i]]; try done; injection Hi as <- <-; by vm_compute.
Defined.

(** C10, as stated, fails: the [!preload] branch of the guard is reached,
    and taken, when [this.preload] is the empty string: [Object.keys] accepts
    it, and [fetchPreload] returns [undefined]. *)
Lemma fetchPreload_falsy_preload_counterexample :
  let c := construct 1%nat Sample.home Sample.server [("preload", VStr "")] [] in
  Object_keys (member c "preload") = Normal []
  /\ negb (truthy (member c "preload")) = true
  /\ fetchPreload (U := Sample.util) (NW := Sample.empty_bodies)
       VUndefined c Sample.fresh
     = (Normal (Normal VUndefined), c, Sample.fresh).
Proof. by vm_compute. Qed.

(** [fetchPreload_undefined_throws] at work: a controller that declares no
    [preload]; one whose [preload] is [false]; and the guard on an empty
    string. *)
Lemma fetchPreload_undefined_throws_witness :
  let c := construct 1%nat Sample.home Sample.server [] [] in
  let c' := construct 1%nat Sample.home Sample.server [("preload", VBool false)] [] in
  fetchPreload (U := Sample.util) (NW := Sample.empty_bodies) VUndefined c Sample.fresh
  = (Throw (TypeError "Cannot convert undefined or null to object"), c, Sample.fresh)
  /\ fetchPreload (U := Sample.util) (NW := Sample.empty_bodies)
       VUndefined c' Sample.fresh
     = (Normal (Normal VUndefined), c', Sample.fresh)
  /\ negb (truthy (VStr "")) || (length (@nil string) =? 0)%nat
     = (length (@nil string) =? 0)%nat.
Proof.
  intros c c'.
  destruct (fetchPreload_undefined_throws (U := Sample.util)
              (NW := Sample.empty_bodies) c Sample.fresh) as (Hthrow & _ & Hguard).
  destruct (fetchPreload_undefined_throws (U := Sample.util)
              (NW := Sample.empty_bodies) c' Sample.fresh) as (_ & Hfalsy & _).
  split; [by apply Hthrow|]. split; [by apply (Hfalsy VUndefined)|].
  by apply (Hguard (VStr "") []).
Defined.

End PreloadFacts.

(** ** The Controller: [init()] *)

Module InitFacts.
Import JsString JsNumber Js Controller Spec JsStringFacts.

(** *** Property lists *)

Lemma lookup_set_prop_eq k v ps : lookup_prop k (set_prop k v ps) = Some v.
Proof.
  induction ps as [|[k' v'] ps IH]; simpl.
  - by rewrite String.eqb_refl.
  - destruct (String.eqb_spec k k') as [->|Hne]; simpl.
    + by rewrite String.eqb_refl.
    + by destruct (String.eqb_spec k k').
Qed.

Lemma lookup_set_prop_ne k k' v ps :
  k <> k' -> lookup_prop k (set_prop k' v ps) = lookup_prop k ps.
Proof.
  intros Hne. induction ps as [|[k'' v''] ps IH]; simpl.
  - by destruct (String.eqb_spec k k').
  - destruct (String.eqb_spec k' k'') as [->|Hne']; simpl.
    + destruct (String.eqb_spec k k''); [done|].
      by destruct (String.eqb_spec k k'').
    + by destruct (String.eqb_spec k k'').
Qed.

Lemma lookup_set_prop k k' v ps :
  lookup_prop k (set_prop k' v ps)
  = if String.eqb k k' then Some v else lookup_prop k ps.
Proof.
  destruct (String.eqb_spec k k') as [->|Hne].
  - apply lookup_set_prop_eq.
  - by apply lookup_set_prop_ne.
Qed.

Lemma lookup_prop_None k ps : lookup_prop k ps = None <-> k ∉ map fst ps.
Proof.
  induction ps as [|[k' v'] ps IH]; simpl.
  - split; [intros _; apply not_elem_of_nil|done].
  - rewrite not_elem_of_cons. destruct (String.eqb_spec k k') as [->|Hne].
    + split; [done|]. by intros [? _].
    + rewrite IH. tauto.
Qed.

(** A spread copies every property of a well-formed source over the
    target. *)
Lemma lookup_assign k dst src :
  NoDup (map fst src) ->
  lookup_prop k (assign dst src)
  = match lookup_prop k src with
    | Some v => Some v
    | None => lookup_prop k dst
    end.
Proof.
  unfold assign. revert dst.
  induction src as [|[k' v'] src IH]; intros dst Hnodup; simpl; [done|].
  apply NoDup_cons in Hnodup as [Hfresh Hnodup]. simpl in Hfresh.
  rewrite IH by done.
  destruct (String.eqb_spec k k') as [->|Hne].
  - apply lookup_prop_None in Hfresh. rewrite Hfresh.
    apply lookup_set_prop_eq.
  - destruct (lookup_prop k src); [done|]. by apply lookup_set_prop_ne.
Qed.

(** *** Invariants of controller methods *)

Section Preservation.
Context {A B : Type} (I : Controller -> World -> Prop).

Lemma preserves_ret (a : A) : preserves I (ret a).
Proof. by intros c w. Qed.

Lemma preserves_mret (a : A) : preserves I (mret a).
Proof. by intros c w. Qed.

Lemma preserves_throw (e : value) : preserves I (@throw A e).
Proof. by intros c w. Qed.

Lemma preserves_lift (r : completion A) : preserves I (lift r).
Proof. by intros c w. Qed.

Lemma preserves_this : preserves I this.
Proof. by intros c w. Qed.

Lemma preserves_world : preserves I world.
Proof. by intros c w. Qed.

Lemma preserves_call {UC : UserCode} f args : preserves I (call f args).
Proof. intros c w HI. unfold call. by destruct f. Qed.

Lemma preserves_bind (m : M A) (k : A -> M B) :
  preserves I m -> (forall a, preserves I (k a)) -> preserves I (m ≫= k).
Proof.
  intros Hm Hk c w HI. unfold mbind, M_bind, bind.
  specialize (Hm c w HI). destruct (m c w) as [[[a|e] c1] w1]; simpl in *.
  - by apply Hk.
  - done.
Qed.

Lemma preserves_set_member k v :
  ignores_props [k] I -> preserves I (set_member k v).
Proof. intros Hk c w HI. apply Hk; [apply list_elem_of_here|done]. Qed.

Lemma preserves_emit e :
  ignores_session I -> preserves I (modify_world (emit e)).
Proof. intros Hs c w HI. by apply (Hs c w). Qed.

End Preservation.

Lemma ignores_props_weaken keys keys' I :
  keys' ⊆ keys -> ignores_props keys I -> ignores_props keys' I.
Proof. intros Hsub HI c w k v Hk. apply HI. by apply Hsub. Qed.

(** [[k] ⊆ keys] for literal lists. *)
Ltac singleton_subset :=
  let x := fresh in
  intros x ->%list_elem_of_singleton; apply list_elem_of_In; simpl; tauto.

Ltac preserve_step :=
  lazymatch goal with
  | |- preserves _ (mbind _ _) => apply preserves_bind; [|intros ?]
  | |- preserves _ (ret _) => apply preserves_ret
  | |- preserves _ (mret _) => apply preserves_mret
  | |- preserves _ (throw _) => apply preserves_throw
  | |- preserves _ (lift _) => apply preserves_lift
  | |- preserves _ this => apply preserves_this
  | |- preserves _ world => apply preserves_world
  | |- preserves _ (call _ _) => apply preserves_call
  | |- preserves _ (modify_world (emit _)) => apply preserves_emit; assumption
  | H : ignores_props _ ?I |- preserves ?I (set_member _ _) =>
      apply preserves_set_member;
      eapply ignores_props_weaken; [|exact H]; singleton_subset
  | |- preserves _ (if ?b then _ else _) => destruct b
  | |- preserves _ (match ?x with _ => _ end) => destruct x
  end.

Ltac preserve := repeat preserve_step.

Section Methods.
Context {U : Util} {SA : SharedActions} {UC : UserCode} {NW : Network}.

Lemma issue_INITIAL_STATE ctx spec keys w :
  INITIAL_STATE (issue ctx spec keys w).2 = INITIAL_STATE w.
Proof.
  revert w. induction keys as [|name keys IH]; intros w; simpl; [done|].
  destruct (preload_url ctx spec w name) as [[url|]|e]; simpl; [|done..].
  specialize (IH (send (fetch_request ctx url) w)).
  by destruct (issue ctx spec keys _) as [[entries thrown] w'].
Qed.

(** [fetchPreload] leaves the instance and the hydration global alone. *)
Lemma fetchPreload_frame arg c w :
  (fetchPreload arg c w).1.2 = c
  /\ INITIAL_STATE (fetchPreload arg c w).2 = INITIAL_STATE w.
Proof.
  unfold fetchPreload.
  destruct (Object_keys (or_else arg (member c "preload"))) as [keys|e]; [|done].
  destruct (negb _ || _); [done|].
  pose proof (issue_INITIAL_STATE (context c)
                (or_else arg (member c "preload")) keys w) as Hissue.
  destruct (issue _ _ keys w) as [[entries thrown] w1]. simpl in Hissue.
  pose proof (PreloadFacts.settle_frame (context c) entries w1) as Hsettle.
  destruct (settle _ entries w1) as [rejected w2]. simpl in Hsettle.
  assert (INITIAL_STATE w2 = INITIAL_STATE w) as Hglobal
    by (by rewrite Hsettle).
  by destruct thrown, rejected.
Qed.

Lemma preserves_fetchPreload I arg :
  ignores_session I -> preserves I (fetchPreload arg).
Proof.
  intros Hs c w HI. destruct (fetchPreload_frame arg c w) as [-> Hglobal].
  by apply (Hs c w).
Qed.

Lemma preserves_forEach {A} I (f : A -> M unit) l :
  (forall x, preserves I (f x)) -> preserves I (forEach f l).
Proof.
  intros Hf. induction l as [|x l IH]; simpl; [apply preserves_ret|].
  apply preserves_bind; [apply Hf|by intros _].
Qed.

Lemma preserves_combineHandlers I source :
  ignores_props ["handlers"] I -> preserves I (combineHandlers source).
Proof.
  intros Hp. apply preserves_forEach. intros key.
  unfold combine_handler, set_handler. cbv zeta. preserve.
Qed.

Lemma preserves_prepare I g :
  ignores_props ["store"; "handlers"] I -> preserves I (prepare g).
Proof.
  intros Hp. unfold prepare. preserve.
  apply preserves_combineHandlers.
  eapply ignores_props_weaken; [|exact Hp]. singleton_subset.
Qed.

Lemma preserves_render I : preserves I render.
Proof. unfold render. preserve. Qed.

(** Registering a listener touches neither the instance nor the session. *)
Lemma preserves_listen I history k hook : preserves I (listen history k hook).
Proof. unfold listen, bind_hook. preserve. Qed.

Lemma preserves_bindStoreToView I :
  ignores_props ["logger"; "unsubscribeList"; "ViewWrapper"] I ->
  ignores_session I ->
  preserves I bindStoreToView.
Proof.
  intros Hp Hs. unfold bindStoreToView, bind_on_client.
  repeat first [apply preserves_listen | preserve_step].
  apply preserves_render.
Qed.

Lemma preserves_create I :
  ignores_props ["logger"; "unsubscribeList"; "ViewWrapper"] I ->
  ignores_session I ->
  preserves I create.
Proof.
  intros Hp Hs. unfold create. preserve;
    first [by apply preserves_fetchPreload | by apply preserves_bindStoreToView].
Qed.

(** The part of [init()] that follows the snapshot keeps the hydration
    global as it is. *)
Lemma preserves_after_snapshot I g :
  ignores_props ["store"; "handlers"; "logger"; "unsubscribeList"; "ViewWrapper"] I ->
  ignores_session I ->
  preserves I (prepare g;; if truthy g then bindStoreToView else create).
Proof.
  intros Hp Hs. apply preserves_bind.
  - apply preserves_prepare.
    intros c w k v Hk. apply Hp. apply list_elem_of_In in Hk.
    apply list_elem_of_In. simpl in *. tauto.
  - intros _.
    assert (ignores_props ["logger"; "unsubscribeList"; "ViewWrapper"] I) as Hp'.
    { intros c w k v Hk. apply Hp. apply list_elem_of_In in Hk.
      apply list_elem_of_In. simpl in *. tauto. }
    destruct (truthy g);
      [by apply preserves_bindStoreToView|by apply preserves_create].
Qed.

Lemma typeof_undefined v :
  String.eqb (typeof v) "undefined" = true <-> v = VUndefined.
Proof. by destruct v. Qed.

(** Whatever [init()] does and however it completes, the hydration global
    is undefined afterwards. *)
Lemma init_clears_global c w : INITIAL_STATE (init c w).2 = VUndefined.
Proof.
  unfold init. unfold mbind at 1, M_bind at 1, bind at 1.
  assert (exists g w0, take_snapshot c w = (Normal g, c, w0)
                       /\ INITIAL_STATE w0 = VUndefined) as (g & w0 & -> & Hw0).
  { unfold take_snapshot.
    destruct (String.eqb (typeof (INITIAL_STATE w)) "undefined") eqn:E; simpl.
    - exists VUndefined, w. split; [done|]. by apply typeof_undefined.
    - by eexists _, _. }
  apply (preserves_after_snapshot (fun _ w => INITIAL_STATE w = VUndefined) g).
  - by intros ? ? ? ? _.
  - intros ? ? ? Hsame. by rewrite Hsame.
  - done.
Qed.

(** Without a snapshot [init()] is the preparation followed by [create]. *)
Lemma init_without_snapshot c w :
  INITIAL_STATE w = VUndefined ->
  init c w = (prepare VUndefined;; create) c w.
Proof.
  intros Hw. unfold init, mbind, M_bind, bind, take_snapshot. by rewrite Hw.
Qed.

End Methods.

(** The merged initial state holds every property of the snapshot that is
    not one of the computed fields. *)
Lemma merge_reads_snapshot c g k v :
  NoDup (map fst (own_props g)) ->
  lookup_prop k (own_props g) = Some v ->
  k ∉ computed_fields ->
  get (merge_initial_state c g) k = v.
Proof.
  intros Hnodup Hk Hcomputed. unfold merge_initial_state, get.
  cbn [own_props]. rewrite lookup_assign.
  - assert (lookup_prop k
              [("location", member c "location");
               ("isClient", VBool (isClient (context c)));
               ("isServer", VBool (isServer (context c)));
               ("publicPath", VStr (publicPath (context c)));
               ("restfulApi", VStr (restfulApi (context c)))] = None) as ->.
    { by apply lookup_prop_None. }
    by rewrite lookup_assign, Hk.
  - apply (bool_decide_unpack _). by vm_compute.
Qed.

(** *** The handlers *)

Lemma same_but_handlers_refl c : same_but_handlers c c.
Proof. by repeat split. Qed.

Lemma same_but_handlers_trans c1 c2 c3 :
  same_but_handlers c1 c2 -> same_but_handlers c2 c3 -> same_but_handlers c1 c3.
Proof.
  intros (? & ? & ? & H12) (? & ? & ? & H23). repeat split; try congruence.
  intros k Hk. by rewrite H23, H12.
Qed.

Lemma same_but_handlers_with_prop v c :
  same_but_handlers c (with_prop "handlers" v c).
Proof.
  repeat split. intros k Hk. simpl. by apply lookup_set_prop_ne.
Qed.

Lemma member_with_prop_eq k v c : member (with_prop k v c) k = v.
Proof. unfold member. simpl. by rewrite lookup_set_prop_eq. Qed.

Lemma member_same_but_handlers c c' k :
  same_but_handlers c c' -> k <> "handlers" -> member c' k = member c k.
Proof.
  intros (_ & _ & Hproto & Hprops) Hk. unfold member.
  by rewrite Hprops, Hproto.
Qed.

(** One round when [this.handlers] is an object. *)
Lemma combine_handler_run source key c w hs :
  member c "handlers" = VObj hs ->
  combine_handler source key c w
  = (Normal (),
     if is_handler source key
     then with_prop "handlers" (VObj (add_handler source (self c) hs key)) c
     else c,
     w).
Proof.
  intros Hhs. unfold combine_handler, add_handler. cbv zeta.
  fold (is_handler source key). destruct (is_handler source key); [|done].
  unfold set_handler, mbind, M_bind, bind, this. by rewrite Hhs.
Qed.

(** The loop of [combineHandlers] when [this.handlers] is an object: every
    round goes through, and the object ends up as the rounds leave it. *)
Lemma forEach_handlers_object source keys : forall c w hs,
  member c "handlers" = VObj hs ->
  exists c',
    forEach (combine_handler source) keys c w
    = (Normal (), c', w)
    /\ member c' "handlers" = VObj (fold_left (add_handler source (self c)) keys hs)
    /\ same_but_handlers c c'.
Proof.
  induction keys as [|key keys IH]; intros c w hs Hhs; cbn [forEach fold_left].
  - exists c. by split; [|split; [|apply same_but_handlers_refl]].
  - unfold mbind, M_bind, bind.
    rewrite (combine_handler_run source key c w hs Hhs).
    destruct (IH (if is_handler source key
                  then with_prop "handlers" (VObj (add_handler source (self c) hs key)) c
                  else c) w (add_handler source (self c) hs key))
      as (c' & Hrun & Hc' & Hsame).
    { unfold add_handler. destruct (is_handler source key); [|done].
      apply member_with_prop_eq. }
    assert (self (if is_handler source key
                  then with_prop "handlers"
                         (VObj (add_handler source (self c) hs key)) c
                  else c) = self c) as Hself
      by (by destruct (is_handler source key)).
    rewrite Hself in Hc'.
    exists c'. split; [done|]. split; [done|].
    eapply same_but_handlers_trans; [|done].
    destruct (is_handler source key);
      [apply same_but_handlers_with_prop|apply same_but_handlers_refl].
Qed.

(** When [this.handlers] is not an object, the first handler found stops
    the loop with a [TypeError]. *)
Lemma forEach_handlers_no_object source keys c w :
  (forall hs, member c "handlers" <> VObj hs) ->
  forall key, key ∈ keys -> is_handler source key = true ->
  exists e,
    forEach (combine_handler source) keys c w
    = (Throw e, c, w).
Proof.
  intros Hno key Hin Hkey.
  induction keys as [|key' keys IH]; [by apply elem_of_nil in Hin|].
  cbn [forEach]. unfold mbind, M_bind, bind.
  unfold combine_handler at 1. cbv zeta. fold (is_handler source key').
  destruct (is_handler source key') eqn:Hkey'.
  - unfold set_handler, mbind, M_bind, bind, this.
    destruct (member c "handlers") as [| | | | |hs| |] eqn:Hm; try (by eexists).
    by destruct (Hno hs).
  - apply elem_of_cons in Hin as [->|Hin]; [congruence|].
    unfold ret. by apply IH.
Qed.

(** What the rounds leave under a key. *)
Lemma fold_add_handler_lookup source thisArg keys : forall hs k,
  lookup_prop k (fold_left (add_handler source thisArg) keys hs)
  = if bool_decide (k ∈ keys) && is_handler source k
    then Some (bind_to (default VUndefined (lookup_prop k source)) thisArg)
    else lookup_prop k hs.
Proof.
  induction keys as [|key keys IH]; intros hs k; cbn [fold_left]; [done|].
  rewrite IH. unfold add_handler.
  destruct (decide (k = key)) as [->|Hne].
  - rewrite (bool_decide_eq_true_2 (key ∈ key :: keys)) by apply list_elem_of_here.
    destruct (is_handler source key) eqn:Hkey; simpl.
    + rewrite andb_true_r.
      destruct (bool_decide (key ∈ keys)); [done|]. apply lookup_set_prop_eq.
    + by rewrite andb_false_r.
  - assert (bool_decide (k ∈ key :: keys) = bool_decide (k ∈ keys)) as ->.
    { apply bool_decide_ext. rewrite elem_of_cons. tauto. }
    destruct (bool_decide (k ∈ keys) && is_handler source k); [done|].
    destruct (is_handler source key); [|done].
    by apply lookup_set_prop_ne.
Qed.

Lemma lookup_prop_elem k v ps : lookup_prop k ps = Some v -> k ∈ map fst ps.
Proof.
  intros Hk. destruct (decide (k ∈ map fst ps)) as [|Hnot]; [done|].
  apply lookup_prop_None in Hnot. congruence.
Qed.

Lemma member_with_prop_ne k k' v c :
  k <> k' -> member (with_prop k' v c) k = member c k.
Proof. intros Hne. unfold member. simpl. by rewrite lookup_set_prop_ne. Qed.

(** A key that begins with [handle] is none of [context], [store]. *)
Lemma handle_key_other k :
  String.prefix "handle" k = true -> k <> "context" /\ k <> "store".
Proof. by split; intros ->. Qed.

Section Init.
Context {U : Util} {SA : SharedActions} {UC : UserCode} {NW : Network}.

(** The loop of [combineHandlers] leaves the session alone. *)
Lemma combineHandlers_world source c w : (combineHandlers source c w).2 = w.
Proof.
  apply (preserves_combineHandlers (fun _ w' => w' = w)); [|done].
  by intros ? ? ? ? _.
Qed.

(** How [prepare] runs when it completes: the store is assigned, then the
    handlers are combined; the session is not touched. *)
Lemma prepare_run g c w c1 w1 :
  prepare g c w = (Normal (), c1, w1) ->
  exists state,
    let store :=
      createStore (VObj (assign (assign [] shareActions)
                           (own_props (member c "actions")))) state in
    let cs := with_prop "store" store c in
    w1 = w /\ combineHandlers (own_enumerable cs) cs w = (Normal (), c1, w).
Proof.
  unfold prepare, mbind, M_bind, bind, this.
  assert (exists r,
            (if truthy (member c "getInitialState")
             then call (member c "getInitialState") [merge_initial_state c g]
             else ret (merge_initial_state c g)) c w = (r, c, w)) as [r ->].
  { destruct (truthy _); [|by eexists].
    unfold call. destruct (member c "getInitialState"); by eexists. }
  destruct r as [state0|e]; [|done]. unfold lift.
  destruct (complete_api (context c) state0) as [state|e]; [|done].
  unfold set_member. intros Hrun. exists state. cbv zeta.
  fold (with_prop "store"
          (createStore (VObj (assign (assign [] shareActions)
                                (own_props (member c "actions")))) state) c) in Hrun.
  pose proof (combineHandlers_world
    (own_enumerable (with_prop "store"
       (createStore (VObj (assign (assign [] shareActions)
                             (own_props (member c "actions")))) state) c))
    (with_prop "store"
       (createStore (VObj (assign (assign [] shareActions)
                             (own_props (member c "actions")))) state) c) w) as Hw.
  rewrite Hrun in Hw. simpl in Hw. by subst w1.
Qed.

(** How [init()] runs when it is fulfilled. *)
Lemma init_run c w r c' w' :
  init c w = (Normal r, c', w') ->
  exists g w0 c1,
    take_snapshot c w = (Normal g, c, w0)
    /\ prepare g c w0 = (Normal (), c1, w0)
    /\ (if truthy g then bindStoreToView else create) c1 w0 = (Normal r, c', w').
Proof.
  unfold init. unfold mbind at 1 2, M_bind at 1 2, bind at 1 2.
  assert (exists g w0, take_snapshot c w = (Normal g, c, w0)) as (g & w0 & ->).
  { unfold take_snapshot. destruct (negb _); by eexists _, _. }
  destruct (prepare g c w0) as [[[[]|e] c1] w1] eqn:Hprep; [|done].
  intros Htail. destruct (prepare_run g c w0 c1 w1 Hprep) as (state & -> & _).
  by exists g, w0, c1.
Qed.

(** The handlers [prepare] leaves, for an instance whose own properties are
    [props c]. *)
Lemma prepare_handlers g c w c1 w1 :
  prepare g c w = (Normal (), c1, w1) ->
  self c1 = self c
  /\ (forall k f,
        lookup_prop k (props c) = Some (VFun f) ->
        String.prefix "handle" k = true ->
        exists hs, member c1 "handlers" = VObj hs
                   /\ lookup_prop k hs = Some (VFun (Bound f (self c))))
  /\ (forall hs0 hs k h,
        member c "handlers" = VObj hs0 -> member c1 "handlers" = VObj hs ->
        lookup_prop k hs = Some h ->
        lookup_prop k hs0 = Some h
        \/ exists f, lookup_prop k (props c) = Some (VFun f)
                     /\ String.prefix "handle" k = true
                     /\ h = VFun (Bound f (self c))).
Proof.
  intros Hprep. destruct (prepare_run g c w c1 w1 Hprep) as (state & _ & Hrun).
  cbv zeta in Hrun.
  set (cs := with_prop "store" _ c) in Hrun.
  set (source := own_enumerable cs) in Hrun.
  assert (forall k, String.prefix "handle" k = true ->
                    lookup_prop k source = lookup_prop k (props c)) as Hsource.
  { intros k [Hctx Hstore]%handle_key_other. unfold source, own_enumerable, cs.
    simpl. by rewrite !lookup_set_prop_ne. }
  assert (member cs "handlers" = member c "handlers") as Hcs
    by (by apply member_with_prop_ne).
  assert (self c1 = self c) as Hself1.
  { pose proof (preserves_combineHandlers (fun c' _ => self c' = self c) source
                  ltac:(by intros ? ? ? ? _) cs w eq_refl) as Hp.
    by rewrite Hrun in Hp. }
  unfold combineHandlers in Hrun.
  assert ((exists hs0, member cs "handlers" = VObj hs0)
          \/ (forall hs, member cs "handlers" <> VObj hs)) as [[hs0 Hm]|Hno].
  { destruct (member cs "handlers"); try by right. left. by eexists. }
  2: { split; [done|]. split.
       - intros k f Hk Hprefix.
         destruct (forEach_handlers_no_object source (map fst source) cs w Hno k)
           as [e He].
         + apply (lookup_prop_elem k (VFun f)). by rewrite Hsource.
         + unfold is_handler. by rewrite indexOf_zero, Hprefix, Hsource, Hk.
         + congruence.
       - intros hs0 hs k h Hold. rewrite <-Hcs in Hold. by destruct (Hno hs0). }
  destruct (forEach_handlers_object source (map fst source) cs w hs0 Hm)
    as (c1' & Hrun' & Hhs & Hsame).
  rewrite Hrun in Hrun'. assert (c1' = c1) as -> by congruence.
  destruct Hsame as (Hself & _). split; [done|]. split.
  - intros k f Hk Hprefix. exists (fold_left (add_handler source (self cs))
                                     (map fst source) hs0).
    split; [done|]. rewrite fold_add_handler_lookup.
    rewrite bool_decide_eq_true_2
      by (apply (lookup_prop_elem k (VFun f)); by rewrite Hsource).
    unfold is_handler. by rewrite indexOf_zero, Hprefix, Hsource, Hk.
  - intros hs0' hs k h Hold Hnew.
    assert (hs = fold_left (add_handler source (self cs)) (map fst source) hs0)
      as -> by congruence.
    assert (hs0' = hs0) as -> by congruence.
    rewrite fold_add_handler_lookup.
    destruct (bool_decide (k ∈ map fst source) && is_handler source k) eqn:Hk;
      [|by left].
    apply andb_true_iff in Hk as [_ Hk]. unfold is_handler in Hk.
    apply andb_true_iff in Hk as [Hprefix Hfun].
    rewrite indexOf_zero in Hprefix. rewrite Hsource in Hfun |- * by done.
    destruct (lookup_prop k (props c)) as [[| | | | | |f|]|]; try done.
    intros [= <-]. right. by exists f.
Qed.

(** What follows the preparation does not touch the handlers. *)
Lemma tail_keeps_handlers g c w :
  member ((if truthy g then bindStoreToView else create) c w).1.2 "handlers"
  = member c "handlers".
Proof.
  assert (preserves (fun c' _ => member c' "handlers" = member c "handlers")
            (if truthy g then bindStoreToView else create)) as Hp.
  { assert (ignores_props ["logger"; "unsubscribeList"; "ViewWrapper"]
              (fun c' (_ : World) => member c' "handlers" = member c "handlers"))
      as Hprops.
    { intros c0 w0 k v Hk Hc0. rewrite member_with_prop_ne; [done|].
      intros <-. apply list_elem_of_In in Hk. simpl in Hk.
      by destruct Hk as [|[|[|]]]. }
    destruct (truthy g);
      [apply preserves_bindStoreToView|apply preserves_create];
      first [exact Hprops|by intros ? ? ? _]. }
  by apply Hp.
Qed.

(** C5 (amended): once [init()] is fulfilled, [this.handlers] holds an entry
    for every own enumerable property of the instance whose name begins with
    [handle] and whose value is a function (members inherited from the
    class, methods that is, are not looked at); the entry is that function
    bound to the instance: whatever it is called on, it runs as the function
    does when it is called on the instance, that is with the instance as
    [this] for an ordinary function; an arrow function keeps the [this] it
    closes over (the instance, when it is a property the class declares),
    and a function that was bound already the [this] of its first binding;
    and [init()] stores nothing else in [this.handlers]. *)
Theorem init_binds_own_handlers c w r :
  (init c w).1.1 = Normal r ->
  let c' := (init c w).1.2 in
  (forall k f,
     lookup_prop k (props c) = Some (VFun f) ->
     String.prefix "handle" k = true ->
     exists hs, member c' "handlers" = VObj hs
                /\ lookup_prop k hs = Some (VFun (Bound f (self c)))
                /\ (forall receiver,
                      this_of (Bound f (self c)) receiver = this_of f (self c))
                /\ (forall name, f = Fn name ->
                    forall receiver, this_of (Bound f (self c)) receiver = self c)
                /\ (forall name this, f = Arrow name this ->
                    forall receiver, this_of (Bound f (self c)) receiver = this)
                /\ (forall target this, f = Bound target this ->
                    forall receiver,
                      this_of (Bound f (self c)) receiver = this_of target this))
  /\ (forall hs0 hs k h,
        member c "handlers" = VObj hs0 -> member c' "handlers" = VObj hs ->
        lookup_prop k hs = Some h ->
        lookup_prop k hs0 = Some h
        \/ exists f, lookup_prop k (props c) = Some (VFun f)
                     /\ String.prefix "handle" k = true
                     /\ h = VFun (Bound f (self c))).
Proof.
  intros Hr c'.
  destruct (init c w) as [[res c''] w''] eqn:Hinit. simpl in Hr, c'. subst res.
  destruct (init_run c w r c'' w'' Hinit) as (g & w0 & c1 & _ & Hprep & Htail).
  destruct (prepare_handlers g c w0 c1 w0 Hprep) as (_ & Hall & Honly).
  pose proof (tail_keeps_handlers g c1 w0) as Hkeep.
  rewrite Htail in Hkeep. simpl in Hkeep. subst c'. split.
  - intros k f Hk Hprefix. destruct (Hall k f Hk Hprefix) as (hs & Hhs & Hlook).
    exists hs. rewrite Hkeep. split; [done|]. split; [done|].
    split; [done|]. split; [by intros name -> receiver|].
    split; [by intros name this -> receiver|].
    by intros target this -> receiver.
  - intros hs0 hs k h Hold Hnew. rewrite Hkeep in Hnew. by eapply Honly.
Qed.

(** C2: when no hydration snapshot is there, [init()] gets as far as the
    [shouldComponentCreate] hook and the hook resolves to [false], then
    [init()] resolves to [null]; the store has been created from the merged
    actions and assigned to [this.store]; and the session is exactly as it
    was: [bindStoreToView] was not called, nothing was fetched. *)
Theorem init_refused_by_hook c w f :
  INITIAL_STATE w = VUndefined ->
  (prepare VUndefined c w).1.1 = Normal () ->
  member c "shouldComponentCreate" = VFun f ->
  invoke f (self c) [] = Normal (VBool false) ->
  (init c w).1.1 = Normal VNull
  /\ (init c w).2 = w
  /\ (BindStoreToView (self c) ∉ drop (length (trace w)) (trace (init c w).2))
  /\ (exists state,
        member (init c w).1.2 "store"
        = createStore (VObj (assign (assign [] shareActions)
                               (own_props (member c "actions")))) state).
Proof.
  intros Hw Hprep Hhook Hfalse.
  destruct (prepare VUndefined c w) as [[res c1] w1] eqn:Hrun.
  simpl in Hprep. subst res.
  pose proof (preserves_prepare
                (fun c' _ => self c' = self c
                             /\ member c' "shouldComponentCreate" = VFun f)
                VUndefined) as Hkeep.
  destruct (Hkeep ltac:(
    intros c0 w0 k v Hk [Hself Hm]; split; [done|];
    rewrite member_with_prop_ne; [done|];
    intros <-; apply list_elem_of_In in Hk; simpl in Hk;
    by destruct Hk as [|[|]]) c w (conj eq_refl Hhook)) as [Hself1 Hhook1].
  rewrite Hrun in Hself1, Hhook1. simpl in Hself1, Hhook1.
  destruct (prepare_run VUndefined c w c1 w1 Hrun) as (state & -> & Hcombine).
  cbv zeta in Hcombine.
  assert (create c1 w = (Normal VNull, c1, w)) as Hcreate.
  { unfold create, mbind, M_bind, bind, this. rewrite Hhook1.
    cbn [truthy call]. by rewrite Hself1, Hfalse. }
  assert (init c w = (Normal VNull, c1, w)) as ->.
  { rewrite init_without_snapshot by done.
    unfold mbind, M_bind, bind. by rewrite Hrun. }
  simpl. split; [done|]. split; [done|]. split.
  - rewrite drop_all. apply not_elem_of_nil.
  - exists state.
    pose proof (preserves_combineHandlers
      (fun c' _ => member c' "store"
         = createStore (VObj (assign (assign [] shareActions)
                                (own_props (member c "actions")))) state)
      (own_enumerable (with_prop "store"
         (createStore (VObj (assign (assign [] shareActions)
                               (own_props (member c "actions")))) state) c))
      ltac:(intros c0 w0 k v Hk Hm; rewrite member_with_prop_ne; [done|];
            intros <-; apply list_elem_of_In in Hk; simpl in Hk;
            by destruct Hk as [|])
      (with_prop "store"
         (createStore (VObj (assign (assign [] shareActions)
                               (own_props (member c "actions")))) state) c)
      w (member_with_prop_eq _ _ _)) as Hstore.
    by rewrite Hcombine in Hstore.
Qed.

(** [combineHandlers] and what follows the preparation leave the store
    where it is. *)
Lemma combineHandlers_keeps_store source c w :
  member (combineHandlers source c w).1.2 "store" = member c "store".
Proof.
  apply (preserves_combineHandlers
           (fun c' _ => member c' "store" = member c "store")); [|done].
  intros c0 w0 k v Hk Hm. rewrite member_with_prop_ne; [done|].
  intros <-. apply list_elem_of_In in Hk. simpl in Hk. by destruct Hk as [|].
Qed.

Lemma tail_keeps_store g c w :
  member ((if truthy g then bindStoreToView else create) c w).1.2 "store"
  = member c "store".
Proof.
  assert (preserves (fun c' _ => member c' "store" = member c "store")
            (if truthy g then bindStoreToView else create)) as Hp.
  { assert (ignores_props ["logger"; "unsubscribeList"; "ViewWrapper"]
              (fun c' (_ : World) => member c' "store" = member c "store"))
      as Hprops.
    { intros c0 w0 k v Hk Hc0. rewrite member_with_prop_ne; [done|].
      intros <-. apply list_elem_of_In in Hk. simpl in Hk.
      by destruct Hk as [|[|[|]]]. }
    destruct (truthy g);
      [apply preserves_bindStoreToView|apply preserves_create];
      first [exact Hprops|by intros ? ? ? _]. }
  by apply Hp.
Qed.

(** The store [prepare] creates: its state is the merged initial state,
    passed through [getInitialState] when the class has one, with its [api]
    completed. *)
Lemma prepare_store g c w c1 w1 :
  prepare g c w = (Normal (), c1, w1) ->
  exists state0 state,
    ((truthy (member c "getInitialState") = false
      /\ state0 = merge_initial_state c g)
     \/ (exists f, member c "getInitialState" = VFun f
                   /\ invoke f (self c) [merge_initial_state c g] = Normal state0))
    /\ complete_api (context c) state0 = Normal state
    /\ member c1 "store"
       = createStore (VObj (assign (assign [] shareActions)
                              (own_props (member c "actions")))) state.
Proof.
  unfold prepare, mbind, M_bind, bind, this.
  assert (exists r,
            (if truthy (member c "getInitialState")
             then call (member c "getInitialState") [merge_initial_state c g]
             else ret (merge_initial_state c g)) c w = (r, c, w)
            /\ forall state0, r = Normal state0 ->
                  (truthy (member c "getInitialState") = false
                   /\ state0 = merge_initial_state c g)
                  \/ (exists f, member c "getInitialState" = VFun f
                                /\ invoke f (self c) [merge_initial_state c g]
                                   = Normal state0)) as (r & -> & Hr).
  { destruct (truthy (member c "getInitialState")) eqn:Hhook.
    - unfold call. destruct (member c "getInitialState") as [| | | | | |f|];
        try (eexists; split; [done|]; by intros ? [=]).
      eexists. split; [done|]. intros state0 Hstate0. right. by exists f.
    - eexists. split; [done|]. intros state0 [= <-]. by left. }
  destruct r as [state0|e]; [|done]. unfold lift.
  destruct (complete_api (context c) state0) as [state|e] eqn:Hapi; [|done].
  unfold set_member. intros Hrun. exists state0, state.
  split; [by apply Hr|]. split; [done|].
  fold (with_prop "store"
          (createStore (VObj (assign (assign [] shareActions)
                                (own_props (member c "actions")))) state) c) in Hrun.
  pose proof (combineHandlers_keeps_store
    (own_enumerable (with_prop "store"
       (createStore (VObj (assign (assign [] shareActions)
                             (own_props (member c "actions")))) state) c))
    (with_prop "store"
       (createStore (VObj (assign (assign [] shareActions)
                             (own_props (member c "actions")))) state) c) w) as Hstore.
  rewrite Hrun in Hstore. simpl in Hstore.
  by rewrite Hstore, member_with_prop_eq.
Qed.

(** The completion of [api] leaves every other field of the state alone. *)
Lemma complete_api_other ctx state0 state k :
  complete_api ctx state0 = Normal state -> k <> "api" ->
  get state k = get state0 k.
Proof.
  unfold complete_api. destruct (read state0 "api") as [api|e]; [|done].
  destruct (truthy api); [|by intros [= <-]].
  destruct (Object_keys api) as [keys|e]; [|done].
  destruct (complete_urls ctx api keys []) as [result|e]; [|done].
  destruct state0 as [| | | | |ps| |]; try done.
  intros [= <-] Hk. unfold get. cbn [own_props].
  by rewrite lookup_set_prop_ne.
Qed.

(** C3: when [init()] runs while the hydration global is defined, it reads
    the snapshot and clears the global before anything else: the rest of
    [init()] runs in a session without it. The snapshot goes into the merged
    initial state, and from there into the store: once [init()] is
    fulfilled, [this.store] is the store created from the merged initial
    state (passed through [getInitialState] when the class has one, its
    [api] completed), so that, without [getInitialState], every field of the
    snapshot that is neither computed nor [api] is in the state of the
    store. The global is still undefined when [init()] is over, however it
    completes, and any [init()] that follows reads no snapshot and goes
    through [create], the way of a page that was not hydrated. *)
Theorem init_consumes_snapshot c w :
  INITIAL_STATE w <> VUndefined ->
  let g := INITIAL_STATE w in
  init c w
  = (prepare g;; if truthy g then bindStoreToView else create)
      c (set_INITIAL_STATE VUndefined w)
  /\ (forall r, (init c w).1.1 = Normal r ->
        exists state0 state,
          ((truthy (member c "getInitialState") = false
            /\ state0 = merge_initial_state c g)
           \/ (exists f, member c "getInitialState" = VFun f
                         /\ invoke f (self c) [merge_initial_state c g]
                            = Normal state0))
          /\ complete_api (context c) state0 = Normal state
          /\ member (init c w).1.2 "store"
             = createStore (VObj (assign (assign [] shareActions)
                                    (own_props (member c "actions")))) state
          /\ getState (member (init c w).1.2 "store") = Normal state
          /\ (truthy (member c "getInitialState") = false ->
              NoDup (map fst (own_props g)) ->
              forall k v, lookup_prop k (own_props g) = Some v ->
                          k ∉ computed_fields -> k <> "api" ->
                          get state k = v))
  /\ (NoDup (map fst (own_props g)) ->
      forall k v, lookup_prop k (own_props g) = Some v -> k ∉ computed_fields ->
                  get (merge_initial_state c g) k = v)
  /\ INITIAL_STATE (init c w).2 = VUndefined
  /\ (forall c2,
        take_snapshot c2 (init c w).2 = (Normal VUndefined, c2, (init c w).2)
        /\ init c2 (init c w).2 = (prepare VUndefined;; create) c2 (init c w).2
        /\ INITIAL_STATE (init c2 (init c w).2).2 = VUndefined).
Proof.
  intros Hdefined g.
  assert (take_snapshot c w = (Normal g, c, set_INITIAL_STATE VUndefined w))
    as Hsnap.
  { unfold take_snapshot.
    destruct (String.eqb (typeof (INITIAL_STATE w)) "undefined") eqn:E; [|done].
    by apply typeof_undefined in E. }
  split; [|split; [|split; [|split]]].
  - unfold init at 1, mbind at 1, M_bind at 1, bind at 1. by rewrite Hsnap.
  - intros r Hr.
    destruct (init c w) as [[res c'] w'] eqn:Hinit. simpl in Hr. subst res.
    destruct (init_run c w r c' w' Hinit) as (g' & w0 & c1 & Hsnap' & Hprep & Htail).
    rewrite Hsnap in Hsnap'. injection Hsnap' as <- <-.
    destruct (prepare_store g c _ c1 _ Hprep) as (state0 & state & Hhook & Hapi & Hstore).
    pose proof (tail_keeps_store g c1 (set_INITIAL_STATE VUndefined w)) as Hkeep.
    rewrite Htail in Hkeep. cbn [fst snd] in Hkeep |- *.
    exists state0, state. split; [done|]. split; [done|].
    split; [by rewrite Hkeep|]. split; [by rewrite Hkeep, Hstore|].
    intros Hnone Hnodup k v Hk Hcomputed Hnotapi.
    destruct Hhook as [[_ ->]|(f & Hf & _)]; [|by rewrite Hf in Hnone].
    rewrite (complete_api_other _ _ _ k Hapi Hnotapi).
    by apply merge_reads_snapshot.
  - intros Hnodup k v. by apply merge_reads_snapshot.
  - apply init_clears_global.
  - intros c2. pose proof (init_clears_global c w) as Hclear.
    split; [|split].
    + unfold take_snapshot. by rewrite Hclear.
    + by apply init_without_snapshot.
    + apply init_clears_global.
Qed.

End Init.

(** [init_consumes_snapshot] at work on a server-rendered page whose
    snapshot holds [count: 5]: the store starts from it, though the class
    declares [count: 0]; the next [init()] finds no snapshot. *)
Lemma init_consumes_snapshot_witness :
  let c := Sample.with_own_handler Sample.client in
  let w := Sample.hydrating in
  let run := init (U := Sample.util) (SA := Sample.no_shared_actions)
               (UC := Sample.quiet) (NW := Sample.empty_bodies) in
  INITIAL_STATE w <> VUndefined
  /\ (exists state, getState (member (run c w).1.2 "store") = Normal state
                    /\ get state "count" = VNum 5)
  /\ get (merge_initial_state c (INITIAL_STATE w)) "count" = VNum 5
  /\ INITIAL_STATE (run c w).2 = VUndefined
  /\ run c (run c w).2
     = (prepare (U := Sample.util) (SA := Sample.no_shared_actions)
          (UC := Sample.quiet) VUndefined;;
        create (U := Sample.util) (UC := Sample.quiet)
          (NW := Sample.empty_bodies)) c (run c w).2.
Proof.
  intros c w run.
  assert (INITIAL_STATE w <> VUndefined) as Hdefined by done.
  destruct (init_consumes_snapshot (U := Sample.util)
              (SA := Sample.no_shared_actions) (UC := Sample.quiet)
              (NW := Sample.empty_bodies) c w Hdefined)
    as (_ & Hstore & Hmerge & Hclear & Hnext).
  assert (NoDup (map fst (own_props (INITIAL_STATE w)))) as Hnodup
    by (apply (bool_decide_unpack _); by vm_compute).
  assert ("count" ∉ computed_fields) as Hcount
    by (apply (bool_decide_unpack _); by vm_compute).
  assert (exists r, (run c w).1.1 = Normal r) as [r Hr]
    by (eexists; by vm_compute).
  split; [done|]. split; [|split; [|split; [done|]]].
  - destruct (Hstore r Hr) as (state0 & state & _ & _ & _ & Hstate & Hfields).
    exists state. split; [exact Hstate|].
    by apply (Hfields eq_refl Hnodup "count" (VNum 5) eq_refl Hcount).
  - by apply Hmerge.
  - by destruct (Hnext c) as (_ & ? & _).
Defined.

(** C5, as stated, fails for a handler the class declares as a method: it
    is a member of the controller, a function, its name begins with
    [handle], [init()] is fulfilled, and [this.handlers] has no entry for
    it. *)
Lemma init_method_handler_counterexample :
  let c := Sample.with_method_handler Sample.client in
  let run := init (U := Sample.util) (SA := Sample.no_shared_actions)
               (UC := Sample.quiet) (NW := Sample.empty_bodies) in
  member c "handleClick" = VFun (Fn "handleClick")
  /\ String.prefix "handle" "handleClick" = true
  /\ (exists r, (run c Sample.fresh).1.1 = Normal r)
  /\ get (member (run c Sample.fresh).1.2 "handlers") "handleClick" = VUndefined.
Proof.
  intros c run. split; [done|]. split; [done|]. split; [|by vm_compute].
  eexists. by vm_compute.
Qed.

(** [init_binds_own_handlers] at work: the handler declared as an instance
    property and the one of the base class are bound to the instance. *)
Lemma init_binds_own_handlers_witness :
  let c := Sample.with_own_handler Sample.client in
  let run := init (U := Sample.util) (SA := Sample.no_shared_actions)
               (UC := Sample.quiet) (NW := Sample.empty_bodies) in
  exists hs,
    member (run c Sample.fresh).1.2 "handlers" = VObj hs
    /\ lookup_prop "handleClick" hs = Some (VFun (Bound (Fn "handleClick") 1%nat))
    /\ lookup_prop "handleInputChange" hs
       = Some (VFun (Bound (Arrow "handleInputChange" 1%nat) 1%nat))
    /\ this_of (Bound (Fn "handleClick") 1%nat) 7%nat = 1%nat.
Proof.
  intros c run.
  assert (exists r, (run c Sample.fresh).1.1 = Normal r) as [r Hr]
    by (eexists; by vm_compute).
  destruct (init_binds_own_handlers (U := Sample.util)
              (SA := Sample.no_shared_actions) (UC := Sample.quiet)
              (NW := Sample.empty_bodies) c Sample.fresh r Hr) as [Hall _].
  destruct (Hall "handleClick" (Fn "handleClick") eq_refl eq_refl)
    as (hs & Hhs & Hlook & _ & Hthis & _).
  destruct (Hall "handleInputChange" (Arrow "handleInputChange" 1%nat)
              eq_refl eq_refl)
    as (hs' & Hhs' & Hlook' & _).
  assert (hs' = hs) as -> by congruence.
  exists hs. split; [done|]. split; [done|]. split; [done|].
  exact (Hthis "handleClick" eq_refl 7%nat).
Defined.

(** [init_refused_by_hook] at work on the server: the hook answers [false],
    [init()] resolves to [null], the store is there. *)
Lemma init_refused_by_hook_witness :
  let c := Sample.guarded Sample.server in
  let run := init (U := Sample.util) (SA := Sample.no_shared_actions)
               (UC := Sample.refusing) (NW := Sample.empty_bodies) in
  (run c Sample.fresh).1.1 = Normal VNull
  /\ (run c Sample.fresh).2 = Sample.fresh
  /\ exists state,
       member (run c Sample.fresh).1.2 "store" = createStore (VObj []) state.
Proof.
  intros c run.
  destruct (init_refused_by_hook (U := Sample.util)
              (SA := Sample.no_shared_actions) (UC := Sample.refusing)
              (NW := Sample.empty_bodies) c Sample.fresh
              (Fn "shouldComponentCreate") eq_refl eq_refl eq_refl eq_refl)
    as (Hnull & Hsame & _ & Hstore).
  by repeat split.
Defined.

End InitFacts.

(* ===================================================================== *)
(** * Further properties of the code                                      *)
(* ===================================================================== *)

(** ** bin/www *)

Module ListenFacts.
Import JsString JsNumber Js Bootstrap Listen Spec JsStringFacts.

(** X1: [normalizePort] is idempotent as long as the port is below [2^53]:
    normalising a value that was already normalised changes nothing. It is
    not idempotent beyond: the numeral of [10^21] is normalised to the number
    [10^21], which prints as [1e+21] and is normalised to [1]. *)
Theorem normalizePort_idempotent (val : value) :
  ((forall n : Z, normalizePort val = VNum n -> n < 2 ^ 53) ->
   normalizePort (normalizePort val) = normalizePort val)
  /\ normalizePort (VStr "1000000000000000000000") = VNum (10 ^ 21)
  /\ normalizePort (VNum (10 ^ 21)) = VNum 1.
Proof.
  split; [|by vm_compute].
  intros Hsafe. unfold normalizePort at 2 3.
  destruct (parseInt (ToString val)) as [port|negative|] eqn:Hparse.
  - destruct (Z.leb_spec 0 port) as [Hpos|Hneg]; cbn [is_nonnegative].
    + destruct (Z.leb_spec 0 port); [|lia].
      assert (port < 2 ^ 53) as Hport.
      { apply Hsafe. unfold normalizePort. rewrite Hparse. cbn [is_nonnegative].
        by destruct (Z.leb_spec 0 port); [|lia]. }
      rewrite (BootstrapFacts.normalizePort_integer (VNum port) port).
      * destruct (Z.leb_spec 0 port); [|lia].
        by rewrite BootstrapFacts.to_number_safe by lia.
      * cbn [ToString]. rewrite BootstrapFacts.Number_toString_safe by lia.
        apply BootstrapFacts.parseInt_pretty.
    + by destruct (Z.leb_spec 0 port); [lia|].
  - by destruct negative.
  - unfold normalizePort. by rewrite Hparse.
Qed.

(** [normalizePort_idempotent] at work on a port given with white space. *)
Lemma normalizePort_idempotent_witness :
  normalizePort (VStr " 8080") = VNum 8080
  /\ normalizePort (normalizePort (VStr " 8080")) = normalizePort (VStr " 8080").
Proof.
  split; [reflexivity|].
  destruct (normalizePort_idempotent (VStr " 8080")) as [Hidem _].
  apply Hidem. intros n Hn. vm_compute in Hn. injection Hn as <-. reflexivity.
Defined.

(** X2: for a string, [normalizePort] never yields a negative number: a
    number it yields is not negative, and it is the number nearest to the
    integer the string begins with. *)
Theorem normalizePort_never_negative (s : string) (x : number) :
  normalizePort (VStr s) = VNum x ->
  is_nonnegative x = true
  /\ exists n, leading_integer s = Some n /\ x = to_number n.
Proof.
  unfold normalizePort, parseInt. cbn [ToString].
  destruct (leading_integer s) as [n|]; [|done].
  destruct (BootstrapFacts.to_number_sign n) as [Hnan Hsign].
  destruct (to_number n) as [port|negative|] eqn:Hn; [| |done].
  - destruct (is_nonnegative port) eqn:Hport; [|done].
    intros [= <-]. split; [done|]. by exists n.
  - destruct (is_nonnegative (Infinity negative)) eqn:Hport; [|done].
    intros [= <-]. split; [done|]. by exists n.
Qed.

(** [normalizePort_never_negative] at work on the port [8080]. *)
Lemma normalizePort_never_negative_witness :
  normalizePort (VStr "8080") = VNum 8080
  /\ exists n, leading_integer "8080" = Some n /\ Int 8080 = to_number n.
Proof.
  split; [reflexivity|].
  by destruct (normalizePort_never_negative "8080" 8080 eq_refl) as [_ Hn].
Defined.

(** X3: whatever URL the patched [fetch] is given, the URL it hands to the
    underlying [fetch] does not begin with [/]. *)
Theorem global_fetch_never_root_relative {Options Response : Type} (port : value)
    (underlying : string -> Options -> Response) (url : string) (options : Options) :
  exists url',
    global_fetch port underlying url options = underlying url' options
    /\ String.prefix "/" url' = false.
Proof.
  unfold global_fetch. rewrite indexOf_zero.
  destruct (String.prefix "/" url) eqn:Hroot.
  - by eexists.
  - by exists url.
Qed.

(** X4: [onError] ends the process, with status 1 and after exactly one
    line on [console.error], when the error is a [listen] error with code
    [EACCES] or [EADDRINUSE]; any other error is thrown again as it is and
    nothing is printed. It never returns. *)
Theorem onError_exits_or_rethrows (port error : value) :
  (is_listen_failure error = true ->
     (onError port error).2 = Exited 1
     /\ exists line, (onError port error).1 = [ErrorLine line])
  /\ (is_listen_failure error = false -> error <> VUndefined -> error <> VNull ->
       onError port error = ([], Thrown error))
  /\ (onError port error).2 <> Returned.
Proof.
  assert (error <> VUndefined -> error <> VNull ->
          onError port error
          = if negb (is_string (get error "syscall") "listen")
            then ([], Thrown error)
            else if is_string (get error "code") "EACCES"
            then ([ErrorLine ((if String.eqb (typeof port) "string"
                               then "Pipe " +:+ ToString port
                               else "Port " +:+ ToString port)
                              +:+ " requires elevated privileges")], Exited 1)
            else if is_string (get error "code") "EADDRINUSE"
            then ([ErrorLine ((if String.eqb (typeof port) "string"
                               then "Pipe " +:+ ToString port
                               else "Port " +:+ ToString port)
                              +:+ " is already in use")], Exited 1)
            else ([], Thrown error)) as Hbody
    by (intros; by destruct error).
  unfold is_listen_failure. split; [|split].
  - intros Hfail.
    assert (error <> VUndefined /\ error <> VNull) as [Hdef Hnonnull]
      by (split; intros ->; discriminate Hfail).
    rewrite Hbody by done.
    apply andb_true_iff in Hfail as [-> Hcode]. simpl negb. cbv iota.
    destruct (is_string (get error "code") "EACCES"); [by eauto|].
    simpl in Hcode. rewrite Hcode. by eauto.
  - intros Hother Hdef Hnonnull. rewrite Hbody by done.
    destruct (is_string (get error "syscall") "listen"); [|done].
    simpl in Hother. apply orb_false_iff in Hother as [-> ->]. done.
  - assert (error = VUndefined \/ error = VNull
            \/ (error <> VUndefined /\ error <> VNull))
      as [->|[->|[Hdef Hnonnull]]] by (destruct error; auto); [done..|].
    rewrite Hbody by done.
    destruct (is_string (get error "syscall") "listen"); [|done].
    destruct (is_string (get error "code") "EACCES"); [done|].
    by destruct (is_string (get error "code") "EADDRINUSE").
Qed.

(** [onError_exits_or_rethrows] at work: the address is in use; and an
    error that is no listen error. *)
Lemma onError_exits_or_rethrows_witness :
  let in_use := VObj [("syscall", VStr "listen"); ("code", VStr "EADDRINUSE")] in
  let other := VObj [("syscall", VStr "read"); ("code", VStr "ECONNRESET")] in
  (onError (VNum 3000) in_use).2 = Exited 1
  /\ onError (VNum 3000) other = ([], Thrown other).
Proof.
  intros in_use other.
  destruct (onError_exits_or_rethrows (VNum 3000) in_use) as [Hexit _].
  destruct (onError_exits_or_rethrows (VNum 3000) other) as (_ & Hthrow & _).
  split; [by destruct (Hexit eq_refl)|by apply Hthrow].
Defined.

(** X5: the message of [onError] names what [normalizePort] made of the
    port: a string without a leading numeral is reported as the pipe of that
    name, a string that begins with the numeral of a port below [2^53] as
    that port, and a negative numeral as [Port false]. *)
Theorem onError_names_the_port (code msg : string) :
  let error := VObj [("syscall", VStr "listen"); ("code", VStr code)] in
  (code = "EACCES" /\ msg = " requires elevated privileges")
  \/ (code = "EADDRINUSE" /\ msg = " is already in use") ->
  (forall s, starts_with_digit (after_sign s) = false ->
     onError (normalizePort (VStr s)) error
     = ([ErrorLine (("Pipe " +:+ s) +:+ msg)], Exited 1))
  /\ (forall n rest, 0 <= n < 2 ^ 53 -> starts_with_digit rest = false ->
        onError (normalizePort (VStr (pretty n +:+ rest))) error
        = ([ErrorLine (("Port " +:+ pretty n) +:+ msg)], Exited 1))
  /\ (forall n, n < 0 ->
        onError (normalizePort (VStr (pretty n))) error
        = ([ErrorLine ("Port false" +:+ msg)], Exited 1)).
Proof.
  intros error Hcode. split; [|split].
  - intros s Hs. unfold normalizePort. cbn [ToString].
    rewrite BootstrapFacts.parseInt_after_sign by done.
    by destruct Hcode as [[-> ->]|[-> ->]].
  - intros n rest Hn Hrest.
    rewrite (BootstrapFacts.normalizePort_integer (VStr (pretty n +:+ rest)) n)
      by (by apply BootstrapFacts.parseInt_pretty_Z).
    destruct (Z.leb_spec 0 n); [|lia].
    rewrite BootstrapFacts.to_number_safe by lia.
    unfold onError, error. cbn [get own_props lookup_prop String.eqb Ascii.eqb
      Bool.eqb default is_string negb typeof andb].
    cbn [ToString]. rewrite BootstrapFacts.Number_toString_safe by lia.
    by destruct Hcode as [[-> ->]|[-> ->]].
  - intros n Hn.
    rewrite (BootstrapFacts.normalizePort_integer (VStr (pretty n)) n)
      by apply BootstrapFacts.parseInt_pretty.
    destruct (Z.leb_spec 0 n); [lia|].
    by destruct Hcode as [[-> ->]|[-> ->]].
Qed.

(** [onError_names_the_port] at work: a named pipe and the port [3000]. *)
Lemma onError_names_the_port_witness :
  let error := VObj [("syscall", VStr "listen"); ("code", VStr "EACCES")] in
  onError (normalizePort (VStr "/tmp/app.sock")) error
  = ([ErrorLine "Pipe /tmp/app.sock requires elevated privileges"], Exited 1)
  /\ onError (normalizePort (VStr "3000")) error
     = ([ErrorLine "Port 3000 requires elevated privileges"], Exited 1).
Proof.
  intros error.
  destruct (onError_names_the_port "EACCES" " requires elevated privileges"
              (or_introl (conj eq_refl eq_refl))) as (Hpipe & Hport & _).
  split; [by apply Hpipe|].
  exact (Hport 3000 "" ltac:(lia) eq_refl).
Defined.

End ListenFacts.

(** ** build/setup-dev-env.js *)

Module DevServerMoreFacts.
Import JsString JsNumber Js DevServer.

(** [setupServer_hot_modules] at work on three rebuilds: the first exports
    an application, the second throws, the third exports another one. *)
Lemma setupServer_hot_modules_witness :
  let quiet := {| errors := []; warnings := [] |} in
  let noisy := {| errors := [VStr "Module not found"]; warnings := [] |} in
  let app1 := VFun (Fn "app1") in
  let app2 := VFun (Fn "app2") in
  let rebuilds :=
    [(VNull, quiet, Compiled (Exports (VObj [("default", app1)])));
     (VNull, noisy, Compiled (Throws (VStr "ReferenceError")));
     (VNull, quiet, Compiled (Exports app2))] in
  hot_modules (setupServer rebuilds).2 = [app1; app2]
  /\ exists e, (on_build VNull quiet (Uncompilable (VStr "SyntaxError"))).1 = Throw e.
Proof.
  intros quiet noisy app1 app2 rebuilds.
  destruct (DevServerFacts.setupServer_hot_modules rebuilds) as [Hran Hfails].
  destruct (Hran eq_refl) as [Hmodules _].
  split; [exact Hmodules|].
  destruct (Hfails VNull quiet (VStr "SyntaxError")
              (Uncompilable (VStr "SyntaxError")) (or_intror eq_refl))
    as [Hthrows _].
  exact Hthrows.
Defined.

(** X7: the errors and warnings a build reports never decide what the
    callback does next: how it completes and what it hands to
    [handleHotModule] are the same whatever the statistics hold; and, unless
    the compiler itself failed, every reported error reaches
    [console.error] and every warning [console.warn]. *)
Theorem build_errors_do_not_block err stats stats' ev :
  (on_rebuild err stats ev).1 = (on_rebuild err stats' ev).1
  /\ hot_modules (on_rebuild err stats ev).2
     = hot_modules (on_rebuild err stats' ev).2
  /\ (truthy err = false ->
      (forall e, e ∈ errors stats -> ConsoleError e ∈ (on_rebuild err stats ev).2)
      /\ (forall w, w ∈ warnings stats ->
                    ConsoleWarn w ∈ (on_rebuild err stats ev).2)).
Proof.
  split; [|split].
  - unfold on_rebuild. destruct (truthy err); [done|].
    destruct (load_module ev) as [newModule evaluated].
    by destruct (truthy newModule).
  - by rewrite !DevServerFacts.hot_modules_on_rebuild.
  - intros Herr. unfold on_rebuild. rewrite Herr.
    destruct (load_module ev) as [newModule evaluated].
    split; intros x Hx; destruct (truthy newModule); simpl;
      rewrite !elem_of_app, !list_elem_of_fmap; eauto 6.
Qed.

(** [build_errors_do_not_block] at work: a build with an error whose output
    still evaluates. *)
Lemma build_errors_do_not_block_witness :
  let noisy := {| errors := [VStr "Module not found"]; warnings := [] |} in
  let app := VFun (Fn "app") in
  hot_modules (on_rebuild VNull noisy (Exports app)).2 = [app]
  /\ ConsoleError (VStr "Module not found")
     ∈ (on_rebuild VNull noisy (Exports app)).2.
Proof.
  intros noisy app.
  destruct (build_errors_do_not_block VNull noisy
              {| errors := []; warnings := [] |} (Exports app))
    as (_ & Hsame & Hlogged).
  split; [by rewrite Hsame|].
  destruct (Hlogged eq_refl) as [Herrors _].
  apply Herrors. apply list_elem_of_here.
Defined.

End DevServerMoreFacts.

(** ** The Controller: [fetch] *)

Module FetchFacts.
Import JsString JsNumber Js Controller Fetch Spec JsStringFacts.

Lemma default_options_defined options : default_options options <> VUndefined.
Proof. by destruct options. Qed.

Lemma default_options_null options :
  default_options options = VNull <-> options = VNull.
Proof. by destruct options. Qed.

(** [finalOptions] of options that are there. *)
Lemma final_options_defined ctx options :
  options <> VUndefined -> options <> VNull ->
  final_options ctx options
  = Normal (VObj (set_prop "headers"
       (VObj (if isServer ctx
              then set_prop "Cookie" (VStr (cookie ctx))
                     (assign default_headers (own_props (get options "headers")))
              else assign default_headers (own_props (get options "headers"))))
       (assign [("method", VStr "GET"); ("credentials", VStr "include")]
               (own_props options)))).
Proof. intros Hu Hn. unfold final_options. by destruct options. Qed.

Section WithPlatform.
Context {U : Util} {P : Platform}.

(** X8: called with a URL that is a string, [fetch] throws, rather than
    returning a promise, for [null] options and for nothing else (the
    default [{}] stands in for [undefined] only); then nothing is sent. In
    every other case the call returns a promise and hands exactly one request
    to the platform, for the URL completed by [prependRestfulBasename],
    whatever the response and the timer do afterwards; the instance and the
    rest of the session are not touched. *)
Theorem fetch_throws_on_null_only url options c w :
  match fetch url options c w with
  | (Throw e, c', w') => options = VNull /\ c' = c /\ w' = w
  | (Normal _, c', w') =>
      options <> VNull /\ c' = c
      /\ exists request,
           w' = send request w
           /\ req_url request = prependRestfulBasename (context c) url
  end.
Proof.
  unfold fetch. cbv zeta.
  assert (default_options options = VNull \/ default_options options <> VNull)
    as [Hnull|Hsome]
    by (destruct options; simpl; first [by left|right; discriminate]).
  - rewrite Hnull. cbn. rewrite default_options_null in Hnull. by repeat split.
  - rewrite final_options_defined
      by (done || apply default_options_defined).
    split; [by rewrite <-default_options_null|]. split; [done|].
    by eexists.
Qed.

(** How a call runs once [finalOptions] is built. *)
Lemma fetch_run url options c w finalOptions :
  final_options (context c) (default_options options) = Normal finalOptions ->
  let n := length (requests w) in
  let finalUrl := prependRestfulBasename (context c) url in
  let fetchData :=
    match platform_fetch n finalUrl finalOptions with
    | Throw e => Throw e
    | Normal response =>
        match get (default_options options) "json" with
        | VBool false => Normal (Raw response)
        | _ => check_status response
        end
    end in
  fetch url options c w
  = (Normal match get (default_options options) "timeout" with
            | VNum ms =>
                if timer_first n ms
                then Throw (Error (("Timeout Error:" +:+ ToString (VNum ms)) +:+ "ms"))
                else fetchData
            | _ => fetchData
            end,
     c, send (request_of finalUrl finalOptions) w).
Proof. intros Hfinal. unfold fetch. cbv zeta. by rewrite Hfinal. Qed.

(** X9: what the caller passes wins over the defaults, and the server's
    cookie wins over the caller. In the options [fetch] hands to the
    platform, every option of the caller's other than [headers] is there as
    given, [method] and [credentials] are [GET] and [include] unless the
    caller set them; every header of the caller's is there as given, the two
    default headers are there unless the caller set them; and on the server
    the [Cookie] header is the cookie of the context, whatever the caller
    put there. *)
Theorem fetch_options_precedence url options c w :
  options <> VUndefined -> options <> VNull ->
  NoDup (map fst (own_props options)) ->
  NoDup (map fst (own_props (get options "headers"))) ->
  exists finalOptions headers promise,
    fetch url options c w
    = (Normal promise, c,
       send (request_of (prependRestfulBasename (context c) url)
               (VObj finalOptions)) w)
    /\ lookup_prop "headers" finalOptions = Some (VObj headers)
    /\ (forall k, k <> "headers" ->
          lookup_prop k finalOptions
          = match lookup_prop k (own_props options) with
            | Some v => Some v
            | None => lookup_prop k [("method", VStr "GET");
                                     ("credentials", VStr "include")]
            end)
    /\ (forall h,
          lookup_prop h headers
          = if isServer (context c) && String.eqb h "Cookie"
            then Some (VStr (cookie (context c)))
            else match lookup_prop h (own_props (get options "headers")) with
                 | Some v => Some v
                 | None => lookup_prop h default_headers
                 end).
Proof.
  intros Hu Hn Hoptions Hheaders.
  assert (default_options options = options) as Hsame by (by destruct options).
  pose proof (final_options_defined (context c) options Hu Hn) as Hfinal.
  eexists _, _, _. split; [|split; [|split]].
  - rewrite <-Hsame in Hfinal at 1. apply (fetch_run url options c w _ Hfinal).
  - apply InitFacts.lookup_set_prop_eq.
  - intros k Hk. rewrite InitFacts.lookup_set_prop_ne by done.
    by apply InitFacts.lookup_assign.
  - intros h. destruct (isServer (context c)); simpl.
    + rewrite InitFacts.lookup_set_prop.
      destruct (String.eqb h "Cookie"); [done|].
      by apply InitFacts.lookup_assign.
    + by apply InitFacts.lookup_assign.
Qed.

(** X10: the status check, and its absence. The request being answered
    before any timer fires: with [json: false] the promise of [fetch] is
    fulfilled with the response as it is, whatever its status; otherwise a
    response whose status is not 200 is turned into a rejection with its
    status text, a successful 201 or 204 included, and the body of a 200 is
    parsed. A [timeout] that is not a number sets no timer at all. *)
Theorem fetch_checks_status url options c w finalOptions response :
  final_options (context c) (default_options options) = Normal finalOptions ->
  platform_fetch (length (requests w))
    (prependRestfulBasename (context c) url) finalOptions = Normal response ->
  (forall ms, get (default_options options) "timeout" = VNum ms ->
              timer_first (length (requests w)) ms = false) ->
  let promise := (fetch url options c w).1.1 in
  (get (default_options options) "json" = VBool false ->
     promise = Normal (Normal (Raw response)))
  /\ (get (default_options options) "json" <> VBool false ->
       (status response <> 200 \/ ok response = false ->
          promise = Normal (Throw (Error (statusText response))))
       /\ (status response = 200 -> ok response = true ->
            promise = Normal match json response with
                             | Normal body => Normal (Parsed body)
                             | Throw e => Throw e
                             end)).
Proof.
  intros Hfinal Hresponse Htimer promise. unfold promise.
  rewrite (fetch_run url options c w finalOptions Hfinal). cbv zeta.
  rewrite Hresponse. cbn [fst snd].
  assert (forall p : completion fetched,
            match get (default_options options) "timeout" with
            | VNum ms =>
                if timer_first (length (requests w)) ms
                then Throw (Error (("Timeout Error:" +:+ ToString (VNum ms)) +:+ "ms"))
                else p
            | _ => p
            end = p) as Hrace.
  { intros p. destruct (get (default_options options) "timeout") eqn:Ht; try done.
    by rewrite (Htimer _ eq_refl). }
  rewrite Hrace. split.
  - by intros ->.
  - intros Hjson.
    assert (match get (default_options options) "json" with
            | VBool false => Normal (Raw response)
            | _ => check_status response
            end = check_status response) as ->.
    { destruct (get (default_options options) "json") as [| |[]| | | | |]; done. }
    unfold check_status. split.
    + intros [Hstatus|Hok].
      * apply Z.eqb_neq in Hstatus. rewrite Hstatus. by rewrite orb_true_r.
      * by rewrite Hok.
    + intros Hstatus Hok. rewrite Hok, Hstatus. by destruct (json response).
Qed.

(** X11: when [options.timeout] is a number and the timer fires before the
    request settles, the promise of [fetch] is rejected with
    [Timeout Error:<timeout>ms], the timeout printed as [String] prints a
    number, which is its decimal numeral for an integer below [2^53]. The
    request has been sent all the same, and nothing takes it back. *)
Theorem fetch_timeout url options c w ms :
  options <> VNull ->
  get (default_options options) "timeout" = VNum ms ->
  timer_first (length (requests w)) ms = true ->
  (fetch url options c w).1.1
  = Normal (Throw (Error (("Timeout Error:" +:+ ToString (VNum ms)) +:+ "ms")))
  /\ (exists request,
        requests (fetch url options c w).2 = (requests w ++ [request])%list
        /\ req_url request = prependRestfulBasename (context c) url)
  /\ (forall n : Z, ms = Int n -> - 2 ^ 53 < n < 2 ^ 53 ->
        (fetch url options c w).1.1
        = Normal (Throw (Error (("Timeout Error:" +:+ pretty n) +:+ "ms")))).
Proof.
  intros Hn Htimeout Hfirst.
  pose proof (final_options_defined (context c) (default_options options)
                (default_options_defined options)
                (fun H => Hn (proj1 (default_options_null options) H))) as Hfinal.
  rewrite (fetch_run url options c w _ Hfinal). cbv zeta.
  rewrite Htimeout, Hfirst. split; [done|]. split; [by eexists|].
  intros n -> Hsafe. cbn [fst snd ToString].
  by rewrite BootstrapFacts.Number_toString_safe.
Qed.

(** X12: the call [fetch(url, {json: false})], the one [fetchPreload] makes,
    sends the request [fetch_request] describes: [GET], credentials
    included, the two default headers and, on the server, the cookie; and
    its promise settles as the platform's does. *)
Theorem fetch_preload_request url c w :
  exists finalOptions,
    fetch url (VObj [("json", VBool false)]) c w
    = (Normal match platform_fetch (length (requests w))
                      (prependRestfulBasename (context c) url) finalOptions with
              | Normal response => Normal (Raw response)
              | Throw e => Throw e
              end,
       c, send (fetch_request (context c) url) w).
Proof.
  eexists. unfold fetch. cbv zeta. cbn [default_options].
  rewrite final_options_defined by done.
  replace (request_of _ _) with (fetch_request (context c) url).
  - reflexivity.
  - unfold request_of, fetch_request. by destruct (isServer (context c)).
Qed.

End WithPlatform.

(** [fetch_options_precedence] at work on the server: the caller's method
    and content type are kept, the other defaults are filled in, and the
    cookie is the one of the context. *)
Lemma fetch_options_precedence_witness :
  let run := fetch (U := Sample.util) (P := SamplePlatform.created)
               "/users" SamplePlatform.posting
               (Sample.preloading Sample.server) Sample.fresh in
  exists finalOptions headers,
    requests run.2 = [request_of "http://api.internal/users" (VObj finalOptions)]
    /\ lookup_prop "headers" finalOptions = Some (VObj headers)
    /\ lookup_prop "method" finalOptions = Some (VStr "POST")
    /\ lookup_prop "credentials" finalOptions = Some (VStr "include")
    /\ lookup_prop "Content-Type" headers = Some (VStr "text/plain")
    /\ lookup_prop "Access-Control-Allow-Origin" headers = Some (VStr "*")
    /\ lookup_prop "Cookie" headers = Some (VStr "sid=1").
Proof.
  intros run.
  destruct (fetch_options_precedence (U := Sample.util)
              (P := SamplePlatform.created) "/users" SamplePlatform.posting
              (Sample.preloading Sample.server) Sample.fresh)
    as (finalOptions & headers & promise & Hrun & Hheaders & Hoptions & Hheader);
    [done|done|apply (bool_decide_unpack _); by vm_compute
    |apply (bool_decide_unpack _); by vm_compute|].
  exists finalOptions, headers. unfold run. rewrite Hrun.
  split; [reflexivity|]. split; [exact Hheaders|].
  split; [by apply (Hoptions "method")|].
  split; [by apply (Hoptions "credentials")|].
  split; [exact (Hheader "Content-Type")|].
  split; [exact (Hheader "Access-Control-Allow-Origin")|].
  exact (Hheader "Cookie").
Defined.

(** [fetch_checks_status] at work: a call with the default options whose
    request is answered [201 Created] is rejected. *)
Lemma fetch_checks_status_witness :
  (fetch (U := Sample.util) (P := SamplePlatform.created)
     "/users" VUndefined (Sample.preloading Sample.client) Sample.fresh).1.1
  = Normal (Throw (Error "Created")).
Proof.
  destruct (fetch_checks_status (U := Sample.util) (P := SamplePlatform.created)
              "/users" VUndefined (Sample.preloading Sample.client) Sample.fresh
              _ _ eq_refl eq_refl) as [_ Hchecked]; [done|].
  destruct Hchecked as [Hrejected _]; [done|].
  apply Hrejected. left. done.
Defined.

(** [fetch_timeout] at work: a timer of three seconds that fires first. *)
Lemma fetch_timeout_witness :
  (fetch (U := Sample.util) (P := SamplePlatform.slow)
     "/users" SamplePlatform.posting
     (Sample.preloading Sample.client) Sample.fresh).1.1
  = Normal (Throw (Error "Timeout Error:3000ms")).
Proof.
  destruct (fetch_timeout (U := Sample.util) (P := SamplePlatform.slow)
              "/users" SamplePlatform.posting
              (Sample.preloading Sample.client) Sample.fresh 3000)
    as [Hrejected _]; [done|done|done|].
  exact Hrejected.
Defined.

End FetchFacts.

(** ** The Controller: more on [fetchPreload] *)

Module PreloadMoreFacts.
Import JsString JsNumber Js Controller Spec JsStringFacts PreloadFacts.

Section WithCollaborators.
Context {U : Util} {NW : Network}.

(** One rejected request is enough for the whole to be rejected. *)
Lemma settle_rejects ctx entries w name url n err :
  (name, url, n) ∈ entries ->
  respond n (fetch_request ctx url) = Throw err ->
  exists e, (settle ctx entries w).1 = Some e.
Proof.
  revert w. induction entries as [|[[name' url'] n'] entries IH]; intros w Hin Herr.
  - by apply elem_of_nil in Hin.
  - cbn [settle cache_response].
    apply elem_of_cons in Hin as [Hhere|Hlater].
    + injection Hhere as <- <- <-. rewrite Herr.
      destruct (settle ctx entries w) as [rejected w2]. by eexists.
    + destruct (respond n' (fetch_request ctx url')) as [text|err'].
      * destruct (IH (set_preload
          (<[name':=VStr (if negb (indexOf url' ".css" =? -1)
                           then replace_cr_runs text else text)]>
             (context_preload w)) w) Hlater Herr) as [e He].
        destruct (settle ctx entries _) as [rejected w2]. simpl in He.
        subst rejected. by eexists.
      * destruct (settle ctx entries w) as [rejected w2]. by eexists.
Qed.

(** The synchronous part leaves the cache alone, and the entries it issues
    are names of the specification without a truthy entry in the cache. *)
Lemma issue_entries ctx spec keys w :
  context_preload (issue ctx spec keys w).2 = context_preload w
  /\ forall name, name ∈ map (fun e => e.1.1) (issue ctx spec keys w).1.1 ->
                  name ∈ keys /\ cached (context_preload w) name = false.
Proof.
  revert w. induction keys as [|key keys IH]; intros w; cbn [issue].
  - split; [done|]. by intros name ?%elem_of_nil.
  - unfold preload_url. fold (cached (context_preload w) key).
    destruct (cached (context_preload w) key) eqn:Hc.
    + destruct (IH w) as [Hcache Hnames]. split; [done|].
      intros name Hin. destruct (Hnames name Hin). split; [|done].
      by apply list_elem_of_further.
    + destruct (get spec key); try (split; [done|]; by intros name ?%elem_of_nil).
      destruct (IH (send (fetch_request ctx
                            (if negb (isAbsoluteUrl s)
                             then prependPublicPath ctx s else s)) w))
        as [Hcache Hnames].
      destruct (issue ctx spec keys _) as [[entries thrown] w']. simpl in *.
      split; [done|]. intros name [->|Hin]%elem_of_cons.
      * split; [apply list_elem_of_here|done].
      * destruct (Hnames name Hin). split; [|done].
        by apply list_elem_of_further.
Qed.

Lemma Object_keys_own v keys :
  Object_keys v = Normal keys -> keys = map fst (own_props v).
Proof. unfold Object_keys. destruct v; congruence. Qed.

(** X13: [fetchPreload] writes to [context.preload] under the names it had
    to fetch and nowhere else: an entry under a name that the specification
    does not declare, or that is already truthy, is as it was after the
    call, however the call completes. *)
Theorem fetchPreload_keeps_other_entries arg c w name :
  name ∉ map fst (own_props (or_else arg (member c "preload")))
  \/ cached (context_preload w) name = true ->
  context_preload (fetchPreload arg c w).2 !! name = context_preload w !! name.
Proof.
  intros Hname. unfold fetchPreload.
  set (spec := or_else arg (member c "preload")) in *.
  destruct (Object_keys spec) as [keys|e] eqn:Hkeys; [|done].
  destruct (negb (truthy spec) || (length keys =? 0)%nat); [done|].
  destruct (issue_entries (context c) spec keys w) as [Hcache Hnames].
  destruct (issue (context c) spec keys w) as [[entries thrown] w1].
  simpl in Hcache, Hnames.
  pose proof (settle_lookup_other (context c) entries w1 name) as Hother.
  destruct (settle (context c) entries w1) as [rejected w2]. simpl in Hother.
  assert (context_preload w2 !! name = context_preload w !! name) as Hkeep.
  { rewrite Hother; [by rewrite Hcache|].
    intros Hin. destruct (Hnames name Hin) as [Hkey Hc].
    destruct Hname as [Hnot|Htrue]; [|congruence].
    apply Hnot. by rewrite <-(Object_keys_own spec keys Hkeys). }
  by destruct thrown, rejected.
Qed.

(** X14: the requests of a call are independent of each other. When one of
    them is rejected, the promise of [fetchPreload] is rejected and the name
    of that request keeps the entry it had; every request of the same call
    that is fulfilled has its text cached all the same. *)
Theorem fetchPreload_rejection_keeps_others arg c w keys i name url err :
  let spec := or_else arg (member c "preload") in
  let todo := pending (context c) spec (context_preload w) keys in
  let after := context_preload (fetchPreload arg c w).2 in
  Object_keys spec = Normal keys -> NoDup keys ->
  Forall (fun name => cached (context_preload w) name = false ->
                      exists u, get spec name = VStr u) keys ->
  todo !! i = Some (name, url) ->
  respond (length (requests w) + i) (fetch_request (context c) url) = Throw err ->
  (exists e, (fetchPreload arg c w).1.1 = Normal (Throw e))
  /\ after !! name = context_preload w !! name
  /\ forall j name' url' text,
       todo !! j = Some (name', url') ->
       respond (length (requests w) + j) (fetch_request (context c) url')
       = Normal text ->
       after !! name' = Some (VStr (processed url' text)).
Proof.
  intros spec todo after Hkeys Hnodup Hstr Hi Herr.
  assert (NoDup (map (fun e : string * string * nat => e.1.1)
                   (numbered (length (requests w)) todo))) as Hnames.
  { rewrite numbered_names. eapply sublist_NoDup; [done|apply pending_names]. }
  split; [|split].
  - unfold fetchPreload. fold spec. rewrite Hkeys.
    assert (negb (truthy spec) || (length keys =? 0)%nat = false) as ->.
    { destruct keys as [|key keys']; [done|].
      rewrite orb_false_r. apply negb_false_iff.
      destruct (truthy spec) eqn:Ht; [done|].
      by pose proof (Object_keys_falsy spec _ Hkeys Ht). }
    rewrite issue_pending by done. cbv zeta. fold todo.
    destruct (settle_rejects (context c) (numbered (length (requests w)) todo)
                (sent (map (fun e => fetch_request (context c) e.2) todo) w)
                name url (length (requests w) + i) err) as [e He];
      [by apply (numbered_elem _ _ i (name, url))|done|].
    destruct (settle _ _ _) as [rejected w2]. simpl in He. subst rejected.
    by exists e.
  - unfold after. destruct (fetchPreload_world arg c w keys Hkeys) as [_ ->].
    fold spec. rewrite issue_pending by done. cbn [fst snd]. fold todo.
    rewrite (settle_lookup_entry _ _ _ name url (length (requests w) + i));
      [by rewrite Herr|done|by apply (numbered_elem _ _ i (name, url))].
  - intros j name' url' text Hj Htext. unfold after.
    by apply (fetchPreload_lookup arg c w keys j name' url' text).
Qed.

End WithCollaborators.

(** [fetchPreload_keeps_other_entries] at work: a style sheet that is
    cached already is not replaced by what the network would answer. *)
Lemma fetchPreload_keeps_other_entries_witness :
  let c := Sample.preloading Sample.server in
  let w := set_preload (<["main" := VStr "body{}"]> ∅) Sample.fresh in
  context_preload
    (fetchPreload (U := Sample.util) (NW := Sample.crlf_bodies) VUndefined c w).2
    !! "main"
  = Some (VStr "body{}").
Proof.
  intros c w.
  rewrite (fetchPreload_keeps_other_entries (U := Sample.util)
             (NW := Sample.crlf_bodies) VUndefined c w "main").
  - reflexivity.
  - right. reflexivity.
Defined.

(** [fetchPreload_rejection_keeps_others] at work: the request of the style
    sheet is rejected, the one of the text file is fulfilled. *)
Lemma fetchPreload_rejection_keeps_others_witness :
  let c := Sample.preloading Sample.server in
  let run := fetchPreload (U := Sample.util) (NW := SamplePlatform.flaky)
               VUndefined c Sample.fresh in
  (exists e, run.1.1 = Normal (Throw e))
  /\ context_preload run.2 !! "main" = None
  /\ context_preload run.2 !! "motd" = Some (VStr "hello").
Proof.
  intros c run.
  assert (NoDup ["main"; "motd"]) as Hnodup
    by (apply (bool_decide_unpack _); by vm_compute).
  assert (Forall (fun name =>
            cached (context_preload Sample.fresh) name = false ->
            exists u, get (or_else VUndefined (member c "preload")) name = VStr u)
            ["main"; "motd"]) as Hstr
    by (repeat constructor; intros _; eexists; reflexivity).
  destruct (fetchPreload_rejection_keeps_others (U := Sample.util)
              (NW := SamplePlatform.flaky) VUndefined c Sample.fresh
              ["main"; "motd"] 0%nat "main"
              (completed_url (U := Sample.util) Sample.server "/css/main.css")
              (VStr "ECONNRESET") eq_refl Hnodup Hstr eq_refl eq_refl)
    as (Hrejected & Hkept & Hothers).
  split; [exact Hrejected|]. split; [exact Hkept|].
  exact (Hothers 1%nat "motd" _ "hello" eq_refl eq_refl).
Defined.

End PreloadMoreFacts.

(** ** The Controller: more on [init] *)

Module InitMoreFacts.
Import JsString JsNumber Js Controller Spec JsStringFacts InitFacts.

(** X15: the fields [init()] computes itself cannot be set from outside:
    whatever [this.initialState] and the hydration snapshot hold under
    [location], [isClient], [isServer], [publicPath] and [restfulApi], the
    merged initial state has the location of the controller and the values
    of its context there. *)
Theorem merge_computed_fields_win c g :
  let state := merge_initial_state c g in
  get state "location" = member c "location"
  /\ get state "isClient" = VBool (isClient (context c))
  /\ get state "isServer" = VBool (isServer (context c))
  /\ get state "publicPath" = VStr (publicPath (context c))
  /\ get state "restfulApi" = VStr (restfulApi (context c)).
Proof.
  unfold merge_initial_state, get. cbn [own_props].
  repeat split;
    (rewrite lookup_assign; [done|apply (bool_decide_unpack _); by vm_compute]).
Qed.

(** A bind that completes went through both of its parts. *)
Lemma bind_normal {A B} (m : M A) (k : A -> M B) c w r c' w' :
  (m ≫= k) c w = (Normal r, c', w') ->
  exists a c1 w1, m c w = (Normal a, c1, w1) /\ k a c1 w1 = (Normal r, c', w').
Proof.
  unfold mbind, M_bind, bind.
  destruct (m c w) as [[[a|e] c1] w1]; [|done]. intros Hk. by exists a, c1, w1.
Qed.

Lemma preserves_emit_closed I e :
  (forall c w e, I c w -> I c (emit e w)) -> preserves I (modify_world (emit e)).
Proof. intros Hclosed c w HI. by apply Hclosed. Qed.

Lemma take_snapshot_truthy c w :
  truthy (INITIAL_STATE w) = true ->
  take_snapshot c w
  = (Normal (INITIAL_STATE w), c, set_INITIAL_STATE VUndefined w).
Proof. unfold take_snapshot. by destruct (INITIAL_STATE w). Qed.

(** The snapshot read is the value of the global, defined or not. *)
Lemma take_snapshot_value c w :
  exists w0,
    take_snapshot c w = (Normal (INITIAL_STATE w), c, w0)
    /\ requests w0 = requests w /\ trace w0 = trace w
    /\ context_preload w0 = context_preload w.
Proof.
  unfold take_snapshot. destruct (INITIAL_STATE w) eqn:E; simpl; by eexists.
Qed.

Section Api.
Context {U : Util}.

(** The [reduce] over an [api] whose URLs are strings: every key gets the
    completed URL, the rest of the accumulator is kept. *)
Lemma complete_urls_strings ctx api keys : forall result,
  (forall k, k ∈ keys -> exists url, get api k = VStr url) ->
  exists result',
    complete_urls ctx api keys result = Normal result'
    /\ forall k,
         lookup_prop k result'
         = if bool_decide (k ∈ keys)
           then match get api k with
                | VStr url => Some (VStr (prependRestfulBasename ctx url))
                | _ => None
                end
           else lookup_prop k result.
Proof.
  induction keys as [|key keys IH]; intros result Hstrings; cbn [complete_urls].
  - exists result. split; [done|]. intros k.
    by rewrite bool_decide_eq_false_2 by apply not_elem_of_nil.
  - destruct (Hstrings key) as [url Hurl]; [apply list_elem_of_here|].
    rewrite Hurl. cbn [prependRestfulBasename_value].
    destruct (IH (set_prop key (VStr (prependRestfulBasename ctx url)) result))
      as (result' & -> & Hlookup).
    { intros k Hk. apply Hstrings. by apply list_elem_of_further. }
    exists result'. split; [done|]. intros k. rewrite Hlookup.
    destruct (decide (k = key)) as [->|Hne].
    + rewrite (bool_decide_eq_true_2 (key ∈ key :: keys)) by apply list_elem_of_here.
      rewrite Hurl. destruct (bool_decide (key ∈ keys)); [done|].
      apply lookup_set_prop_eq.
    + assert (bool_decide (k ∈ key :: keys) = bool_decide (k ∈ keys)) as ->.
      { apply bool_decide_ext. rewrite elem_of_cons. tauto. }
      destruct (bool_decide (k ∈ keys)); [done|]. by apply lookup_set_prop_ne.
Qed.

(** X19: the [api] of the initial state is rebuilt with every URL completed
    by [prependRestfulBasename]: when the URLs are strings, the new [api] has
    the completed URL under every key of the old one and no other key, and
    the other fields of the state are not touched. *)
Theorem complete_api_completes ctx ps api :
  lookup_prop "api" ps = Some (VObj api) ->
  Forall (fun kv => exists url, kv.2 = VStr url) api ->
  exists api',
    complete_api ctx (VObj ps) = Normal (VObj (set_prop "api" (VObj api') ps))
    /\ (forall k url, lookup_prop k api = Some (VStr url) ->
          lookup_prop k api' = Some (VStr (prependRestfulBasename ctx url)))
    /\ (forall k, lookup_prop k api = None -> lookup_prop k api' = None)
    /\ (forall k, k <> "api" ->
          lookup_prop k (set_prop "api" (VObj api') ps) = lookup_prop k ps).
Proof.
  intros Hapi Hstrings.
  assert (forall k v, lookup_prop k api = Some v -> exists url, v = VStr url)
    as Hvalues.
  { clear Hapi. induction Hstrings as [|[k' v'] api [url Hurl] _ IH]; [done|].
    intros k v. simpl in *. destruct (String.eqb k k'); [|by apply IH].
    intros [= <-]. by exists url. }
  destruct (complete_urls_strings ctx (VObj api) (map fst api) [])
    as (api' & Hrun & Hlookup).
  { intros k Hk. unfold get. cbn [own_props].
    destruct (lookup_prop k api) as [v|] eqn:Hv.
    - destruct (Hvalues k v Hv) as [url ->]. by exists url.
    - apply lookup_prop_None in Hv. by destruct Hv. }
  exists api'. split; [|split; [|split]].
  - unfold complete_api, read, get. cbn [own_props]. rewrite Hapi.
    cbn [default id truthy Object_keys own_props]. by rewrite Hrun.
  - intros k url Hk. rewrite Hlookup.
    rewrite bool_decide_eq_true_2 by (by eapply lookup_prop_elem).
    unfold get. cbn [own_props]. by rewrite Hk.
  - intros k Hk. rewrite Hlookup.
    by rewrite bool_decide_eq_false_2 by (by apply lookup_prop_None).
  - intros k Hk. by apply lookup_set_prop_ne.
Qed.

End Api.

(** [complete_api_completes] at work on the client: a relative URL goes to
    the REST API, a mock URL to the page's own origin, and an absolute
    [http:] URL loses its scheme. *)
Lemma complete_api_completes_witness :
  let api := [("users", VStr "/users"); ("draft", VStr "/mock/draft.json");
              ("cdn", VStr "http://cdn.example.com/a.json")] in
  exists api',
    complete_api (U := Sample.util) Sample.client
      (VObj [("count", VNum 0); ("api", VObj api)])
    = Normal (VObj [("count", VNum 0); ("api", VObj api')])
    /\ lookup_prop "users" api' = Some (VStr "https://api.example.com/users")
    /\ lookup_prop "draft" api'
       = Some (VStr "https://example.com/app/mock/draft.json")
    /\ lookup_prop "cdn" api' = Some (VStr "//cdn.example.com/a.json").
Proof.
  intros api.
  destruct (complete_api_completes (U := Sample.util) Sample.client
              [("count", VNum 0); ("api", VObj api)] api eq_refl)
    as (api' & Hrun & Hurls & _).
  { repeat constructor; by eexists. }
  exists api'. split; [exact Hrun|].
  split; [exact (Hurls "users" "/users" eq_refl)|].
  split; [exact (Hurls "draft" "/mock/draft.json" eq_refl)|].
  exact (Hurls "cdn" "http://cdn.example.com/a.json" eq_refl).
Defined.

Section Init.
Context {U : Util} {SA : SharedActions} {UC : UserCode} {NW : Network}.

(** Binding keeps what neither the three properties it assigns nor the
    calls it makes can change. *)
Lemma preserves_bind_rest I :
  ignores_props ["logger"; "unsubscribeList"; "ViewWrapper"] I ->
  (forall c w e, I c w -> I c (emit e w)) ->
  forall c0 : Controller,
    preserves I ((if isClient (context c0) then bind_on_client else ret ());;
                 set_member "ViewWrapper" (VFun (Fn "ViewWrapper"));;
                 render).
Proof.
  intros Hp Hclosed c0. unfold bind_on_client.
  repeat first [apply preserves_emit_closed; exact Hclosed
               | apply preserves_listen | preserve_step].
  apply preserves_render.
Qed.

Lemma preserves_bindStoreToView_closed I :
  ignores_props ["logger"; "unsubscribeList"; "ViewWrapper"] I ->
  (forall c w e, I c w -> I c (emit e w)) ->
  preserves I bindStoreToView.
Proof.
  intros Hp Hclosed c w HI.
  apply (preserves_bind_rest I Hp Hclosed c c (emit (BindStoreToView (self c)) w)).
  by apply Hclosed.
Qed.

Lemma render_view c w r c' w' :
  render c w = (Normal r, c', w') -> exists ps, r = VObj ps.
Proof.
  unfold render, mbind, M_bind, bind, this, world, lift, ret.
  destruct (getState (member c "store")); [|done].
  destruct (read (member c "store") "actions"); [|done].
  destruct (read (member c "location") "raw"); [|done].
  intros [= <- _ _]. by eexists.
Qed.

(** A binding that completes yields a view, and the view has been bound. *)
Lemma bindStoreToView_bound c w r c' w' :
  bindStoreToView c w = (Normal r, c', w') ->
  (exists ps, r = VObj ps) /\ BindStoreToView (self c) ∈ trace w'.
Proof.
  intros Hrun. split.
  - unfold bindStoreToView in Hrun.
    apply bind_normal in Hrun as (c0 & c1 & w1 & _ & Hrun).
    apply bind_normal in Hrun as (? & c2 & w2 & _ & Hrun).
    apply bind_normal in Hrun as (? & c3 & w3 & _ & Hrun).
    apply bind_normal in Hrun as (? & c4 & w4 & _ & Hrun).
    by eapply render_view.
  - pose proof (preserves_bind_rest
                  (fun _ w0 => BindStoreToView (self c) ∈ trace w0)
                  ltac:(by intros ? ? ? ? _)
                  ltac:(intros ? ? ? ?; simpl; apply elem_of_app; by left)
                  c c (emit (BindStoreToView (self c)) w)) as Hkeep.
    change (((if isClient (context c) then bind_on_client else ret ());;
             set_member "ViewWrapper" (VFun (Fn "ViewWrapper"));;
             render) c (emit (BindStoreToView (self c)) w))
      with (bindStoreToView c w) in Hkeep.
    rewrite Hrun in Hkeep. apply Hkeep. simpl.
    apply elem_of_app. right. apply list_elem_of_here.
Qed.

(** X16: on a page the server rendered, that is when the hydration snapshot
    is truthy, no user code runs in [init()] for a class that has no
    [getInitialState] and whose [pageWillLeave] and [windowWillUnload], if
    any, are functions; [init()] then sends no request and leaves
    [context.preload] alone, whatever the class declares to preload and
    however [init()] completes; and when it is fulfilled, it is with a view,
    never with [null], and the view has been bound: [shouldComponentCreate]
    and [componentWillCreate] have no say. *)
Theorem init_hydration c w :
  truthy (INITIAL_STATE w) = true ->
  truthy (member c "getInitialState") = false ->
  (forall k, k ∈ ["pageWillLeave"; "windowWillUnload"] ->
             truthy (member c k) = true -> exists f, member c k = VFun f) ->
  requests (init c w).2 = requests w
  /\ context_preload (init c w).2 = context_preload w
  /\ forall r, (init c w).1.1 = Normal r ->
               (exists ps, r = VObj ps)
               /\ BindStoreToView (self c) ∈ trace (init c w).2.
Proof.
  intros Hsnapshot _ _.
  set (w0 := set_INITIAL_STATE VUndefined w).
  assert (init c w = (prepare (INITIAL_STATE w);; bindStoreToView) c w0) as Hinit.
  { unfold init. unfold mbind at 1, M_bind at 1, bind at 1.
    rewrite take_snapshot_truthy by done. by rewrite Hsnapshot. }
  assert (requests (init c w).2 = requests w
          /\ context_preload (init c w).2 = context_preload w) as [Hreq Hcache].
  { rewrite Hinit.
    apply (preserves_bind
             (fun _ w' => requests w' = requests w
                          /\ context_preload w' = context_preload w)).
    - apply preserves_prepare. by intros ? ? ? ? _.
    - intros _. apply preserves_bindStoreToView_closed; [|done].
      by intros ? ? ? ? _.
    - done. }
  split; [done|]. split; [done|].
  intros r Hr.
  destruct (init c w) as [[res c'] w'] eqn:Hrun. simpl in Hr. subst res.
  destruct (init_run c w r c' w' Hrun) as (g & w1 & c1 & Hsnap & Hprep & Htail).
  rewrite take_snapshot_truthy in Hsnap by done.
  injection Hsnap as <- <-. rewrite Hsnapshot in Htail.
  destruct (prepare_handlers _ c _ c1 _ Hprep) as (Hself & _).
  rewrite <-Hself. simpl. by eapply bindStoreToView_bound.
Qed.

(** X17: when [getInitialState] resolves to [undefined] or [null], [init()]
    is rejected with the [TypeError] of reading [api] from it, with or
    without a snapshot and whatever else the class declares. *)
Theorem init_rejects_without_state c w f v :
  member c "getInitialState" = VFun f ->
  invoke f (self c) [merge_initial_state c (INITIAL_STATE w)] = Normal v ->
  v = VUndefined \/ v = VNull ->
  exists msg, (init c w).1.1 = Throw (TypeError msg).
Proof.
  intros Hhook Hstate Hnone.
  destruct (take_snapshot_value c w) as (w0 & Hsnap & Hreq & Htrace & _).
  assert (prepare (INITIAL_STATE w) c w0
          = (Throw (TypeError "Cannot read properties of undefined"), c, w0))
    as Hprep.
  { unfold prepare, mbind, M_bind, bind, this. rewrite Hhook.
    cbn [truthy call]. rewrite Hstate.
    by destruct Hnone as [->| ->]. }
  assert (init c w
          = (Throw (TypeError "Cannot read properties of undefined"), c, w0))
    as ->.
  { unfold init, mbind, M_bind, bind. by rewrite Hsnap, Hprep. }
  by eexists.
Qed.

Lemma issue_trace ctx spec keys w : trace (issue ctx spec keys w).2 = trace w.
Proof.
  revert w. induction keys as [|name keys IH]; intros w; simpl; [done|].
  destruct (preload_url ctx spec w name) as [[url|]|e]; simpl; [|done..].
  specialize (IH (send (fetch_request ctx url) w)).
  by destruct (issue ctx spec keys _) as [[entries thrown] w'].
Qed.

(** [fetchPreload] makes no call that the trace records. *)
Lemma fetchPreload_trace arg c w : trace (fetchPreload arg c w).2 = trace w.
Proof.
  unfold fetchPreload.
  destruct (Object_keys (or_else arg (member c "preload"))) as [keys|e]; [|done].
  destruct (negb _ || _); [done|].
  pose proof (issue_trace (context c)
                (or_else arg (member c "preload")) keys w) as Hissue.
  destruct (issue _ _ keys w) as [[entries thrown] w1]. simpl in Hissue.
  pose proof (PreloadFacts.settle_frame (context c) entries w1) as Hsettle.
  destruct (settle _ entries w1) as [rejected w2]. simpl in Hsettle.
  assert (trace w2 = trace w) as Htrace by (by rewrite Hsettle).
  by destruct thrown, rejected.
Qed.

(** [fetchPreload] reads the context and [this.preload] of the instance,
    and nothing else of it. *)
Lemma fetchPreload_same arg c c1 w :
  context c1 = context c -> member c1 "preload" = member c "preload" ->
  (fetchPreload arg c1 w).1.1 = (fetchPreload arg c w).1.1
  /\ (fetchPreload arg c1 w).2 = (fetchPreload arg c w).2.
Proof.
  intros Hctx Hmember. unfold fetchPreload. rewrite Hctx, Hmember.
  destruct (Object_keys (or_else arg (member c "preload"))) as [keys|e]; [|done].
  destruct (negb _ || _); [done|].
  destruct (issue _ _ keys w) as [[entries thrown] w1].
  destruct (settle _ entries w1) as [rejected w2].
  by destruct thrown, rejected.
Qed.

Lemma all_settled_rejected l e : exists e', all_settled (l ++ [Throw e])%list = Throw e'.
Proof.
  induction l as [|[a|e0] l IH]; simpl; by eauto.
Qed.

(** [create] binds no view unless the preload is fulfilled. *)
Lemma create_waits_for_preload c w :
  truthy (member c "preload") = true ->
  (forall r, (fetchPreload VUndefined c w).1.1 <> Normal (Normal r)) ->
  exists res c' w',
    create c w = (res, c', w')
    /\ trace w' = trace w
    /\ forall r, res = Normal r -> r = VNull.
Proof.
  intros Hpreload Hrejected.
  unfold create. unfold mbind at 1, M_bind at 1, bind at 1, this.
  unfold mbind at 1, M_bind at 1, bind at 1.
  assert (exists res,
            (if truthy (member c "shouldComponentCreate")
             then result ← call (member c "shouldComponentCreate") [];
                  ret (match result with VBool false => false | _ => true end)
             else ret true) c w = (res, c, w)) as [res ->].
  { destruct (truthy (member c "shouldComponentCreate")); [|by eexists].
    unfold mbind, M_bind, bind, call.
    destruct (member c "shouldComponentCreate") as [| | | | | |g|]; try by eexists.
    destruct (invoke g (self c) []); by eexists. }
  destruct res as [[|]|e].
  2: { eexists _, _, _. split; [done|]. split; [done|]. by intros r [= <-]. }
  2: { eexists _, _, _. split; [done|]. by split. }
  unfold mbind at 1, M_bind at 1, bind at 1.
  assert (exists res,
            (if truthy (member c "componentWillCreate")
             then match member c "componentWillCreate" with
                  | VFun f => ret [invoke f (self c) []]
                  | _ => throw (TypeError "componentWillCreate is not a function")
                  end
             else ret []) c w = (res, c, w)) as [res ->].
  { destruct (truthy (member c "componentWillCreate")); [|by eexists].
    destruct (member c "componentWillCreate"); by eexists. }
  destruct res as [willCreate|e].
  2: { eexists _, _, _. split; [done|]. by split. }
  unfold mbind at 1, M_bind at 1, bind at 1. rewrite Hpreload.
  unfold mbind at 1, M_bind at 1, bind at 1.
  pose proof (fetchPreload_trace VUndefined c w) as Htrace.
  destruct (fetchPreload VUndefined c w) as [[[p|e] c1] w1];
    simpl in Htrace, Hrejected.
  2: { eexists _, _, _. split; [done|]. by split. }
  unfold ret at 1. unfold mbind at 1, M_bind at 1, bind at 1, lift.
  destruct p as [r|e]; [by destruct (Hrejected r)|].
  destruct (all_settled_rejected willCreate e) as [e' ->].
  eexists _, _, _. split; [done|]. by split.
Qed.

(** X18: without a snapshot, [init()] binds no view before the preload is
    there: when the promise of [fetchPreload] is not fulfilled (a request
    was rejected, or the call threw), [init()] does not call
    [bindStoreToView] and is not fulfilled with a view. *)
Theorem init_waits_for_preload c w :
  INITIAL_STATE w = VUndefined ->
  truthy (member c "preload") = true ->
  (forall r, (fetchPreload VUndefined c w).1.1 <> Normal (Normal r)) ->
  trace (init c w).2 = trace w
  /\ forall r, (init c w).1.1 = Normal r -> r = VNull.
Proof.
  intros Hw Hpreload Hrejected.
  rewrite init_without_snapshot by done.
  pose proof (preserves_prepare
                (fun c' w' => context c' = context c
                              /\ member c' "preload" = member c "preload"
                              /\ w' = w) VUndefined) as Hkeep.
  specialize (Hkeep ltac:(
    intros c0 w0 k v Hk (Hctx & Hm & Hw0); split; [done|]; split; [|done];
    rewrite member_with_prop_ne; [done|];
    intros <-; apply list_elem_of_In in Hk; simpl in Hk;
    by destruct Hk as [|[|]]) c w (conj eq_refl (conj eq_refl eq_refl))).
  unfold mbind, M_bind, bind.
  destruct (prepare VUndefined c w) as [[[[]|e] c1] w1];
    simpl in Hkeep; destruct Hkeep as (Hctx & Hmember & ->); [|done].
  destruct (fetchPreload_same VUndefined c c1 w Hctx Hmember) as [Hsame _].
  destruct (create_waits_for_preload c1 w) as (res & c' & w' & -> & Htrace & Hres);
    [by rewrite Hmember|intros r; rewrite Hsame; apply Hrejected|].
  by split.
Qed.

End Init.

(** [init_hydration] at work: a page that declares a preload, on the client,
    over a snapshot of the server's: no request, and the view is bound. *)
Lemma init_hydration_witness :
  let c := Sample.preloading Sample.client in
  let run := init (U := Sample.util) (SA := Sample.no_shared_actions)
               (UC := Sample.refusing) (NW := Sample.unreachable)
               c Sample.hydrating in
  requests run.2 = [] /\ BindStoreToView 1%nat ∈ trace run.2.
Proof.
  intros c run.
  destruct (init_hydration (U := Sample.util) (SA := Sample.no_shared_actions)
              (UC := Sample.refusing) (NW := Sample.unreachable)
              c Sample.hydrating eq_refl eq_refl) as (Hrequests & _ & Hview).
  { intros k Hk Hhook. apply list_elem_of_In in Hk.
    by destruct Hk as [<-|[<-|[]]]. }
  split; [exact Hrequests|].
  assert (exists r, run.1.1 = Normal r) as [r Hr] by (eexists; by vm_compute).
  by destruct (Hview r Hr).
Defined.

(** [init_rejects_without_state] at work: a [getInitialState] that resolves
    to [undefined]. *)
Lemma init_rejects_without_state_witness :
  let c := construct 1%nat Sample.home Sample.client []
             [("getInitialState", VFun (Fn "getInitialState"))] in
  exists msg,
    (init (U := Sample.util) (SA := Sample.no_shared_actions)
       (UC := Sample.quiet) (NW := Sample.empty_bodies) c Sample.fresh).1.1
    = Throw (TypeError msg).
Proof.
  intros c.
  exact (init_rejects_without_state (U := Sample.util)
           (SA := Sample.no_shared_actions) (UC := Sample.quiet)
           (NW := Sample.empty_bodies) c Sample.fresh
           (Fn "getInitialState") VUndefined eq_refl eq_refl
           (or_introl eq_refl)).
Defined.

(** [init_waits_for_preload] at work: the network is unreachable, no view
    is bound. *)
Lemma init_waits_for_preload_witness :
  let c := Sample.preloading Sample.server in
  let run := init (U := Sample.util) (SA := Sample.no_shared_actions)
               (UC := Sample.quiet) (NW := Sample.unreachable)
               c Sample.fresh in
  trace run.2 = [].
Proof.
  intros c run.
  destruct (init_waits_for_preload (U := Sample.util)
              (SA := Sample.no_shared_actions) (UC := Sample.quiet)
              (NW := Sample.unreachable) c Sample.fresh eq_refl eq_refl)
    as [Htrace _].
  - intros r. by vm_compute.
  - exact Htrace.
Defined.

End InitMoreFacts.

(** ** The Controller: [bindStoreToView] and [destroy] *)

Module LifecycleFacts.
Import JsString JsNumber Js Controller Lifecycle Spec JsStringFacts InitFacts.

(** [render] is a function of the instance and the session. *)
Lemma render_frame c w : (render c w).1.2 = c /\ (render c w).2 = w.
Proof.
  apply (preserves_render (fun c' w' => c' = c /\ w' = w)). done.
Qed.

Lemma subscriptions_app t t' :
  subscriptions (t ++ t')%list = (subscriptions t ++ subscriptions t')%list.
Proof. apply List.filter_app. Qed.

Section WithUserCode.
Context {UC : UserCode}.

Lemma listen_frame history k hook c w :
  (listen history k hook c w).1.2 = c /\ (listen history k hook c w).2 = w.
Proof.
  apply (preserves_listen (fun c' w' => c' = c /\ w' = w)). done.
Qed.

(** The client side of the binding, when it completes. *)
Lemma bind_on_client_run c w c1 w1 :
  bind_on_client c w = (Normal (), c1, w1) ->
  let leave :=
    if truthy (member c "pageWillLeave") then [VFun (Fn "unlisten")] else [] in
  let unload :=
    if truthy (member c "windowWillUnload") then [VFun (Fn "unlisten")] else [] in
  c1 = with_prop "unsubscribeList"
         (array (VFun (Fn "unsubscribe") :: leave ++ unload)%list)
         (with_prop "logger" (VFun (Fn "logger")) c)
  /\ exists t, trace w1 = (trace w ++ t)%list
              /\ length (subscriptions t) = S (length (leave ++ unload)%list).
Proof.
  unfold bind_on_client. unfold mbind, M_bind, bind, this, lift, modify_world,
    set_member, ret.
  destruct (truthy (member c "name"));
    [|destruct (read (member c "location") "pattern"); [|done]];
    (destruct (method (member c "store") "subscribe"); [|done]);
    (destruct (truthy (member c "pageWillLeave"));
       [match goal with
        | |- context [listen ?h ?k ?v ?c0 ?w0] =>
            let H := fresh in
            pose proof (listen_frame h k v c0 w0) as H;
            destruct (listen h k v c0 w0) as [[[[]|?] ?] ?];
            simpl in H; destruct H as [-> ->]; [|done]
        end|]);
    (destruct (truthy (member c "windowWillUnload"));
       [match goal with
        | |- context [listen ?h ?k ?v ?c0 ?w0] =>
            let H := fresh in
            pose proof (listen_frame h k v c0 w0) as H;
            destruct (listen h k v c0 w0) as [[[[]|?] ?] ?];
            simpl in H; destruct H as [-> ->]; [|done]
        end|]);
    intros [= <- <-]; (split; [done|]); cbn [trace emit];
    rewrite <-?app_assoc; eexists; (split; [reflexivity|done]).
Qed.

End WithUserCode.

Section WithSubscriptions.
Context {UC : UserCode} {SUB : Subscriptions}.

(** When every function returns, every function is called. *)
Lemma cancel_each_returning fs :
  (forall f, exists v, cancel f = Normal v) ->
  cancel_each (map VFun fs) = (fs, None).
Proof.
  intros Hreturn. induction fs as [|f fs IH]; [done|].
  cbn [map cancel_each]. destruct (Hreturn f) as [v ->]. by rewrite IH.
Qed.

(** X20: [destroy] can be called again. Once a call has completed, the
    next one calls nothing, completes, and leaves the instance as it is. *)
Theorem destroy_twice c calls c' :
  destroy c = (calls, Normal (), c') ->
  destroy c' = ([], Normal (), c').
Proof.
  unfold destroy at 1.
  destruct (truthy (member c "unsubscribeList")) eqn:Hlist.
  - destruct (elements (member c "unsubscribeList")); [|done].
    destruct (cancel_each l) as [calls' [e|]]; [done|].
    intros [= _ <-]. unfold destroy.
    fold (with_prop "unsubscribeList" VNull c).
    by rewrite member_with_prop_eq.
  - intros [= _ <-]. unfold destroy. by rewrite Hlist.
Qed.

(** X21: what [bindStoreToView] subscribes to, [destroy] cancels. For an
    instance without a list of subscriptions yet, once [bindStoreToView] has
    completed, [destroy] calls as many functions as the binding made
    subscriptions (to the store, and to the history for [pageWillLeave] and
    [windowWillUnload]; none at all on the server), provided these functions
    return; and it completes. *)
Theorem destroy_cancels_every_subscription c w r :
  truthy (member c "unsubscribeList") = false ->
  (bindStoreToView c w).1.1 = Normal r ->
  (forall f, exists v, cancel f = Normal v) ->
  let bound := (bindStoreToView c w).1.2 in
  let made :=
    subscriptions (drop (length (trace w)) (trace (bindStoreToView c w).2)) in
  exists calls c',
    destroy bound = (calls, Normal (), c')
    /\ length calls = length made
    /\ (isClient (context c) = false -> made = []).
Proof.
  intros Hnone Hr Hreturn bound made.
  destruct (bindStoreToView c w) as [[res c4] w4] eqn:Hrun.
  simpl in Hr, bound, made. subst res.
  unfold bindStoreToView in Hrun.
  apply InitMoreFacts.bind_normal in Hrun as (c0 & ? & ? & [= <- <- <-] & Hrun).
  apply InitMoreFacts.bind_normal in Hrun as ([] & ? & ? & [= <- <-] & Hrun).
  apply InitMoreFacts.bind_normal in Hrun as ([] & c1 & w1 & Hclient & Hrun).
  apply InitMoreFacts.bind_normal in Hrun as ([] & ? & ? & [= <- <-] & Hrun).
  destruct (render_frame (with_prop "ViewWrapper" (VFun (Fn "ViewWrapper")) c1) w1)
    as [Hc Hw].
  unfold with_prop in Hc, Hw. rewrite Hrun in Hc, Hw. simpl in Hc, Hw.
  subst c4 w4. fold (with_prop "ViewWrapper" (VFun (Fn "ViewWrapper")) c1) in *.
  assert (member bound "unsubscribeList" = member c1 "unsubscribeList") as Hlist
    by (by apply member_with_prop_ne).
  destruct (isClient (context c)) eqn:Hside.
  - destruct (bind_on_client_run _ _ _ _ Hclient) as (Hc1 & t & Htrace & Hmade).
    cbv zeta in Hc1, Hmade.
    set (fs := (Fn "unsubscribe"
                :: (if truthy (member c "pageWillLeave") then [Fn "unlisten"] else [])
                ++ (if truthy (member c "windowWillUnload")
                    then [Fn "unlisten"] else []))%list).
    assert (elements (member bound "unsubscribeList") = Some (map VFun fs)
            /\ truthy (member bound "unsubscribeList") = true) as [Helements Htruthy].
    { rewrite Hlist, Hc1, member_with_prop_eq. unfold fs.
      by destruct (truthy (member c "pageWillLeave")),
                  (truthy (member c "windowWillUnload")). }
    assert (destroy bound
            = (fs, Normal (), with_prop "unsubscribeList" VNull bound)) as Hdestroy.
    { unfold destroy. rewrite Htruthy, Helements.
      by rewrite (cancel_each_returning fs Hreturn). }
    exists fs, (with_prop "unsubscribeList" VNull bound).
    split; [done|]. split; [|done].
    unfold made. rewrite Htrace. cbn [trace emit].
    rewrite <-app_assoc, drop_app_length, subscriptions_app. cbn [length app].
    cbn [subscriptions List.filter is_subscription app]. rewrite Hmade.
    unfold fs. cbn [length]. f_equal.
    by destruct (truthy (member c "pageWillLeave")),
                (truthy (member c "windowWillUnload")).
  - injection Hclient as <- <-.
    assert (destroy bound = ([], Normal (), bound)) as Hdestroy.
    { unfold destroy. by rewrite Hlist, Hnone. }
    exists [], bound. split; [done|].
    assert (made = []) as ->.
    { unfold made. cbn [trace emit]. by rewrite drop_app_length. }
    by repeat split.
Qed.

End WithSubscriptions.

(** [destroy_twice] at work on an instance with two subscriptions. *)
Lemma destroy_twice_witness :
  let c := with_prop "unsubscribeList"
             (array [VFun (Fn "unsubscribe"); VFun (Fn "unlisten")])
             (SamplePlatform.leaving Sample.client) in
  let first := destroy (SUB := SamplePlatform.returning) c in
  first.1.1 = [Fn "unsubscribe"; Fn "unlisten"]
  /\ destroy (SUB := SamplePlatform.returning) first.2 = ([], Normal (), first.2).
Proof.
  intros c first. split; [reflexivity|].
  exact (destroy_twice (SUB := SamplePlatform.returning) c first.1.1 first.2 eq_refl).
Defined.

(** [destroy_cancels_every_subscription] at work on the client, for a page
    that listens to the history: the store and the history are let go. *)
Lemma destroy_cancels_every_subscription_witness :
  let c := SamplePlatform.leaving Sample.client in
  let bound := (bindStoreToView (UC := Sample.quiet) c Sample.fresh).1.2 in
  exists calls c',
    destroy (SUB := SamplePlatform.returning) bound = (calls, Normal (), c')
    /\ length calls = 2%nat.
Proof.
  intros c bound.
  assert (exists r, (bindStoreToView (UC := Sample.quiet) c Sample.fresh).1.1
                    = Normal r) as [r Hr]
    by (eexists; by vm_compute).
  destruct (destroy_cancels_every_subscription (UC := Sample.quiet)
              (SUB := SamplePlatform.returning) c Sample.fresh r eq_refl Hr)
    as (calls & c' & Hdestroy & Hlength & _).
  { intros f. by eexists. }
  exists calls, c'. split; [exact Hdestroy|]. rewrite Hlength. by vm_compute.
Defined.

End LifecycleFacts.
